(** * A prepaid-card ledger (package [card]) and its statement renderer

    The development follows the Go sources: [card.go] (the account ledger:
    Load, Authorize, Capture, Reverse, Refund, Balance), the statement
    renderer, and the handlers and the account index of the API service
    ([service/api]).  Mutating methods on [*Account] become functions from
    the account before the call to the account after the call together
    with what the call returned.

    Decimal amounts are values of the library type [apd.Decimal]; every
    balance update goes through an [apd.Context] obtained from
    [getContext], i.e. [apd.BaseContext.WithPrecision(16)].

    In Go the balances are [*apd.Decimal] cells updated in place and an
    amount is passed as a pointer.  Here a balance is the decimal its
    cell holds, an update is an assignment to the field, and an amount is
    passed by value ([None] for a nil pointer): the callers in the
    repository, the API handlers and the tests, always pass a freshly
    parsed decimal, never a pointer to one of the account's own cells,
    and no two sub-ledgers of an account share a cell. *)

From Stdlib Require Import ZArith NArith QArith Qcanon Qpower Lia Lqa String Ascii List.
From stdpp Require Import gmap pretty.

Local Open Scope Z_scope.

(** ** Go error values

    The [error] results the package can produce: the two sentinel errors of
    [card.go], their wrapping by [errors.Wrapf]/[errors.Wrap], and the two
    kinds of error the decimal context reports. *)
Inductive error : Type :=
| ErrUnderflow                              (* "requested amount exceeds available amount" *)
| ErrMerchantNotFound                       (* "merchant record not found" *)
| ErrExponentOutOfRange                     (* apd: "exponent out of range" *)
| ErrCondition (trapped : N)                (* apd: a trapped Condition *)
| Wrapf (cause : error) (message : string). (* github.com/pkg/errors *)

(** [errors.Cause]: the innermost error of a chain of wrappers. *)
Fixpoint Cause (e : error) : error :=
  match e with
  | Wrapf c _ => Cause c
  | _ => e
  end.

(** ** The decimal arithmetic context *)
Module apd.

(** Modelled from the spec: the decimal arithmetic context of section 4.1.
    The library [github.com/cockroachdb/apd] is imported by [card.go] but
    is not part of the sources, so its types and the two operations the
    ledger calls are written here after the library's documented
    behaviour (General Decimal Arithmetic): a finite decimal is a sign, a
    non-negative coefficient and a power-of-ten exponent; [Add] and [Sub]
    compute the exact result, round it half-up to [Precision] significant
    digits and report what happened as a [Condition]; a condition raises
    an error only if it is in the context's [Traps].  [Inexact] and
    [Rounded] are not in the traps of [BaseContext].  Only decimals of
    form Finite are modelled (no infinities, no NaN). *)
Definition Condition := N.

Local Open Scope N_scope.
Definition SystemOverflow : Condition := N.shiftl 1 0.
Definition SystemUnderflow : Condition := N.shiftl 1 1.
Definition Overflow : Condition := N.shiftl 1 2.
Definition Underflow : Condition := N.shiftl 1 3.
Definition Inexact : Condition := N.shiftl 1 4.
Definition Subnormal : Condition := N.shiftl 1 5.
Definition Rounded : Condition := N.shiftl 1 6.
Definition DivisionUndefined : Condition := N.shiftl 1 7.
Definition DivisionByZero : Condition := N.shiftl 1 8.
Definition DivisionImpossible : Condition := N.shiftl 1 9.
Definition InvalidOperation : Condition := N.shiftl 1 10.
Definition Clamped : Condition := N.shiftl 1 11.
Local Close Scope N_scope.

(** [r | s] and [r & flag != 0] on conditions. *)
Definition cor (r s : Condition) : Condition := N.lor r s.
Definition Any (r flag : Condition) : bool := negb (N.land r flag =? 0)%N.

Definition DefaultTraps : Condition :=
  fold_right cor 0%N
    [SystemOverflow; SystemUnderflow; Overflow; Underflow; Subnormal;
     DivisionUndefined; DivisionByZero; DivisionImpossible; InvalidOperation].

(** The package limits on exponents; [BaseContext] uses them as its own
    [MaxExponent] and [MinExponent], so the context record below keeps
    only the two fields that vary. *)
Definition MaxExponent : Z := 100000.
Definition MinExponent : Z := - MaxExponent.

Record Context : Type := { Precision : Z; Traps : Condition }.

Definition BaseContext : Context := {| Precision := 0; Traps := DefaultTraps |}.

Definition WithPrecision (c : Context) (p : Z) : Context :=
  {| Precision := p; Traps := Traps c |}.

(** A finite decimal: (-1)^Negative * Coeff * 10^Exponent. *)
Record Decimal : Type := { Negative : bool; Exponent : Z; Coeff : N }.

(** [apd.New(coeff, exponent)]. *)
Definition New (coeff exponent : Z) : Decimal :=
  {| Negative := coeff <? 0; Exponent := exponent; Coeff := Z.abs_N coeff |}.

(** Number of decimal digits of a coefficient; 1 for zero. *)
Fixpoint digits_from (fuel : nat) (c : N) : Z :=
  match fuel with
  | O => 1
  | S fuel' => if (c <? 10)%N then 1 else 1 + digits_from fuel' (c / 10)%N
  end.

Definition NumDigits (c : N) : Z := digits_from (N.size_nat c) c.

Definition Sign (d : Decimal) : Z :=
  if (Coeff d =? 0)%N then 0 else if Negative d then -1 else 1.

(** The coefficient with its sign. *)
Definition sgnZ (neg : bool) (c : N) : Z :=
  if neg then - Z.of_N c else Z.of_N c.

Definition signed (d : Decimal) : Z := sgnZ (Negative d) (Coeff d).

(** [d.Cmp(x)]: -1, 0 or +1 as d is below, equal to or above x in value.
    Both operands are brought to the smaller exponent and the signed
    coefficients compared. *)
Definition Cmp (d x : Decimal) : Z :=
  let s := Z.min (Exponent d) (Exponent x) in
  match signed d * 10 ^ (Exponent d - s) ?= signed x * 10 ^ (Exponent x - s) with
  | Lt => -1
  | Eq => 0
  | Gt => 1
  end.

(** [upscale]: the two coefficients at the smaller of the two exponents;
    refused when the exponents are more than [MaxExponent] apart. *)
Definition upscale (a b : Decimal) : option (N * N * Z) :=
  if Exponent a =? Exponent b then Some (Coeff a, Coeff b, Exponent a)
  else
    let swapped := Exponent a <? Exponent b in
    let hi := if swapped then b else a in
    let lo := if swapped then a else b in
    let s := Exponent hi - Exponent lo in
    if s >? MaxExponent then None
    else
      let x := (Coeff hi * 10 ^ Z.to_N s)%N in
      let y := Coeff lo in
      Some (if swapped then (y, x, Exponent lo) else (x, y, Exponent lo)).

(** [setExponent]: stores the sum of [xs] as the exponent unless a summand
    or the adjusted exponent leaves the package limits, in which case the
    decimal is left as it is and a system condition is returned. *)
Definition setExponent (d : Decimal) (xs : list Z) : Decimal * Condition :=
  if existsb (fun x => x >? MaxExponent) xs then (d, cor SystemOverflow Overflow)
  else if existsb (fun x => x <? MinExponent) xs then (d, cor SystemUnderflow Underflow)
  else
    let sum := fold_right Z.add 0 xs in
    let adj := sum + NumDigits (Coeff d) - 1 in
    if adj >? MaxExponent then (d, cor SystemOverflow Overflow)
    else if adj <? MinExponent then (d, cor SystemUnderflow Underflow)
    else ({| Negative := Negative d; Exponent := sum; Coeff := Coeff d |}, 0%N).

(** [roundAddOne]: one more in the last kept place; a carry into a new
    digit drops the last digit again and moves the exponent. *)
Definition roundAddOne (b : N) (diff : Z) : N * Z :=
  let b' := (b + 1)%N in
  if NumDigits b' >? NumDigits b then ((b' / 10)%N, diff + 1) else (b', diff).

(** [c.round(d, d)] with the default rounding mode (half up). *)
Definition round (c : Context) (d : Decimal) : Decimal * Condition :=
  if Precision c =? 0 then setExponent d [Exponent d]
  else
    let nd := NumDigits (Coeff d) in
    if negb (Sign d =? 0) && (Exponent d + nd - 1 <? MinExponent) then
      let '(d', r) := setExponent d [Exponent d] in
      (d', cor Subnormal r)
    else
      let diff := nd - Precision c in
      if 0 <? diff then
        if diff >? MaxExponent then (d, cor SystemOverflow Overflow)
        else
          let e := (10 ^ Z.to_N diff)%N in
          let y := (Coeff d / e)%N in
          let m := (Coeff d mod e)%N in
          if (m =? 0)%N then
            let '(d', r) :=
              setExponent {| Negative := Negative d; Exponent := Exponent d; Coeff := y |}
                          [Exponent d; diff] in
            (d', cor Rounded r)
          else
            let '(y', diff') :=
              if (e <=? 2 * m)%N then roundAddOne y diff else (y, diff) in
            let '(d', r) :=
              setExponent {| Negative := Negative d; Exponent := Exponent d; Coeff := y' |}
                          [Exponent d; diff'] in
            (d', cor (cor Rounded Inexact) r)
      else setExponent d [Exponent d; 0].

(** [Condition.GoError]: a system condition is always an error; any other
    condition is one only when trapped. *)
Definition goError (c : Context) (r : Condition) : option error :=
  if Any r (cor SystemOverflow SystemUnderflow) then Some ErrExponentOutOfRange
  else if Any r (Traps c) then Some (ErrCondition (N.land r (Traps c)))
  else None.

(** [c.add(d, x, y, subtract)].  The first component of the result is what
    the destination [d] holds when the call returns: the library writes
    the sum into it before rounding and before the error check. *)
Definition add (c : Context) (d x y : Decimal) (subtract : bool)
  : Decimal * Condition * option error :=
  let xn := Negative x in
  let yn := xorb (Negative y) subtract in
  match upscale x y with
  | None => (d, 0%N, Some (Wrapf ErrExponentOutOfRange "add"))
  | Some (a, b, s) =>
      let '(neg, coeff) :=
        if Bool.eqb xn yn then (xn, (a + b)%N)
        else
          match (a ?= b)%N with
          | Lt => (negb xn, (b - a)%N)
          | Eq => (false, 0%N)
          | Gt => (xn, (a - b)%N)
          end in
      let '(d', res) := round c {| Negative := neg; Exponent := s; Coeff := coeff |} in
      (d', res, goError c res)
  end.

Definition Add (c : Context) (d x y : Decimal) := add c d x y false.
Definition Sub (c : Context) (d x y : Decimal) := add c d x y true.

(** The rational number a decimal denotes, as a fraction and in lowest
    terms. *)
Definition qvalue (d : Decimal) : Q :=
  inject_Z (signed d) * (10 # 1) ^ Exponent d.

Definition dvalue (d : Decimal) : Qc := Q2Qc (qvalue d).

End apd.

Import apd.

(** ** Package card: the ledger ([card.go]) *)

(** Account request types. *)
Inductive Operation : Type := Load | Authorize | Capture | Reverse | Refund.

Definition Operation_String (op : Operation) : string :=
  match op with
  | Load => "LOAD"
  | Authorize => "AUTHORIZE"
  | Capture => "CAPTURE"
  | Reverse => "REVERSE"
  | Refund => "REFUND"
  end.

(** Merchant represents a merchant. *)
Record Merchant : Type :=
  { Merchant_Available : Decimal; Merchant_Captured : Decimal }.

(** Transaction represents a prepaid card transaction; [MerchantID] is a
    pointer in Go, [nil] for Load entries. *)
Record Transaction : Type :=
  { Type_ : Operation; MerchantID : option Z; Amount : Decimal }.

(** Account represents a prepaid card account.  A [nil] merchant map and
    an empty one are both the empty map: Go reads either the same way and
    Authorize allocates the map before its only write. *)
Record Account : Type :=
  { ID : Z;
    Available : Decimal;
    Blocked : Decimal;
    Merchants : gmap Z Merchant;
    Transactions : list Transaction }.

(** Balance represents a prepaid card balance. *)
Record Balance : Type :=
  { Total : Decimal; Balance_Available : Decimal; Balance_Blocked : Decimal }.

(** NewAccount returns a new account instance. *)
Definition NewAccount (id : Z) : Account :=
  {| ID := id; Available := New 0 0; Blocked := New 0 0;
     Merchants := ∅; Transactions := [] |}.

Definition getContext : Context := WithPrecision BaseContext 16.

(** Assignments to the fields of the receiver. *)
Definition set_Available (a : Account) (d : Decimal) : Account :=
  {| ID := ID a; Available := d; Blocked := Blocked a;
     Merchants := Merchants a; Transactions := Transactions a |}.

Definition set_Blocked (a : Account) (d : Decimal) : Account :=
  {| ID := ID a; Available := Available a; Blocked := d;
     Merchants := Merchants a; Transactions := Transactions a |}.

(** [a.Merchants[merchantID] = m], also the effect of writing through the
    pointer [m] obtained from [a.Merchants[merchantID]]. *)
Definition set_Merchant (a : Account) (merchantID : Z) (m : Merchant) : Account :=
  {| ID := ID a; Available := Available a; Blocked := Blocked a;
     Merchants := <[merchantID := m]> (Merchants a); Transactions := Transactions a |}.

(** [a.Transactions = append(a.Transactions, t)]. *)
Definition append_Transaction (a : Account) (t : Transaction) : Account :=
  {| ID := ID a; Available := Available a; Blocked := Blocked a;
     Merchants := Merchants a; Transactions := Transactions a ++ [t] |}.

(** What a call did: it returned ([nil] or an error), or it panicked on a
    [nil] amount. *)
Inductive outcome : Type :=
| Returns (err : option error)
| Panics.

(** [strconv.Itoa], also what the verb [%d] prints. *)
Definition Itoa (i : Z) : string := pretty i.

(** [errors.Wrapf(ErrMerchantNotFound, "ID: %d", merchantID)]. *)
Definition merchantNotFound (merchantID : Z) : error :=
  Wrapf ErrMerchantNotFound ("ID: " ++ Itoa merchantID).

(** Load loads the given amount to the account. *)
Definition Account_Load (a : Account) (amount : option Decimal) : Account * outcome :=
  match amount with
  | None => (a, Panics)
  | Some amount =>
      let '(d, _, err) := Add getContext (Available a) (Available a) amount in
      let a := set_Available a d in
      match err with
      | Some e => (a, Returns (Some e))
      | None =>
          (append_Transaction a {| Type_ := Load; MerchantID := None; Amount := amount |},
           Returns None)
      end
  end.

(** Authorize authorizes the given amount to the given merchant. *)
Definition Account_Authorize (a : Account) (merchantID : Z) (amount : option Decimal)
  : Account * outcome :=
  match amount with
  | None => (a, Panics)
  | Some amount =>
      if Cmp (Available a) amount <? 0 then (a, Returns (Some ErrUnderflow))
      else
        let ctx := getContext in
        let '(d, _, err) := Sub ctx (Available a) (Available a) amount in
        let a := set_Available a d in
        match err with
        | Some e => (a, Returns (Some e))
        | None =>
            let '(d, _, err) := Add ctx (Blocked a) (Blocked a) amount in
            let a := set_Blocked a d in
            match err with
            | Some e => (a, Returns (Some e))
            | None =>
                let '(m, a) :=
                  match Merchants a !! merchantID with
                  | Some m => (m, a)
                  | None =>
                      let m := {| Merchant_Available := New 0 0;
                                  Merchant_Captured := New 0 0 |} in
                      (m, set_Merchant a merchantID m)
                  end in
                let '(d, _, err) :=
                  Add ctx (Merchant_Available m) (Merchant_Available m) amount in
                let a := set_Merchant a merchantID
                           {| Merchant_Available := d;
                              Merchant_Captured := Merchant_Captured m |} in
                match err with
                | Some e => (a, Returns (Some e))
                | None =>
                    (append_Transaction a
                       {| Type_ := Authorize; MerchantID := Some merchantID;
                          Amount := amount |},
                     Returns None)
                end
            end
        end
  end.

(** Capture captures the given amount for the given merchant. *)
Definition Account_Capture (a : Account) (merchantID : Z) (amount : option Decimal)
  : Account * outcome :=
  match Merchants a !! merchantID with
  | None => (a, Returns (Some (merchantNotFound merchantID)))
  | Some m =>
      match amount with
      | None => (a, Panics)
      | Some amount =>
          if Cmp (Merchant_Available m) amount <? 0 then (a, Returns (Some ErrUnderflow))
          else
            let ctx := getContext in
            let '(d, _, err) :=
              Sub ctx (Merchant_Available m) (Merchant_Available m) amount in
            let m := {| Merchant_Available := d;
                        Merchant_Captured := Merchant_Captured m |} in
            let a := set_Merchant a merchantID m in
            match err with
            | Some e => (a, Returns (Some e))
            | None =>
                let '(d, _, err) :=
                  Add ctx (Merchant_Captured m) (Merchant_Captured m) amount in
                let m := {| Merchant_Available := Merchant_Available m;
                            Merchant_Captured := d |} in
                let a := set_Merchant a merchantID m in
                match err with
                | Some e => (a, Returns (Some e))
                | None =>
                    let '(d, _, err) := Sub ctx (Blocked a) (Blocked a) amount in
                    let a := set_Blocked a d in
                    match err with
                    | Some e => (a, Returns (Some e))
                    | None =>
                        (append_Transaction a
                           {| Type_ := Capture; MerchantID := Some merchantID;
                              Amount := amount |},
                         Returns None)
                    end
                end
            end
      end
  end.

(** Reverse reverses the given amount from the given merchant. *)
Definition Account_Reverse (a : Account) (merchantID : Z) (amount : option Decimal)
  : Account * outcome :=
  match Merchants a !! merchantID with
  | None => (a, Returns (Some (merchantNotFound merchantID)))
  | Some m =>
      match amount with
      | None => (a, Panics)
      | Some amount =>
          if Cmp (Merchant_Available m) amount <? 0 then (a, Returns (Some ErrUnderflow))
          else
            let ctx := getContext in
            let '(d, _, err) :=
              Sub ctx (Merchant_Available m) (Merchant_Available m) amount in
            let m := {| Merchant_Available := d;
                        Merchant_Captured := Merchant_Captured m |} in
            let a := set_Merchant a merchantID m in
            match err with
            | Some e => (a, Returns (Some e))
            | None =>
                let '(d, _, err) := Sub ctx (Blocked a) (Blocked a) amount in
                let a := set_Blocked a d in
                match err with
                | Some e => (a, Returns (Some e))
                | None =>
                    let '(d, _, err) := Add ctx (Available a) (Available a) amount in
                    let a := set_Available a d in
                    match err with
                    | Some e => (a, Returns (Some e))
                    | None =>
                        (append_Transaction a
                           {| Type_ := Reverse; MerchantID := Some merchantID;
                              Amount := amount |},
                         Returns None)
                    end
                end
            end
      end
  end.

(** Refund refunds the given amount from the given merchant. *)
Definition Account_Refund (a : Account) (merchantID : Z) (amount : option Decimal)
  : Account * outcome :=
  match Merchants a !! merchantID with
  | None => (a, Returns (Some (merchantNotFound merchantID)))
  | Some m =>
      match amount with
      | None => (a, Panics)
      | Some amount =>
          if Cmp (Merchant_Captured m) amount <? 0 then (a, Returns (Some ErrUnderflow))
          else
            let ctx := getContext in
            let '(d, _, err) :=
              Sub ctx (Merchant_Captured m) (Merchant_Captured m) amount in
            let m := {| Merchant_Available := Merchant_Available m;
                        Merchant_Captured := d |} in
            let a := set_Merchant a merchantID m in
            match err with
            | Some e => (a, Returns (Some e))
            | None =>
                let '(d, _, err) := Add ctx (Available a) (Available a) amount in
                let a := set_Available a d in
                match err with
                | Some e => (a, Returns (Some e))
                | None =>
                    (append_Transaction a
                       {| Type_ := Refund; MerchantID := Some merchantID;
                          Amount := amount |},
                     Returns None)
                end
            end
      end
  end.

(** Balance returns the account balance. *)
Definition Account_Balance (a : Account) : Balance + error :=
  let total := New 0 0 in
  let '(total, _, err) := Add getContext total (Available a) (Blocked a) in
  match err with
  | Some e => inr e
  | None =>
      inl {| Total := total; Balance_Available := Available a;
             Balance_Blocked := Blocked a |}
  end.

(** ** The statement renderer *)

Module float.

(** Modelled from the spec: the two-decimal fixed-width fields of the
    statement format (section 6).  What the renderer takes from outside
    the sources, Go's standard library and [apd.Decimal.Float64], is
    written here after its documented behaviour: IEEE 754 binary64
    numbers, the correctly rounded conversion of a decimal to the nearest
    binary64 ([strconv.ParseFloat], ties to even), and the verbs [%N.2f],
    [%-Nd] and [%-Ns] of [fmt.Fprintf]. *)

Record float64 : Type := { neg : bool; mant : N; exp : Z }.
(* a finite binary64: (-1)^neg * mant * 2^exp with mant <= 2^53 *)

(** num/den rounded to the nearest integer, ties to even. *)
Definition round_half_even (num den : N) : N :=
  let q := (num / den)%N in
  let r := (num mod den)%N in
  match (2 * r ?= den)%N with
  | Lt => q
  | Eq => if N.even q then q else (q + 1)%N
  | Gt => (q + 1)%N
  end.

(** The binary64 nearest to (-1)^s * p/q, [None] when it is out of range. *)
Definition nearest (s : bool) (p q : N) : option float64 :=
  if (p =? 0)%N then Some {| neg := s; mant := 0; exp := 0 |}
  else
    let e0 := Z.of_N (N.log2 p) - Z.of_N (N.log2 q) in
    let above :=
      if 0 <=? e0 then (q * 2 ^ Z.to_N e0 <=? p)%N
      else (q <=? p * 2 ^ Z.to_N (- e0))%N in
    let e := if above then e0 else e0 - 1 in
    let t := Z.max e (-1022) - 52 in
    let m :=
      if 0 <=? t then round_half_even p (q * 2 ^ Z.to_N t)
      else round_half_even (p * 2 ^ Z.to_N (- t)) q in
    if 1024 <=? t + Z.of_N (N.log2 m) then None
    else Some {| neg := s; mant := m; exp := t |}.

(** [d.Float64()]. *)
Definition Float64 (d : Decimal) : option float64 :=
  if 0 <=? Exponent d
  then nearest (Negative d) (Coeff d * 10 ^ Z.to_N (Exponent d)) 1
  else nearest (Negative d) (Coeff d) (10 ^ Z.to_N (- Exponent d)).

(** The verb [%.2f]: the binary value rounded to hundredths, ties to
    even, printed with two fraction digits. *)
Definition format_2f (f : float64) : string :=
  let cents :=
    if 0 <=? exp f then (mant f * 2 ^ Z.to_N (exp f) * 100)%N
    else round_half_even (mant f * 100) (2 ^ Z.to_N (- exp f)) in
  let frac := (cents mod 100)%N in
  ((if neg f then "-" else "") ++ pretty (cents / 100)%N ++ "." ++
   (if (frac <? 10)%N then "0" else "") ++ pretty frac)%string.

Fixpoint spaces (n : nat) : string :=
  match n with
  | O => ""
  | S n' => String " " (spaces n')
  end.

(** Right-aligned in a field of the given width ([%Ns]), and left-aligned
    ([%-Ns]). *)
Definition pad_left (width : nat) (s : string) : string :=
  (spaces (width - String.length s) ++ s)%string.

Definition pad_right (width : nat) (s : string) : string :=
  (s ++ spaces (width - String.length s))%string.

End float.

Definition newline : string := String (ascii_of_nat 10) "".

(** [strings.Repeat("-", 43)]. *)
Definition line : string :=
  "-------------------------------------------".

(** The rows of the table: [fmt.Fprintf(&sb, " %-6d | %-9s | %-8s | %9.2f\n", ...)]
    for each transaction, [None] when an amount has no binary64. *)
Fixpoint rows (i : Z) (ts : list Transaction) : option string :=
  match ts with
  | [] => Some ""%string
  | v :: ts' =>
      let merchant :=
        match MerchantID v with
        | Some id => Itoa id
        | None => ""%string
        end in
      match float.Float64 (Amount v) with
      | None => None
      | Some f =>
          match rows (i + 1) ts' with
          | None => None
          | Some rest =>
              Some (" " ++ float.pad_right 6 (Itoa i) ++ " | " ++
                    float.pad_right 9 (Operation_String (Type_ v)) ++ " | " ++
                    float.pad_right 8 merchant ++ " | " ++
                    float.pad_left 9 (float.format_2f f) ++ newline ++ rest)%string
          end
      end
  end.

(** Statement generates an account statement; [None] stands for the
    error result. *)
Definition Account_Statement (a : Account) : option string :=
  match Account_Balance a with
  | inr _ => None
  | inl balance =>
      match float.Float64 (Balance_Available balance),
            float.Float64 (Balance_Blocked balance),
            float.Float64 (Total balance) with
      | Some available, Some blocked, Some total =>
          let head :=
            ("Available: " ++ float.pad_left 32 (float.format_2f available) ++ newline ++
             "Blocked: " ++ float.pad_left 34 (float.format_2f blocked) ++ newline ++
             "Total: " ++ float.pad_left 36 (float.format_2f total) ++ newline ++
             newline ++
             line ++ newline ++
             " ID     | Type      | Merchant | Amount" ++ newline ++
             line)%string in
          match Transactions a with
          | [] => Some (head ++ newline ++ "          *** NO TRANSACTIONS ***")%string
          | ts =>
              match rows 0 ts with
              | None => None
              | Some body => Some (head ++ newline ++ body ++ line)%string
              end
          end
      | _, _, _ => None
      end
  end.

(** ** Sequences of calls, and the quantities the properties speak of *)

(** One call on an account: the operation, the merchant identifier (not
    used by Load) and the amount pointer, as the API handlers pass them. *)
Record Request : Type :=
  { Request_Op : Operation; Request_MerchantID : Z; Request_Amount : option Decimal }.

Definition perform (a : Account) (r : Request) : Account * outcome :=
  match Request_Op r with
  | Load => Account_Load a (Request_Amount r)
  | Authorize => Account_Authorize a (Request_MerchantID r) (Request_Amount r)
  | Capture => Account_Capture a (Request_MerchantID r) (Request_Amount r)
  | Reverse => Account_Reverse a (Request_MerchantID r) (Request_Amount r)
  | Refund => Account_Refund a (Request_MerchantID r) (Request_Amount r)
  end.

(** The account after a sequence of calls all of which returned [nil];
    [None] as soon as one returns an error or panics. *)
Fixpoint run (a : Account) (rs : list Request) : option Account :=
  match rs with
  | [] => Some a
  | r :: rs' =>
      match perform a r with
      | (a', Returns None) => run a' rs'
      | _ => None
      end
  end.

(** The hold and the captured amount of a merchant, zero when the merchant
    has no sub-ledger (the values Authorize starts a new sub-ledger with). *)
Definition hold (a : Account) (merchantID : Z) : Decimal :=
  match Merchants a !! merchantID with
  | Some m => Merchant_Available m
  | None => New 0 0
  end.

Definition captured (a : Account) (merchantID : Z) : Decimal :=
  match Merchants a !! merchantID with
  | Some m => Merchant_Captured m
  | None => New 0 0
  end.

(** The result of a context operation is exact: [Inexact] is not among
    the conditions it reports (the ledger discards these conditions). *)
Definition exact (r : Decimal * Condition * option error) : bool :=
  negb (Any (snd (fst r)) Inexact).

(** None of the additions and subtractions that [perform a r] goes
    through reports [Inexact]. *)
Definition exact_call (a : Account) (r : Request) : bool :=
  match Request_Amount r with
  | None => true
  | Some amount =>
      let ctx := getContext in
      let id := Request_MerchantID r in
      match Request_Op r with
      | Load => exact (Add ctx (Available a) (Available a) amount)
      | Authorize =>
          exact (Sub ctx (Available a) (Available a) amount) &&
          exact (Add ctx (Blocked a) (Blocked a) amount) &&
          exact (Add ctx (hold a id) (hold a id) amount)
      | Capture =>
          exact (Sub ctx (hold a id) (hold a id) amount) &&
          exact (Add ctx (captured a id) (captured a id) amount) &&
          exact (Sub ctx (Blocked a) (Blocked a) amount)
      | Reverse =>
          exact (Sub ctx (hold a id) (hold a id) amount) &&
          exact (Sub ctx (Blocked a) (Blocked a) amount) &&
          exact (Add ctx (Available a) (Available a) amount)
      | Refund =>
          exact (Sub ctx (captured a id) (captured a id) amount) &&
          exact (Add ctx (Available a) (Available a) amount)
      end
  end.

(** The amount of a request is not negative. *)
Definition nonneg_amount (r : Request) : bool :=
  match Request_Amount r with
  | None => true
  | Some amount => 0 <=? signed amount
  end.

(** Every call of the sequence is exact. *)
Fixpoint exact_run (a : Account) (rs : list Request) : bool :=
  match rs with
  | [] => true
  | r :: rs' => exact_call a r && exact_run (fst (perform a r)) rs'
  end.

(** total = available + blocked, as a number. *)
Definition total (a : Account) : Qc :=
  (dvalue (Available a) + dvalue (Blocked a))%Qc.

(** The sum of merchant.available over all merchant sub-ledgers. *)
Definition held_of (M : gmap Z Merchant) : Qc :=
  map_fold (fun _ m acc => (dvalue (Merchant_Available m) + acc)%Qc) (Q2Qc 0) M.

Definition held_total (a : Account) : Qc := held_of (Merchants a).

(** No merchant's available or captured amount is negative. *)
Definition merchants_nonneg (M : gmap Z Merchant) : Prop :=
  forall id m, M !! id = Some m ->
    (0 <= dvalue (Merchant_Available m))%Qc /\ (0 <= dvalue (Merchant_Captured m))%Qc.

(** blocked == sum of merchant.available, and no balance is negative. *)
Definition balanced (a : Account) : Prop :=
  dvalue (Blocked a) = held_total a /\
  (0 <= dvalue (Available a))%Qc /\
  (0 <= dvalue (Blocked a))%Qc /\
  merchants_nonneg (Merchants a).

(** What a request adds to the total when it succeeds exactly: Load and
    Refund add their amount, Capture takes its amount away. *)
Definition net_amount (r : Request) : Qc :=
  match Request_Amount r with
  | None => Q2Qc 0
  | Some amount =>
      match Request_Op r with
      | Load | Refund => dvalue amount
      | Capture => (- dvalue amount)%Qc
      | Authorize | Reverse => Q2Qc 0
      end
  end.

Definition net_total (rs : list Request) : Qc :=
  fold_right (fun r acc => (net_amount r + acc)%Qc) (Q2Qc 0) rs.

(** The amount of a request as a number, zero for a [nil] amount. *)
Definition amount_value (r : Request) : Qc :=
  match Request_Amount r with
  | Some amount => dvalue amount
  | None => Q2Qc 0
  end.

(** ** Scenarios

    The calls and accounts the examples below run on; most come from the
    package's tests ([card_test.go] and the statement test). *)

Definition req (op : Operation) (id : Z) (coeff exponent : Z) : Request :=
  {| Request_Op := op; Request_MerchantID := id;
     Request_Amount := Some (New coeff exponent) |}.

Definition tx (op : Operation) (id : option Z) (coeff exponent : Z) : Transaction :=
  {| Type_ := op; MerchantID := id; Amount := New coeff exponent |}.

(** The account a call leaves behind, and the one a sequence leaves. *)
Definition after (a : Account) (r : Request) : Account := fst (perform a r).

Definition after_all (a : Account) (rs : list Request) : Account :=
  fold_left after rs a.

(** The calls of the statement test: Load 915.75; Authorize 15.00;
    Capture 5; Capture 5; Reverse 2.5; Refund 10; Capture 2.5. *)
Definition statement_calls : list Request :=
  [req Load 0 91575 (-2); req Authorize 1 1500 (-2); req Capture 1 5 0;
   req Capture 1 5 0; req Reverse 1 25 (-1); req Refund 1 10 0;
   req Capture 1 25 (-1)].

(** Load 10, Authorize 2 (the start of TestCapture). *)
Definition capture_setup : list Request :=
  [req Load 0 10 0; req Authorize 1 2 0].

(** Load 10, Authorize 3, Capture 3: merchant 1 has captured 3. *)
Definition captured3 : list Request :=
  [req Load 0 10 0; req Authorize 1 3 0; req Capture 1 3 0].

(** Load 10000000000000000, Authorize 1, Capture 1: available is
    9999999999999999, sixteen digits, and merchant 1 has captured 1. *)
Definition sixteen_nines : list Request :=
  [req Load 0 10000000000000000 0; req Authorize 1 1 0; req Capture 1 1 0].

(** Blocked is 9999999999999999, held by merchant 2, and 6 is available. *)
Definition blocked_nines : list Request :=
  [req Load 0 9999999999999999 0; req Authorize 2 9999999999999999 0;
   req Load 0 6 0].

(** Non-negative amounts after which blocked and the holds differ. *)
Definition two_holds : list Request :=
  [req Load 0 9999999999999999 0; req Authorize 1 9999999999999999 0;
   req Load 0 2 0; req Authorize 2 1 0; req Authorize 2 1 0].

(** A zero with a given exponent. *)
Definition zero_at (e : Z) : Decimal :=
  {| Negative := false; Exponent := e; Coeff := 0 |}.

(** Authorize 0 for merchant 1 on a new account, then Capture of a zero
    written 0E-100000, then Load 20: the blocked balance and both
    balances of merchant 1 are zero with exponent -100000. *)
Definition opened : Account :=
  {| ID := 0; Available := New 0 0; Blocked := New 0 0;
     Merchants := {[ 1 := {| Merchant_Available := New 0 0;
                             Merchant_Captured := New 0 0 |} ]};
     Transactions := [tx Authorize (Some 1) 0 0] |}.

Definition drifted0 : Account :=
  {| ID := 0; Available := New 0 0; Blocked := New 0 (-100000);
     Merchants := {[ 1 := {| Merchant_Available := New 0 (-100000);
                             Merchant_Captured := New 0 (-100000) |} ]};
     Transactions := [tx Authorize (Some 1) 0 0; tx Capture (Some 1) 0 (-100000)] |}.

Definition drifted : Account :=
  {| ID := 0; Available := New 20 0; Blocked := New 0 (-100000);
     Merchants := {[ 1 := {| Merchant_Available := New 0 (-100000);
                             Merchant_Captured := New 0 (-100000) |} ]};
     Transactions := [tx Authorize (Some 1) 0 0; tx Capture (Some 1) 0 (-100000);
                      tx Load None 20 0] |}.

(** Load 10, Authorize 10 for merchant 1, then Refund of a zero written
    0E-100000: merchant 1 holds 10 and its captured amount is zero with
    exponent -100000. *)
Definition held10 : Account :=
  {| ID := 0; Available := New 0 0; Blocked := New 10 0;
     Merchants := {[ 1 := {| Merchant_Available := New 10 0;
                             Merchant_Captured := New 0 0 |} ]};
     Transactions := [tx Load None 10 0; tx Authorize (Some 1) 10 0] |}.

Definition held10_drifted : Account :=
  {| ID := 0; Available := New 0 (-100000); Blocked := New 10 0;
     Merchants := {[ 1 := {| Merchant_Available := New 10 0;
                             Merchant_Captured := New 0 (-100000) |} ]};
     Transactions := [tx Load None 10 0; tx Authorize (Some 1) 10 0;
                      tx Refund (Some 1) 0 (-100000)] |}.

(** A new account loaded with 99999999999999.99. *)
Definition big_load : Account :=
  after (NewAccount 0) (req Load 0 9999999999999999 (-2)).

(** ** The log of a sequence of calls *)

(** The log entry a successful call appends: the operation, the merchant
    identifier (none for Load) and the amount. *)
Definition entry (r : Request) (amount : Decimal) : Transaction :=
  {| Type_ := Request_Op r;
     MerchantID := match Request_Op r with
                   | Load => None
                   | _ => Some (Request_MerchantID r)
                   end;
     Amount := amount |}.

Definition entries (rs : list Request) : list Transaction :=
  flat_map (fun r => match Request_Amount r with
                     | Some amount => [entry r amount]
                     | None => []
                     end) rs.

(** ** The money an account holds *)

(** The sum of merchant.captured over all merchant sub-ledgers. *)
Definition captured_of (M : gmap Z Merchant) : Qc :=
  map_fold (fun _ m acc => (dvalue (Merchant_Captured m) + acc)%Qc) (Q2Qc 0) M.

(** available + blocked + everything captured. *)
Definition funds (a : Account) : Qc :=
  (dvalue (Available a) + dvalue (Blocked a) + captured_of (Merchants a))%Qc.

(** What a request loads: its amount for a Load, nothing otherwise. *)
Definition loaded (r : Request) : Qc :=
  match Request_Op r, Request_Amount r with
  | Load, Some amount => dvalue amount
  | _, _ => Q2Qc 0
  end.

Definition loaded_total (rs : list Request) : Qc :=
  fold_right (fun r acc => (loaded r + acc)%Qc) (Q2Qc 0) rs.

(** ** Ordinary amounts

    Amounts written with at most [k] fraction digits and no positive
    exponent (cents for k = 2), counted in units of 10^-k. *)

Definition ordinary (k : Z) (d : Decimal) : bool :=
  (- k <=? Exponent d) && (Exponent d <=? 0).

(** The decimal as a whole number of units of 10^-k. *)
Definition units (k : Z) (d : Decimal) : Z := signed d * 10 ^ (Exponent d + k).

Definition sum_over (f : Merchant -> Z) (M : gmap Z Merchant) : Z :=
  map_fold (fun _ m acc => f m + acc) 0 M.

Definition held_units (k : Z) (M : gmap Z Merchant) : Z :=
  sum_over (fun m => units k (Merchant_Available m)) M.

Definition captured_units (k : Z) (M : gmap Z Merchant) : Z :=
  sum_over (fun m => units k (Merchant_Captured m)) M.

(** available + blocked + everything captured, in units. *)
Definition money (k : Z) (a : Account) : Z :=
  units k (Available a) + units k (Blocked a) + captured_units k (Merchants a).

Definition ordinary_merchant (k : Z) (m : Merchant) : Prop :=
  ordinary k (Merchant_Available m) = true /\ ordinary k (Merchant_Captured m) = true /\
  0 <= units k (Merchant_Available m) /\ 0 <= units k (Merchant_Captured m).

(** An account all of whose balances are ordinary and not negative, whose
    blocked balance is the sum of the holds, and which holds less than
    10^16 units in all (sixteen digits, the precision of [getContext]). *)
Definition ordinary_account (k : Z) (a : Account) : Prop :=
  ordinary k (Available a) = true /\ ordinary k (Blocked a) = true /\
  0 <= units k (Available a) /\
  units k (Blocked a) = held_units k (Merchants a) /\
  (forall id m, Merchants a !! id = Some m -> ordinary_merchant k m) /\
  money k a < 10 ^ 16.

(** A request with an ordinary amount that is not negative (and not nil). *)
Definition ordinary_request (k : Z) (r : Request) : bool :=
  match Request_Amount r with
  | Some amount => ordinary k amount && (0 <=? signed amount)
  | None => false
  end.

(** The precondition of a request, in units: room below 10^16 for a Load,
    enough available for Authorize, an existing merchant with enough held
    for Capture and Reverse, with enough captured for Refund. *)
Definition sufficient (k : Z) (a : Account) (r : Request) : bool :=
  match Request_Amount r with
  | None => false
  | Some amount =>
      match Request_Op r with
      | Load => money k a + units k amount <? 10 ^ 16
      | Authorize => units k amount <=? units k (Available a)
      | Capture | Reverse =>
          match Merchants a !! Request_MerchantID r with
          | Some m => units k amount <=? units k (Merchant_Available m)
          | None => false
          end
      | Refund =>
          match Merchants a !! Request_MerchantID r with
          | Some m => units k amount <=? units k (Merchant_Captured m)
          | None => false
          end
      end
  end.

Definition loaded_units (k : Z) (r : Request) : Z :=
  match Request_Op r, Request_Amount r with
  | Load, Some amount => units k amount
  | _, _ => 0
  end.

Definition loaded_units_total (k : Z) (rs : list Request) : Z :=
  fold_right (fun r acc => loaded_units k r + acc) 0 rs.

(** A log entry with an ordinary amount between 0 and 10^16 units. *)
Definition ordinary_entry (k : Z) (v : Transaction) : bool :=
  ordinary k (Amount v) && (0 <=? units k (Amount v)) && (units k (Amount v) <? 10 ^ 16).

Definition ordinary_log (k : Z) (a : Account) : bool :=
  forallb (ordinary_entry k) (Transactions a).

(** ** The API service ([service/api]) *)

Module api.

(** The handlers of [handlers.go] and the index that [loadDB] of [db.go]
    builds, as functions on the state the handlers share: the package
    variables [accounts] and [accountsMap].  Both hold pointers to the
    same [card.Account] values, so the state also has the cells the
    pointers point to; a pointer is the position of its cell, and
    [card.NewAccount] allocates the next one.  Every handler that writes
    runs under [accountsMu], so a handler is one step.

    What a handler reads from outside is an argument: the [id] URL
    parameter after [strconv.Atoi] ([None] when it is not a number), the
    request body after [json.Decode] ([None] when decoding fails) with
    its amount after [apd.NewFromString] ([None] when that fails), and
    whether [writeDB] succeeded.  Of the response the status code is
    kept.  [net/http] turns a panic of a handler into an aborted
    response; [Panicked] stands for that. *)

Definition StatusOK : Z := 200.
Definition StatusBadRequest : Z := 400.
Definition StatusNotFound : Z := 404.
Definition StatusConflict : Z := 409.
Definition StatusInternalServerError : Z := 500.

Record Server : Type :=
  { cells : list Account;          (* the accounts the pointers point to *)
    accounts : list nat;           (* []*card.Account *)
    accountsMap : gmap Z nat }.    (* map[int]*card.Account *)

Inductive response : Type :=
| Replied (status : Z)
| Panicked.

(** [updateDB]: 500 when the database file cannot be written, else the
    JSON reply with status 200. *)
Definition updateDB (written : bool) : Z :=
  if written then StatusOK else StatusInternalServerError.

Definition createAccount (s : Server) (body : option Z) (written : bool)
  : Server * response :=
  match body with
  | None => (s, Replied StatusBadRequest)
  | Some id =>
      match accountsMap s !! id with
      | Some _ => (s, Replied StatusConflict)
      | None =>
          let account := length (cells s) in
          ({| cells := cells s ++ [NewAccount id];
              accounts := accounts s ++ [account];
              accountsMap := <[ID (NewAccount id) := account]> (accountsMap s) |},
           Replied (updateDB written))
      end
  end.

(** [getAccountValue]: the account pointer, or the status already written
    to the response. *)
Definition getAccountValue (s : Server) (idParam : option Z) : nat + Z :=
  match idParam with
  | None => inr StatusBadRequest
  | Some id =>
      match accountsMap s !! id with
      | Some account => inl account
      | None => inr StatusNotFound
      end
  end.

(** The tail shared by [load] and [transaction]: the ledger method is
    called on the account the pointer points to, which it updates in
    place; an error is answered with 500, success with [updateDB].  A
    pointer without a cell does not arise in Go; here it is answered like
    a nil dereference. *)
Definition call (s : Server) (account : nat) (method : Account -> Account * outcome)
    (written : bool) : Server * response :=
  match cells s !! account with
  | None => (s, Panicked)
  | Some a =>
      let '(a', out) := method a in
      let s := {| cells := <[account := a']> (cells s);
                  accounts := accounts s;
                  accountsMap := accountsMap s |} in
      match out with
      | Panics => (s, Panicked)
      | Returns (Some _) => (s, Replied StatusInternalServerError)
      | Returns None => (s, Replied (updateDB written))
      end
  end.

Definition load (s : Server) (idParam : option Z) (body : option (option Decimal))
    (written : bool) : Server * response :=
  match getAccountValue s idParam with
  | inr status => (s, Replied status)
  | inl account =>
      match body with
      | None => (s, Replied StatusBadRequest)
      | Some None => (s, Replied StatusBadRequest)
      | Some (Some d) => call s account (fun a => Account_Load a (Some d)) written
      end
  end.

Definition transaction (s : Server) (idParam : option Z)
    (body : option (Z * option Decimal)) (op : Operation) (written : bool)
  : Server * response :=
  match getAccountValue s idParam with
  | inr status => (s, Replied status)
  | inl account =>
      match body with
      | None => (s, Replied StatusBadRequest)
      | Some (_, None) => (s, Replied StatusBadRequest)
      | Some (merchantID, Some d) =>
          match op with
          | Authorize =>
              call s account (fun a => Account_Authorize a merchantID (Some d)) written
          | Capture =>
              call s account (fun a => Account_Capture a merchantID (Some d)) written
          | Reverse =>
              call s account (fun a => Account_Reverse a merchantID (Some d)) written
          | Refund =>
              call s account (fun a => Account_Refund a merchantID (Some d)) written
          | _ => (s, Replied StatusBadRequest)
          end
      end
  end.

Definition authorize s idParam body written := transaction s idParam body Authorize written.
Definition capture s idParam body written := transaction s idParam body Capture written.
Definition reverse s idParam body written := transaction s idParam body Reverse written.
Definition refund s idParam body written := transaction s idParam body Refund written.

(** The [statement] handler: the status and the text written. *)
Definition statement (s : Server) (idParam : option Z) : response * option string :=
  match getAccountValue s idParam with
  | inr status => (Replied status, None)
  | inl account =>
      match cells s !! account with
      | None => (Panicked, None)
      | Some a =>
          match Account_Statement a with
          | None => (Replied StatusInternalServerError, None)
          | Some text => (Replied StatusOK, Some text)
          end
      end
  end.

(** The loop of [loadDB]: [accountsMap[v.ID] = v] for each decoded
    account in turn. *)
Fixpoint index_from (p : nat) (decoded : list Account) (m : gmap Z nat) : gmap Z nat :=
  match decoded with
  | [] => m
  | v :: rest => index_from (S p) rest (<[ID v := p]> m)
  end.

(** [loadDB] on a file that opens and decodes: [None] for a missing or
    empty file, else the decoded accounts.  The accounts are those of a
    file the service wrote: every entry is an account and its balances
    are present.  [json.Decode] also admits a null entry and an account
    without balances, whose cells are nil pointers; such a file is
    outside this function, and only the index, which reads nothing but
    the IDs, is stated for loaded files. *)
Definition loadDB (file : option (list Account)) : Server :=
  match file with
  | None => {| cells := []; accounts := []; accountsMap := ∅ |}
  | Some decoded =>
      {| cells := decoded;
         accounts := seq 0 (length decoded);
         accountsMap := index_from 0 decoded ∅ |}
  end.

(** The routes of [main.go] that write. *)
Inductive Call : Type :=
| POST_accounts (body : option Z) (written : bool)
| POST_load (idParam : option Z) (body : option (option Decimal)) (written : bool)
| POST_authorize (idParam : option Z) (body : option (Z * option Decimal)) (written : bool)
| POST_capture (idParam : option Z) (body : option (Z * option Decimal)) (written : bool)
| POST_reverse (idParam : option Z) (body : option (Z * option Decimal)) (written : bool)
| POST_refund (idParam : option Z) (body : option (Z * option Decimal)) (written : bool).

Definition serve (s : Server) (c : Call) : Server * response :=
  match c with
  | POST_accounts body written => createAccount s body written
  | POST_load idParam body written => load s idParam body written
  | POST_authorize idParam body written => authorize s idParam body written
  | POST_capture idParam body written => capture s idParam body written
  | POST_reverse idParam body written => reverse s idParam body written
  | POST_refund idParam body written => refund s idParam body written
  end.

Definition serve_all (s : Server) (cs : list Call) : Server :=
  fold_left (fun s c => fst (serve s c)) cs s.

(** The account an identifier leads to. *)
Definition account_of (s : Server) (id : Z) : option Account :=
  match accountsMap s !! id with
  | Some account => cells s !! account
  | None => None
  end.

(** The account identifier a call names. *)
Definition addressed (c : Call) : option Z :=
  match c with
  | POST_accounts body _ => body
  | POST_load idParam _ _ | POST_authorize idParam _ _ | POST_capture idParam _ _
  | POST_reverse idParam _ _ | POST_refund idParam _ _ => idParam
  end.

(** The index is right: an identifier leads to an account with that
    identifier, the list and the map hold the same accounts, and no
    account is listed twice. *)
Definition consistent (s : Server) : Prop :=
  (forall id p, accountsMap s !! id = Some p ->
     exists a, cells s !! p = Some a /\ ID a = id) /\
  (forall p, p ∈ accounts s <-> exists id, accountsMap s !! id = Some p) /\
  NoDup (accounts s).

(** The ledger request a call with a well-formed body carries. *)
Definition request_of (c : Call) : option Request :=
  match c with
  | POST_load _ (Some (Some d)) _ =>
      Some {| Request_Op := Load; Request_MerchantID := 0; Request_Amount := Some d |}
  | POST_authorize _ (Some (merchantID, Some d)) _ =>
      Some {| Request_Op := Authorize; Request_MerchantID := merchantID;
              Request_Amount := Some d |}
  | POST_capture _ (Some (merchantID, Some d)) _ =>
      Some {| Request_Op := Capture; Request_MerchantID := merchantID;
              Request_Amount := Some d |}
  | POST_reverse _ (Some (merchantID, Some d)) _ =>
      Some {| Request_Op := Reverse; Request_MerchantID := merchantID;
              Request_Amount := Some d |}
  | POST_refund _ (Some (merchantID, Some d)) _ =>
      Some {| Request_Op := Refund; Request_MerchantID := merchantID;
              Request_Amount := Some d |}
  | _ => None
  end.

(** The ledger requests a sequence of calls makes on account [id]:
    none until a call creates the account, then the request of every
    call with a well-formed body that names it. *)
Definition history_step (id : Z) (h : option (list Request)) (c : Call)
  : option (list Request) :=
  match h with
  | None =>
      match c with
      | POST_accounts (Some id') _ => if decide (id' = id) then Some [] else None
      | _ => None
      end
  | Some rs =>
      if decide (addressed c = Some id)
      then match request_of c with
           | Some r => Some (rs ++ [r])
           | None => Some rs
           end
      else Some rs
  end.

Definition history (id : Z) (cs : list Call) : option (list Request) :=
  fold_left (history_step id) cs None.

(** The account [id] of the server is the one its history [h] gives. *)
Definition tracked (s : Server) (id : Z) (h : option (list Request)) : Prop :=
  match h with
  | None => accountsMap s !! id = None
  | Some rs => account_of s id = Some (after_all (NewAccount id) rs)
  end.

(** Accounts 1 and 2 created on an empty database, 10 loaded to account 1. *)
Definition two_accounts : Server :=
  serve_all (loadDB None)
    [POST_accounts (Some 1) true; POST_accounts (Some 2) true;
     POST_load (Some 1) (Some (Some (New 10 0))) true].

End api.

(** * Properties *)

(** ** The value of the result of a context operation *)
Section DecimalValue.

Lemma gtb_false x y : x <= y -> (x >? y) = false.
Proof. intros H. rewrite Z.gtb_ltb. now apply Z.ltb_ge. Qed.

Lemma ltb_false x y : y <= x -> (x <? y) = false.
Proof. apply Z.ltb_ge. Qed.

Lemma Q2Qc_plus (a b : Q) : (Q2Qc a + Q2Qc b)%Qc = Q2Qc (a + b).
Proof. apply Qc_is_canon. simpl. rewrite !Qred_correct. reflexivity. Qed.

Lemma Q2Qc_minus (a b : Q) : (Q2Qc a - Q2Qc b)%Qc = Q2Qc (a - b).
Proof. apply Qc_is_canon. simpl. rewrite !Qred_correct. reflexivity. Qed.

Lemma Q2Qc_le (a b : Q) : (Q2Qc a <= Q2Qc b)%Qc <-> (a <= b)%Q.
Proof. unfold Qcle. simpl. now rewrite !Qred_correct. Qed.

Lemma Q2Qc_lt (a b : Q) : (Q2Qc a < Q2Qc b)%Qc <-> (a < b)%Q.
Proof. unfold Qclt. simpl. now rewrite !Qred_correct. Qed.

Lemma ten_neq_0 : ~ (10 # 1 == 0)%Q.
Proof. discriminate. Qed.

Lemma ten_pow_pos (e : Z) : (0 < (10 # 1) ^ e)%Q.
Proof. apply Qpower_0_lt. reflexivity. Qed.

(** Trading a factor 10^k of the coefficient for k in the exponent. *)
Lemma scale_value (c k e : Z) :
  0 <= k ->
  (inject_Z (c * 10 ^ k) * (10 # 1) ^ e == inject_Z c * (10 # 1) ^ (k + e))%Q.
Proof.
  intros Hk. rewrite inject_Z_mult, Zpower_Qpower by assumption.
  rewrite Qpower_plus by apply ten_neq_0.
  change (inject_Z 10) with (10 # 1). ring.
Qed.

Lemma sgnZ_mul s (c k : N) : sgnZ s (c * k) = sgnZ s c * Z.of_N k.
Proof. unfold sgnZ. destruct s; rewrite N2Z.inj_mul; ring. Qed.

Lemma sgnZ_xorb_true s c : sgnZ (xorb s true) c = - sgnZ s c.
Proof. unfold sgnZ. destruct s; cbn; lia. Qed.

Lemma sgnZ_exact_div s (c : N) (k : Z) :
  0 <= k -> (c mod 10 ^ Z.to_N k = 0)%N ->
  sgnZ s (c / 10 ^ Z.to_N k) * 10 ^ k = sgnZ s c.
Proof.
  intros Hk Hm.
  assert (Hc : c = (c / 10 ^ Z.to_N k * 10 ^ Z.to_N k)%N).
  { rewrite (N.div_mod c (10 ^ Z.to_N k)) at 1 by (apply N.pow_nonzero; discriminate).
    rewrite Hm. lia. }
  rewrite Hc at 2. rewrite sgnZ_mul, N2Z.inj_pow, Z2N.id by lia. reflexivity.
Qed.

(** [upscale] changes the representation of its operands, not their value. *)
Lemma upscale_value (x y : Decimal) a b s :
  upscale x y = Some (a, b, s) ->
  (inject_Z (sgnZ (Negative x) a) * (10 # 1) ^ s == qvalue x)%Q /\
  (inject_Z (sgnZ (Negative y) b) * (10 # 1) ^ s == qvalue y)%Q.
Proof.
  unfold upscale, qvalue, signed.
  destruct (Z.eqb_spec (Exponent x) (Exponent y)) as [He|He].
  - intros [= <- <- <-]. rewrite He. split; reflexivity.
  - destruct (Z.ltb_spec (Exponent x) (Exponent y)) as [Hlt|Hge];
      destruct (Z.gtb_spec (Exponent y - Exponent x) MaxExponent);
      destruct (Z.gtb_spec (Exponent x - Exponent y) MaxExponent); try discriminate;
      intros [= <- <- <-]; (split; try reflexivity);
      rewrite sgnZ_mul, N2Z.inj_pow, Z2N.id by lia; change (Z.of_N 10) with 10;
      rewrite scale_value by lia;
      match goal with
      | |- (_ * _ ^ ?e1 == _ * _ ^ ?e2)%Q => replace e1 with e2 by lia
      end; reflexivity.
Qed.

Lemma setExponent_cases d xs d' r :
  setExponent d xs = (d', r) ->
  (r = 0%N /\
   d' = {| Negative := Negative d; Exponent := fold_right Z.add 0 xs; Coeff := Coeff d |})
  \/ (d' = d /\ (r = cor SystemOverflow Overflow \/ r = cor SystemUnderflow Underflow)).
Proof.
  unfold setExponent.
  repeat match goal with |- context [if ?b then _ else _] => destruct b end;
    intros [= <- <-]; auto.
Qed.

Lemma Any_cor r s f : Any (cor r s) f = Any r f || Any s f.
Proof.
  unfold Any, cor. rewrite N.land_lor_distr_l.
  destruct (N.eqb_spec (N.land r f) 0) as [->|H1]; cbn.
  - now rewrite N.lor_0_l.
  - apply negb_true_iff, N.eqb_neq. intros H. apply N.lor_eq_0_iff in H. tauto.
Qed.

(** A system condition is an error whatever the traps. *)
Lemma goError_system c r :
  r = cor SystemOverflow Overflow \/ r = cor SystemUnderflow Underflow ->
  forall s, goError c (cor s r) <> None.
Proof.
  intros Hr s. unfold goError. rewrite Any_cor.
  assert (Any r (cor SystemOverflow SystemUnderflow) = true) as ->
      by (destruct Hr as [-> | ->]; reflexivity).
  rewrite orb_true_r. discriminate.
Qed.

Lemma goError_system0 c r :
  r = cor SystemOverflow Overflow \/ r = cor SystemUnderflow Underflow ->
  goError c r <> None.
Proof.
  intros Hr. replace r with (cor 0%N r) by (unfold cor; apply N.lor_0_l).
  now apply goError_system.
Qed.

(** Rounding that succeeds without [Inexact] keeps the value. *)
Lemma round_value c d d' res :
  round c d = (d', res) -> goError c res = None -> Any res Inexact = false ->
  (qvalue d' == qvalue d)%Q.
Proof.
  unfold round.
  destruct (Precision c =? 0).
  { intros H Herr _. apply setExponent_cases in H as [[-> ->] | [-> Hr]].
    - unfold qvalue, signed; cbn. now rewrite Z.add_0_r.
    - now apply goError_system0 in Herr. }
  destruct (negb (Sign d =? 0) && _).
  { destruct (setExponent d [Exponent d]) as [d1 r1] eqn:H. intros [= <- <-] Herr _.
    apply setExponent_cases in H as [[-> ->] | [-> Hr]]; [|reflexivity].
    unfold qvalue, signed; cbn. now rewrite Z.add_0_r. }
  destruct (Z.ltb_spec 0 (NumDigits (Coeff d) - Precision c)) as [Hdiff|Hdiff].
  2:{ intros H Herr _. apply setExponent_cases in H as [[-> ->] | [-> Hr]]; [|reflexivity].
      unfold qvalue, signed; cbn. now rewrite !Z.add_0_r. }
  set (diff := NumDigits (Coeff d) - Precision c) in *.
  destruct (diff >? MaxExponent).
  { intros [= <- <-]. reflexivity. }
  destruct (N.eqb_spec (Coeff d mod 10 ^ Z.to_N diff) 0) as [Hm|Hm].
  - destruct (setExponent _ _) as [d1 r1] eqn:H. intros [= <- <-] Herr _.
    apply setExponent_cases in H as [[-> ->] | [-> Hr]].
    + cbn. unfold qvalue, signed. cbn.
      rewrite Z.add_0_r, (Z.add_comm (Exponent d) diff), <- scale_value by lia.
      rewrite sgnZ_exact_div by (assumption || lia). reflexivity.
    + now apply (goError_system c _ Hr) in Herr.
  - destruct (if (10 ^ Z.to_N diff <=? 2 * (Coeff d mod 10 ^ Z.to_N diff))%N
              then _ else _) as [y' diff'].
    destruct (setExponent _ _) as [d1 r1]. intros [= <- <-] _.
    rewrite !Any_cor. cbn. discriminate.
Qed.

(** The sign and magnitude [add] computes before rounding are those of the
    signed sum. *)
Lemma add_signed_sum (xn yn : bool) (a b : N) s c :
  (if Bool.eqb xn yn then (xn, (a + b)%N)
   else match (a ?= b)%N with
        | Lt => (negb xn, (b - a)%N)
        | Eq => (false, 0%N)
        | Gt => (xn, (a - b)%N)
        end) = (s, c) ->
  sgnZ s c = sgnZ xn a + sgnZ yn b.
Proof.
  unfold sgnZ. destruct xn, yn; cbn;
    try (intros [= <- <-]; lia);
    destruct (N.compare_spec a b); intros [= <- <-]; cbn; lia.
Qed.

(** A successful operation that does not report [Inexact] computes the
    exact sum or difference. *)
Lemma add_qvalue c d x y subtract d' res :
  add c d x y subtract = (d', res, None) -> Any res Inexact = false ->
  (qvalue d' == if subtract then qvalue x - qvalue y else qvalue x + qvalue y)%Q.
Proof.
  unfold add. destruct (upscale x y) as [[[a b] s]|] eqn:Hup; [|discriminate].
  apply upscale_value in Hup as [Hx Hy].
  destruct (if Bool.eqb _ _ then _ else _) as [sg coeff] eqn:Hsum.
  destruct (round c _) as [d1 r1] eqn:Hr. intros [= <- <- Herr] Hin.
  rewrite (round_value _ _ _ _ Hr Herr Hin).
  apply add_signed_sum in Hsum.
  symmetry in Hx, Hy.
  destruct subtract; rewrite Hx, Hy;
    unfold qvalue at 1, signed; cbn; rewrite Hsum, inject_Z_plus.
  - rewrite sgnZ_xorb_true, inject_Z_opp. ring.
  - rewrite xorb_false_r. ring.
Qed.

Lemma Add_value c d x y d' res :
  Add c d x y = (d', res, None) -> Any res Inexact = false ->
  dvalue d' = (dvalue x + dvalue y)%Qc.
Proof.
  intros H Hin. unfold dvalue. rewrite Q2Qc_plus. apply Q2Qc_eq_iff.
  exact (add_qvalue _ _ _ _ false _ _ H Hin).
Qed.

Lemma Sub_value c d x y d' res :
  Sub c d x y = (d', res, None) -> Any res Inexact = false ->
  dvalue d' = (dvalue x - dvalue y)%Qc.
Proof.
  intros H Hin. unfold dvalue. rewrite Q2Qc_minus. apply Q2Qc_eq_iff.
  exact (add_qvalue _ _ _ _ true _ _ H Hin).
Qed.

(** [Cmp] orders decimals by value. *)
Lemma qvalue_at_min (x y : Decimal) :
  let s := Z.min (Exponent x) (Exponent y) in
  (qvalue x == inject_Z (signed x * 10 ^ (Exponent x - s)) * (10 # 1) ^ s)%Q.
Proof.
  intros s. rewrite scale_value by lia. unfold qvalue.
  replace (Exponent x - s + s) with (Exponent x) by lia. reflexivity.
Qed.

Lemma Cmp_lt (x y : Decimal) : Cmp x y < 0 <-> (dvalue x < dvalue y)%Qc.
Proof.
  unfold dvalue. rewrite Q2Qc_lt.
  rewrite (qvalue_at_min x y), (qvalue_at_min y x), (Z.min_comm (Exponent y)).
  rewrite Qmult_lt_r by apply ten_pow_pos. rewrite <- Zlt_Qlt.
  unfold Cmp.
  destruct (Z.compare_spec
              (signed x * 10 ^ (Exponent x - Z.min (Exponent x) (Exponent y)))
              (signed y * 10 ^ (Exponent y - Z.min (Exponent x) (Exponent y)))); lia.
Qed.

Lemma Cmp_eq (x y : Decimal) : Cmp x y = 0 <-> dvalue x = dvalue y.
Proof.
  unfold dvalue. rewrite Q2Qc_eq_iff.
  rewrite (qvalue_at_min x y), (qvalue_at_min y x), (Z.min_comm (Exponent y)).
  assert (Hp := ten_pow_pos (Z.min (Exponent x) (Exponent y))).
  split.
  - unfold Cmp.
    destruct (Z.compare_spec
                (signed x * 10 ^ (Exponent x - Z.min (Exponent x) (Exponent y)))
                (signed y * 10 ^ (Exponent y - Z.min (Exponent x) (Exponent y))))
      as [->| |]; try lia.
    reflexivity.
  - intros H. apply Qmult_inj_r in H; [|intros E; rewrite E in Hp; discriminate].
    apply (proj1 (inject_Z_injective _ _)) in H.
    unfold Cmp. rewrite H, Z.compare_refl. reflexivity.
Qed.

Lemma Cmp_ge (x y : Decimal) : (Cmp x y <? 0) = false <-> (dvalue y <= dvalue x)%Qc.
Proof.
  rewrite Z.ltb_ge, <- Z.nlt_ge, Cmp_lt.
  split; [apply Qcnot_lt_le | apply Qcle_not_lt].
Qed.

Lemma dvalue_nonneg (d : Decimal) : 0 <= signed d <-> (0 <= dvalue d)%Qc.
Proof.
  unfold dvalue. change 0%Qc with (Q2Qc 0). rewrite Q2Qc_le. unfold qvalue.
  assert (Hp := ten_pow_pos (Exponent d)).
  rewrite (Zle_Qle 0 (signed d)).
  rewrite <- (Qmult_le_r (inject_Z 0) (inject_Z (signed d)) _ Hp).
  change (inject_Z 0) with 0%Q. rewrite Qmult_0_l. reflexivity.
Qed.

Lemma dvalue_zero : dvalue (New 0 0) = 0%Qc.
Proof. apply Qc_is_canon. reflexivity. Qed.

End DecimalValue.

(** ** Digits, and results that need no rounding *)
Section Digits.

Lemma pos_lt_pow2_size (p : positive) : Z.pos p < 2 ^ Z.of_nat (Pos.size_nat p).
Proof.
  induction p as [p IH|p IH|]; cbn [Pos.size_nat];
    rewrite ?Nat2Z.inj_succ, ?Z.pow_succ_r by lia; lia.
Qed.

Lemma digits_from_pos fuel c : 1 <= digits_from fuel c.
Proof.
  revert c. induction fuel as [|fuel IH]; intros c; cbn [digits_from]; [lia|].
  destruct (c <? 10)%N; [lia|]. specialize (IH (c / 10)%N). lia.
Qed.

(** The fuel of [NumDigits] is enough: the result is the number of decimal
    digits. *)
Lemma digits_from_spec fuel : forall c : N,
  (0 < c)%N -> Z.of_N c < 2 ^ Z.of_nat fuel ->
  10 ^ (digits_from fuel c - 1) <= Z.of_N c < 10 ^ digits_from fuel c.
Proof.
  induction fuel as [|fuel IH]; intros c Hc Hlt.
  - cbn in Hlt. lia.
  - cbn [digits_from]. destruct (N.ltb_spec c 10) as [H10|H10].
    + cbn. lia.
    + rewrite Nat2Z.inj_succ, Z.pow_succ_r in Hlt by lia.
      assert (Hdiv : Z.of_N (c / 10) = Z.of_N c / 10) by apply N2Z.inj_div.
      assert (Hc10 : 10 <= Z.of_N c) by lia.
      assert (Hq : (0 < c / 10)%N) by (apply N.div_str_pos; lia).
      assert (Hlt' : Z.of_N (c / 10) < 2 ^ Z.of_nat fuel).
      { rewrite Hdiv. apply Z.div_lt_upper_bound; lia. }
      specialize (IH (c / 10)%N Hq Hlt').
      rewrite Hdiv in IH.
      pose proof (Z.div_mod (Z.of_N c) 10 ltac:(lia)) as Hdm.
      pose proof (Z.mod_pos_bound (Z.of_N c) 10 ltac:(lia)) as Hm.
      pose proof (digits_from_pos fuel (c / 10)%N) as Hd.
      replace (1 + digits_from fuel (c / 10)%N - 1)
        with (Z.succ (digits_from fuel (c / 10)%N - 1)) by lia.
      replace (1 + digits_from fuel (c / 10)%N)
        with (Z.succ (digits_from fuel (c / 10)%N)) by lia.
      rewrite !Z.pow_succ_r by lia. lia.
Qed.

Lemma NumDigits_spec (c : N) :
  (0 < c)%N -> 10 ^ (NumDigits c - 1) <= Z.of_N c < 10 ^ NumDigits c.
Proof.
  intros Hc. apply digits_from_spec; [assumption|].
  destruct c as [|p]; [lia|]. apply pos_lt_pow2_size.
Qed.

Lemma NumDigits_fits (c : N) : Z.of_N c < 10 ^ 16 -> NumDigits c <= 16.
Proof.
  intros H. destruct (N.eq_dec c 0%N) as [->|Hc]; [discriminate|].
  destruct (NumDigits_spec c ltac:(lia)) as [Hlo _].
  destruct (Z_le_gt_dec (NumDigits c) 16) as [|Hgt]; [assumption|].
  assert (10 ^ 16 <= 10 ^ (NumDigits c - 1)) by (apply Z.pow_le_mono_r; lia).
  lia.
Qed.

(** A result of at most 16 digits is not rounded, so it is never inexact. *)
Lemma round_fits_exact (d : Decimal) :
  Z.of_N (Coeff d) < 10 ^ 16 -> Any (snd (round getContext d)) Inexact = false.
Proof.
  intros H. apply NumDigits_fits in H. unfold round.
  change (Precision getContext) with 16. change (16 =? 0) with false. cbv iota.
  destruct (negb (Sign d =? 0) && _).
  { destruct (setExponent d [Exponent d]) as [d1 r1] eqn:Hs. cbn [snd].
    apply setExponent_cases in Hs as [[-> _] | [_ [-> | ->]]]; reflexivity. }
  rewrite (ltb_false 0 (NumDigits (Coeff d) - 16)) by lia.
  destruct (setExponent d [Exponent d; 0]) as [d1 r1] eqn:Hs. cbn [snd].
  apply setExponent_cases in Hs as [[-> _] | [_ [-> | ->]]]; reflexivity.
Qed.

(** Amounts of one exponent (cents, say): the sum or difference is exact
    as long as it has at most 16 digits. *)
Lemma same_exponent_exact (d x y : Decimal) (subtract : bool) :
  Exponent x = Exponent y ->
  Z.abs (if subtract then signed x - signed y else signed x + signed y) < 10 ^ 16 ->
  exact (add getContext d x y subtract) = true.
Proof.
  intros He Hfit. unfold exact, add, upscale. rewrite He, Z.eqb_refl.
  destruct (if Bool.eqb _ _ then _ else _) as [sg coeff] eqn:Hsum.
  apply add_signed_sum in Hsum.
  assert (Hc : Z.of_N coeff < 10 ^ 16).
  { fold (signed x) in Hsum.
    assert (Hy : sgnZ (xorb (Negative y) subtract) (Coeff y)
                 = if subtract then - signed y else signed y).
    { destruct subtract; [apply sgnZ_xorb_true | now rewrite xorb_false_r]. }
    rewrite Hy in Hsum. unfold sgnZ in Hsum at 1.
    destruct sg, subtract; lia. }
  pose proof (round_fits_exact {| Negative := sg; Exponent := Exponent y; Coeff := coeff |} Hc)
    as Hr.
  destruct (round getContext _) as [d1 r1]. cbn [fst snd] in *. now rewrite Hr.
Qed.

End Digits.

(** ** What a successful call did *)

Ltac fields :=
  cbn [set_Available set_Blocked set_Merchant append_Transaction
       ID Available Blocked Merchants Transactions
       Merchant_Available Merchant_Captured] in *.

Ltac arith_case :=
  match goal with
  | |- context [Sub ?c ?d ?x ?y] =>
      let e := fresh "err" in
      destruct (Sub c d x y) as [[? ?] [e|]] eqn:?; fields; [discriminate|]
  | |- context [Add ?c ?d ?x ?y] =>
      let e := fresh "err" in
      destruct (Add c d x y) as [[? ?] [e|]] eqn:?; fields; [discriminate|]
  end.

Lemma Load_success a amount a' :
  Account_Load a (Some amount) = (a', Returns None) ->
  exists d r,
    Add getContext (Available a) (Available a) amount = (d, r, None) /\
    a' = append_Transaction (set_Available a d)
           {| Type_ := Load; MerchantID := None; Amount := amount |}.
Proof.
  unfold Account_Load. arith_case. intros [= <-]. eauto.
Qed.

Lemma Authorize_success a id amount a' :
  Account_Authorize a id (Some amount) = (a', Returns None) ->
  exists d1 r1 d2 r2 d3 r3,
    (Cmp (Available a) amount <? 0) = false /\
    Sub getContext (Available a) (Available a) amount = (d1, r1, None) /\
    Add getContext (Blocked a) (Blocked a) amount = (d2, r2, None) /\
    Add getContext (hold a id) (hold a id) amount = (d3, r3, None) /\
    a' = {| ID := ID a; Available := d1; Blocked := d2;
            Merchants := <[id := {| Merchant_Available := d3;
                                    Merchant_Captured := captured a id |}]> (Merchants a);
            Transactions := Transactions a ++
              [{| Type_ := Authorize; MerchantID := Some id; Amount := amount |}] |}.
Proof.
  unfold Account_Authorize, hold, captured.
  destruct (Cmp (Available a) amount <? 0) eqn:Hcmp; [discriminate|].
  cbv zeta. do 2 arith_case.
  destruct (Merchants a !! id) as [m|] eqn:Hm; fields; arith_case; intros [= <-].
  - do 6 eexists. repeat split; eauto.
  - do 6 eexists. repeat split; eauto. 
    unfold append_Transaction, set_Merchant; fields. now rewrite insert_insert_eq.
Qed.

Lemma Capture_success a id amount a' :
  Account_Capture a id (Some amount) = (a', Returns None) ->
  exists m d1 r1 d2 r2 d3 r3,
    Merchants a !! id = Some m /\
    (Cmp (Merchant_Available m) amount <? 0) = false /\
    Sub getContext (Merchant_Available m) (Merchant_Available m) amount = (d1, r1, None) /\
    Add getContext (Merchant_Captured m) (Merchant_Captured m) amount = (d2, r2, None) /\
    Sub getContext (Blocked a) (Blocked a) amount = (d3, r3, None) /\
    a' = {| ID := ID a; Available := Available a; Blocked := d3;
            Merchants := <[id := {| Merchant_Available := d1;
                                    Merchant_Captured := d2 |}]> (Merchants a);
            Transactions := Transactions a ++
              [{| Type_ := Capture; MerchantID := Some id; Amount := amount |}] |}.
Proof.
  unfold Account_Capture.
  destruct (Merchants a !! id) as [m|] eqn:Hm; [|discriminate].
  destruct (Cmp (Merchant_Available m) amount <? 0) eqn:Hcmp; [discriminate|].
  cbv zeta. do 3 arith_case. intros [= <-].
  do 7 eexists. repeat split; eauto.
  unfold append_Transaction, set_Merchant; fields. now rewrite insert_insert_eq.
Qed.

Lemma Reverse_success a id amount a' :
  Account_Reverse a id (Some amount) = (a', Returns None) ->
  exists m d1 r1 d2 r2 d3 r3,
    Merchants a !! id = Some m /\
    (Cmp (Merchant_Available m) amount <? 0) = false /\
    Sub getContext (Merchant_Available m) (Merchant_Available m) amount = (d1, r1, None) /\
    Sub getContext (Blocked a) (Blocked a) amount = (d2, r2, None) /\
    Add getContext (Available a) (Available a) amount = (d3, r3, None) /\
    a' = {| ID := ID a; Available := d3; Blocked := d2;
            Merchants := <[id := {| Merchant_Available := d1;
                                    Merchant_Captured := Merchant_Captured m |}]> (Merchants a);
            Transactions := Transactions a ++
              [{| Type_ := Reverse; MerchantID := Some id; Amount := amount |}] |}.
Proof.
  unfold Account_Reverse.
  destruct (Merchants a !! id) as [m|] eqn:Hm; [|discriminate].
  destruct (Cmp (Merchant_Available m) amount <? 0) eqn:Hcmp; [discriminate|].
  cbv zeta. do 3 arith_case. intros [= <-].
  do 7 eexists. repeat split; eauto.
Qed.

Lemma Refund_success a id amount a' :
  Account_Refund a id (Some amount) = (a', Returns None) ->
  exists m d1 r1 d2 r2,
    Merchants a !! id = Some m /\
    (Cmp (Merchant_Captured m) amount <? 0) = false /\
    Sub getContext (Merchant_Captured m) (Merchant_Captured m) amount = (d1, r1, None) /\
    Add getContext (Available a) (Available a) amount = (d2, r2, None) /\
    a' = {| ID := ID a; Available := d2; Blocked := Blocked a;
            Merchants := <[id := {| Merchant_Available := Merchant_Available m;
                                    Merchant_Captured := d1 |}]> (Merchants a);
            Transactions := Transactions a ++
              [{| Type_ := Refund; MerchantID := Some id; Amount := amount |}] |}.
Proof.
  unfold Account_Refund.
  destruct (Merchants a !! id) as [m|] eqn:Hm; [|discriminate].
  destruct (Cmp (Merchant_Captured m) amount <? 0) eqn:Hcmp; [discriminate|].
  cbv zeta. do 2 arith_case. intros [= <-].
  do 5 eexists. repeat split; eauto.
Qed.

(** *** The sum of the holds *)

Lemma held_of_insert_fresh (M : gmap Z Merchant) id m :
  M !! id = None ->
  held_of (<[id := m]> M) = (dvalue (Merchant_Available m) + held_of M)%Qc.
Proof.
  intros H. unfold held_of.
  rewrite (map_fold_insert_L (fun _ m acc => (dvalue (Merchant_Available m) + acc)%Qc));
    [reflexivity| |assumption].
  intros. ring.
Qed.

Lemma held_of_insert (M : gmap Z Merchant) id m0 m :
  M !! id = Some m0 ->
  held_of (<[id := m]> M) =
  (held_of M - dvalue (Merchant_Available m0) + dvalue (Merchant_Available m))%Qc.
Proof.
  intros H.
  rewrite <- (insert_delete_eq M id m).
  rewrite <- (insert_id M id m0 H) at 2.
  rewrite <- (insert_delete_eq M id m0).
  rewrite !held_of_insert_fresh by apply lookup_delete_eq. ring.
Qed.

Lemma held_of_nonneg (M : gmap Z Merchant) :
  (forall id m, M !! id = Some m -> (0 <= dvalue (Merchant_Available m))%Qc) ->
  (0 <= held_of M)%Qc.
Proof.
  induction M as [|id m M Hid IH] using map_ind; intros H.
  - unfold held_of. rewrite map_fold_empty. apply Qcle_refl.
  - rewrite held_of_insert_fresh by assumption.
    apply Qcplus_nonneg_nonneg.
    + apply (H id). apply lookup_insert_eq.
    + apply IH. intros j mj Hj. apply (H j). rewrite lookup_insert_ne; [assumption|].
      intros ->. congruence.
Qed.

Lemma exact_true d r e : exact (d, r, e) = true -> Any r Inexact = false.
Proof. unfold exact. cbn. now rewrite negb_true_iff. Qed.

Ltac split_exact H :=
  unfold exact_call in H;
  cbn [Request_Amount Request_Op Request_MerchantID] in H; cbv zeta in H;
  unfold hold, captured in H;
  repeat match goal with
    | E : _ !! _ = _ |- _ => rewrite E in H
    end;
  repeat match goal with
    | E : Sub _ _ _ _ = _ |- _ => rewrite E in H
    | E : Add _ _ _ _ = _ |- _ => rewrite E in H
    end;
  repeat (let H' := fresh "Hex" in apply andb_true_iff in H as [H H']; apply exact_true in H');
  apply exact_true in H.

Ltac values :=
  repeat match goal with
    | E : Sub _ _ _ _ = (_, ?r, None), H : Any ?r Inexact = false |- _ =>
        apply (Sub_value _ _ _ _ _ _ E) in H; clear E
    | E : Add _ _ _ _ = (_, ?r, None), H : Any ?r Inexact = false |- _ =>
        apply (Add_value _ _ _ _ _ _ E) in H; clear E
    end.

Lemma Qc_sub_nonneg (x y : Qc) : (y <= x)%Qc -> (0 <= x - y)%Qc.
Proof. intros H. apply Qcle_minus_iff in H. exact H. Qed.

Lemma merchants_nonneg_insert M id m :
  merchants_nonneg M ->
  (0 <= dvalue (Merchant_Available m))%Qc -> (0 <= dvalue (Merchant_Captured m))%Qc ->
  merchants_nonneg (<[id := m]> M).
Proof.
  intros HM Ha Hc j mj. destruct (decide (id = j)) as [->|Hne].
  - rewrite lookup_insert_eq. intros [= <-]. auto.
  - rewrite lookup_insert_ne by assumption. apply HM.
Qed.

Lemma balanced_intro a :
  dvalue (Blocked a) = held_total a ->
  (0 <= dvalue (Available a))%Qc ->
  merchants_nonneg (Merchants a) ->
  balanced a.
Proof.
  intros Hb Ha HM. split; [assumption|]. split; [assumption|]. split; [|exact HM].
  rewrite Hb. apply held_of_nonneg. intros id m Hm. now apply (HM id m).
Qed.

Lemma hold_nonneg a id :
  balanced a -> (0 <= dvalue (hold a id))%Qc /\ (0 <= dvalue (captured a id))%Qc.
Proof.
  intros (_ & _ & _ & HM). unfold hold, captured.
  destruct (Merchants a !! id) as [m|] eqn:Hm.
  - now apply (HM id m).
  - rewrite dvalue_zero. split; apply Qcle_refl.
Qed.

Ltac rewrite_values :=
  repeat match goal with
    | H : dvalue ?d = _ |- _ => is_var d; rewrite !H in *; clear H
    end.

Lemma balanced_step a r a' :
  balanced a -> perform a r = (a', Returns None) ->
  exact_call a r = true -> nonneg_amount r = true -> balanced a'.
Proof.
  intros Hbal Hok Hex Hnn.
  destruct r as [op id [amount|]]; unfold perform in Hok;
    cbn [Request_Amount Request_Op Request_MerchantID] in Hok.
  2:{ destruct op;
      unfold Account_Load, Account_Authorize, Account_Capture, Account_Reverse,
        Account_Refund in Hok; try discriminate Hok;
      destruct (Merchants a !! id); discriminate Hok. }
  unfold nonneg_amount in Hnn. cbn in Hnn. apply Z.leb_le, dvalue_nonneg in Hnn.
  pose proof Hbal as (Hb & Ha & Hbn & HM).
  destruct op.
  - apply Load_success in Hok as (d & r & E & ->).
    split_exact Hex. values.
    apply balanced_intro; fields; try assumption.
    rewrite_values. now apply Qcplus_nonneg_nonneg.
  - apply Authorize_success in Hok
      as (d1 & r1 & d2 & r2 & d3 & r3 & Hcmp & E1 & E2 & E3 & ->).
    apply Cmp_ge in Hcmp.
    destruct (hold_nonneg a id Hbal) as [Hh Hc].
    unfold hold, captured in *.
    destruct (Merchants a !! id) as [m|] eqn:Hm; split_exact Hex; values;
      apply balanced_intro; fields.
    + unfold held_total. fields. rewrite (held_of_insert _ _ _ _ Hm). fields.
      rewrite_values. rewrite Hb. reflexivity || (unfold held_total; ring).
    + rewrite_values. now apply Qc_sub_nonneg.
    + apply merchants_nonneg_insert; fields; try assumption.
      rewrite_values. now apply Qcplus_nonneg_nonneg.
    + unfold held_total. fields. rewrite (held_of_insert_fresh _ _ _ Hm). fields.
      rewrite_values. rewrite Hb, dvalue_zero. unfold held_total. ring.
    + rewrite_values. now apply Qc_sub_nonneg.
    + apply merchants_nonneg_insert; fields; try assumption.
      rewrite_values. now apply Qcplus_nonneg_nonneg.
  - apply Capture_success in Hok
      as (m & d1 & r1 & d2 & r2 & d3 & r3 & Hm & Hcmp & E1 & E2 & E3 & ->).
    apply Cmp_ge in Hcmp. destruct (HM id m Hm) as [Hh Hc].
    split_exact Hex; values. apply balanced_intro; fields; try assumption.
    + unfold held_total. fields. rewrite (held_of_insert _ _ _ _ Hm). fields.
      rewrite_values. rewrite Hb. reflexivity || (unfold held_total; ring).
    + apply merchants_nonneg_insert; fields; try assumption.
      * rewrite_values. now apply Qc_sub_nonneg.
      * rewrite_values. now apply Qcplus_nonneg_nonneg.
  - apply Reverse_success in Hok
      as (m & d1 & r1 & d2 & r2 & d3 & r3 & Hm & Hcmp & E1 & E2 & E3 & ->).
    apply Cmp_ge in Hcmp. destruct (HM id m Hm) as [Hh Hc].
    split_exact Hex; values. apply balanced_intro; fields; try assumption.
    + unfold held_total. fields. rewrite (held_of_insert _ _ _ _ Hm). fields.
      rewrite_values. rewrite Hb. reflexivity || (unfold held_total; ring).
    + rewrite_values. now apply Qcplus_nonneg_nonneg.
    + apply merchants_nonneg_insert; fields; try assumption.
      rewrite_values. now apply Qc_sub_nonneg.
  - apply Refund_success in Hok as (m & d1 & r1 & d2 & r2 & Hm & Hcmp & E1 & E2 & ->).
    apply Cmp_ge in Hcmp. destruct (HM id m Hm) as [Hh Hc].
    split_exact Hex; values. apply balanced_intro; fields; try assumption.
    + unfold held_total. fields. rewrite (held_of_insert _ _ _ _ Hm). fields.
      rewrite Hb. reflexivity || (unfold held_total; ring).
    + rewrite_values. now apply Qcplus_nonneg_nonneg.
    + apply merchants_nonneg_insert; fields; try assumption.
      rewrite_values. now apply Qc_sub_nonneg.
Qed.

(** ** The invariant: blocked is the sum of the holds, nothing is negative *)

Lemma balanced_new id : balanced (NewAccount id).
Proof.
  apply balanced_intro; cbn.
  - unfold held_total, held_of. cbn. rewrite map_fold_empty. apply dvalue_zero.
  - rewrite dvalue_zero. apply Qcle_refl.
  - intros j m Hj. rewrite lookup_empty in Hj. discriminate.
Qed.

Lemma balanced_run rs : forall a a',
  balanced a -> run a rs = Some a' -> exact_run a rs = true ->
  forallb nonneg_amount rs = true -> balanced a'.
Proof.
  induction rs as [|r rs IH]; intros a a' Hbal Hrun Hex Hnn; cbn in *.
  - now injection Hrun as <-.
  - apply andb_true_iff in Hex as [Hex1 Hex2], Hnn as [Hnn1 Hnn2].
    destruct (perform a r) as [a1 [[e|]|]] eqn:Hp; try discriminate.
    apply (IH a1 a'); try assumption.
    now apply (balanced_step a r a1).
Qed.

(** C1, as amended.  For every account reached from a new account by a
    sequence of successful Load, Authorize, Capture, Reverse and Refund
    calls whose amounts are not negative and none of whose additions and
    subtractions is inexact at 16 digits: blocked equals the sum of
    merchant.available over all merchant sub-ledgers, and available,
    blocked and every merchant's available and captured are >= 0. *)
Theorem ledger_invariant (id : Z) (rs : list Request) (a : Account) :
  run (NewAccount id) rs = Some a ->
  exact_run (NewAccount id) rs = true ->
  forallb nonneg_amount rs = true ->
  balanced a.
Proof. intros. eapply balanced_run; eauto using balanced_new. Qed.

Lemma ledger_invariant_witness :
  run (NewAccount 0) statement_calls = Some (after_all (NewAccount 0) statement_calls) /\
  exact_run (NewAccount 0) statement_calls = true /\
  forallb nonneg_amount statement_calls = true /\
  balanced (after_all (NewAccount 0) statement_calls).
Proof.
  split; [vm_compute; reflexivity|]. split; [vm_compute; reflexivity|].
  split; [vm_compute; reflexivity|].
  apply (ledger_invariant 0 statement_calls (after_all (NewAccount 0) statement_calls));
    vm_compute; reflexivity.
Defined.

(** Load accepts a negative amount: one successful call from a new account
    leaves available at -1. *)
Lemma negative_load_breaks_invariant :
  run (NewAccount 0) [req Load 0 (-1) 0] = Some (after (NewAccount 0) (req Load 0 (-1) 0)) /\
  (dvalue (Available (after (NewAccount 0) (req Load 0 (-1) 0))) < 0)%Qc /\
  ~ balanced (after (NewAccount 0) (req Load 0 (-1) 0)).
Proof.
  split; [vm_compute; reflexivity|]. split.
  - vm_compute. reflexivity.
  - intros (_ & H & _). vm_compute in H. apply H. reflexivity.
Qed.

(** The exactness condition is needed too: with amounts that are all
    positive, blocked (rounded to 16 digits) and the sum of the holds part
    ways. *)
Lemma rounding_breaks_blocked_sum :
  run (NewAccount 0) two_holds = Some (after_all (NewAccount 0) two_holds) /\
  forallb nonneg_amount two_holds = true /\
  dvalue (Blocked (after_all (NewAccount 0) two_holds))
  <> held_total (after_all (NewAccount 0) two_holds).
Proof.
  split; [vm_compute; reflexivity|]. split; [reflexivity|].
  intros H. apply (f_equal this) in H. vm_compute in H. discriminate H.
Qed.

(** ** Calls that return an error *)

(** The errors of the decimal context are not the ledger's own. *)
Lemma add_error c d x y subtract d' r e :
  add c d x y subtract = (d', r, Some e) ->
  e <> ErrUnderflow /\ Cause e <> ErrMerchantNotFound.
Proof.
  unfold add. destruct (upscale x y) as [[[p q] s]|].
  - destruct (if Bool.eqb _ _ then _ else _) as [sg coeff].
    destruct (round c _) as [d1 r1]. intros [= _ _ He]. revert He.
    unfold goError. repeat destruct (Any _ _); intros [= <-]; split; discriminate.
  - intros [= _ _ <-]. split; discriminate.
Qed.

Ltac arith_not_own He :=
  match goal with
  | |- context [Sub ?c ?d ?x ?y] =>
      let e := fresh "err" in let E := fresh "E" in
      destruct (Sub c d x y) as [[? ?] [e|]] eqn:E; fields;
      [apply add_error in E as [? ?]; intros [= <- <-]; destruct He; congruence|]
  | |- context [Add ?c ?d ?x ?y] =>
      let e := fresh "err" in let E := fresh "E" in
      destruct (Add c d x y) as [[? ?] [e|]] eqn:E; fields;
      [apply add_error in E as [? ?]; intros [= <- <-]; destruct He; congruence|]
  end.

(** A call that returns one of the ledger's own errors (ErrUnderflow, or
    ErrMerchantNotFound under its wrapper) has changed nothing: the
    precondition checks come before the first assignment. *)
Lemma precondition_failure_unchanged (a : Account) (r : Request) (a' : Account) (e : error) :
  perform a r = (a', Returns (Some e)) ->
  e = ErrUnderflow \/ Cause e = ErrMerchantNotFound ->
  a' = a.
Proof.
  intros Hp He. revert Hp. destruct r as [op id [amount|]]; unfold perform;
    cbn [Request_Op Request_MerchantID Request_Amount].
  2:{ destruct op; unfold Account_Load, Account_Authorize, Account_Capture,
        Account_Reverse, Account_Refund; try discriminate;
      destruct (Merchants a !! id); intros [= <-]; reflexivity || discriminate. }
  destruct op; unfold Account_Load, Account_Authorize, Account_Capture,
    Account_Reverse, Account_Refund.
  - arith_not_own He. discriminate.
  - destruct (Cmp (Available a) amount <? 0); [now intros [= <-]|]. cbv zeta.
    do 2 arith_not_own He.
    destruct (Merchants a !! id); fields; arith_not_own He; discriminate.
  - destruct (Merchants a !! id) as [m|]; [|now intros [= <-]].
    destruct (Cmp (Merchant_Available m) amount <? 0); [now intros [= <-]|]. cbv zeta.
    do 3 arith_not_own He. discriminate.
  - destruct (Merchants a !! id) as [m|]; [|now intros [= <-]].
    destruct (Cmp (Merchant_Available m) amount <? 0); [now intros [= <-]|]. cbv zeta.
    do 3 arith_not_own He. discriminate.
  - destruct (Merchants a !! id) as [m|]; [|now intros [= <-]].
    destruct (Cmp (Merchant_Captured m) amount <? 0); [now intros [= <-]|]. cbv zeta.
    do 2 arith_not_own He. discriminate.
Qed.

(** *** Zeros of different exponents

    A zero amount written with exponent -100000 is accepted like any
    other amount; adding it to a zero balance leaves a zero balance whose
    exponent is -100000.  The coefficient 0 * 10^100000 that [upscale]
    forms on the way is not evaluated here. *)

Lemma Cmp_zero_zero e1 e2 : Cmp (zero_at e1) (zero_at e2) = 0.
Proof.
  unfold Cmp, zero_at, signed, sgnZ. cbn [Negative Exponent Coeff Z.of_N].
  rewrite !Z.mul_0_l. reflexivity.
Qed.

Lemma add_zero_zero d e1 e2 subtract :
  MinExponent <= e2 -> e2 <= e1 -> e1 - e2 <= MaxExponent -> e2 <= MaxExponent ->
  add getContext d (zero_at e1) (zero_at e2) subtract = (zero_at e2, 0%N, None).
Proof.
  intros H1 H2 H3 H4. unfold add.
  assert (Hup : upscale (zero_at e1) (zero_at e2) = Some (0%N, 0%N, e2)).
  { unfold upscale, zero_at. cbn [Negative Exponent Coeff].
    destruct (Z.eqb_spec e1 e2) as [->|Hne]; [reflexivity|].
    rewrite (ltb_false e1 e2) by lia. cbv beta iota zeta.
    cbn [Negative Exponent Coeff].
    rewrite (gtb_false (e1 - e2)) by lia. now rewrite N.mul_0_l. }
  rewrite Hup. unfold zero_at. cbn [Negative].
  assert (Hsum : (if Bool.eqb false (xorb false subtract) then (false, (0 + 0)%N)
                  else match (0 ?= 0)%N with
                       | Lt => (negb false, (0 - 0)%N)
                       | Eq => (false, 0%N)
                       | Gt => (false, (0 - 0)%N)
                       end) = (false, 0%N)) by (destruct subtract; reflexivity).
  rewrite Hsum.
  change (round getContext {| Negative := false; Exponent := e2; Coeff := 0 |})
    with (setExponent {| Negative := false; Exponent := e2; Coeff := 0 |} [e2; 0]).
  unfold setExponent. cbn [existsb fold_right Coeff Negative].
  change (NumDigits 0) with 1.
  rewrite (gtb_false e2), (gtb_false 0), (ltb_false e2), (ltb_false 0)
    by (unfold MinExponent, MaxExponent in *; lia).
  cbn [orb].
  rewrite (gtb_false (e2 + 0 + 1 - 1)), (ltb_false (e2 + 0 + 1 - 1))
    by (unfold MinExponent, MaxExponent in *; lia).
  rewrite Z.add_0_r. reflexivity.
Qed.

Lemma capture_zero_drifts :
  perform opened (req Capture 1 0 (-100000)) = (drifted0, Returns None).
Proof.
  unfold perform, req, opened. cbn [Request_Op Request_MerchantID Request_Amount].
  unfold Account_Capture. cbn [Merchants]. rewrite lookup_singleton_eq.
  cbn [Merchant_Available Merchant_Captured].
  change (New 0 0) with (zero_at 0). change (New 0 (-100000)) with (zero_at (-100000)).
  rewrite Cmp_zero_zero. cbv zeta. change (0 <? 0) with false. cbv iota.
  unfold Sub, Add.
  rewrite add_zero_zero by (unfold MinExponent, MaxExponent; lia).
  fields. rewrite add_zero_zero by (unfold MinExponent, MaxExponent; lia).
  fields. rewrite add_zero_zero by (unfold MinExponent, MaxExponent; lia).
  unfold append_Transaction, set_Blocked, set_Merchant, drifted0. fields.
  rewrite !insert_insert_eq, insert_singleton_eq. reflexivity.
Qed.

(** The account [drifted] is reached from a new account by three
    successful calls. *)
Lemma drifted_reachable :
  run (NewAccount 0)
    [req Authorize 1 0 0; req Capture 1 0 (-100000); req Load 0 20 0] = Some drifted.
Proof.
  assert (H1 : perform (NewAccount 0) (req Authorize 1 0 0) = (opened, Returns None))
    by (vm_compute; reflexivity).
  assert (H3 : perform drifted0 (req Load 0 20 0) = (drifted, Returns None))
    by (vm_compute; reflexivity).
  cbn [run]. rewrite H1, capture_zero_drifts, H3. reflexivity.
Qed.

(** C2.  Authorize of 10 (written 1E+1) for merchant 1 on the account
    [drifted], whose available balance is 20: the subtraction from
    available succeeds and is stored, the addition to blocked then fails
    (the exponents of blocked and of the amount are 100001 apart), and
    the call returns that error with available already down to 10;
    blocked, the merchants and the log are as before. *)
Theorem Authorize_fails_half_done :
  Account_Authorize drifted 1 (Some (New 1 1)) =
    (set_Available drifted (New 10 0),
     Returns (Some (Wrapf ErrExponentOutOfRange "add"))) /\
  Available drifted = New 20 0 /\
  set_Available drifted (New 10 0) <> drifted.
Proof.
  split; [vm_compute; reflexivity|]. split; [reflexivity|].
  intros H. apply (f_equal Available) in H. discriminate H.
Qed.

(** ** The total *)

Lemma perform_nil_amount a op id a' :
  perform a {| Request_Op := op; Request_MerchantID := id; Request_Amount := None |}
  <> (a', Returns None).
Proof.
  unfold perform. cbn [Request_Amount Request_Op Request_MerchantID].
  destruct op;
    unfold Account_Load, Account_Authorize, Account_Capture, Account_Reverse,
      Account_Refund; try discriminate;
    destruct (Merchants a !! id); discriminate.
Qed.

(** [Balance] reports the two balances as they are and their sum through
    the same context: when that addition is exact, the reported total is
    available + blocked. *)
Lemma Balance_total (a : Account) (b : Balance) :
  Account_Balance a = inl b ->
  Balance_Available b = Available a /\ Balance_Blocked b = Blocked a /\
  (exact (Add getContext (New 0 0) (Available a) (Blocked a)) = true ->
   dvalue (Total b) = total a).
Proof.
  unfold Account_Balance.
  destruct (Add getContext (New 0 0) (Available a) (Blocked a)) as [[d r] [e|]] eqn:E;
    [discriminate|].
  intros [= <-]. cbn [Balance_Available Balance_Blocked Total].
  split; [reflexivity|]. split; [reflexivity|].
  intros Hex. apply exact_true in Hex. exact (Add_value _ _ _ _ _ _ E Hex).
Qed.

(** One successful exact call moves the total by the net amount of the
    request. *)
Lemma total_step a r a' :
  perform a r = (a', Returns None) -> exact_call a r = true ->
  total a' = (total a + net_amount r)%Qc.
Proof.
  intros Hok Hex.
  destruct r as [op id [amount|]]; [|now apply perform_nil_amount in Hok].
  unfold perform in Hok. cbn [Request_Amount Request_Op Request_MerchantID] in Hok.
  unfold total, net_amount. cbn [Request_Amount Request_Op].
  destruct op.
  - apply Load_success in Hok as (d & r & E & ->).
    split_exact Hex. values. fields. rewrite_values. ring.
  - apply Authorize_success in Hok
      as (d1 & r1 & d2 & r2 & d3 & r3 & _ & E1 & E2 & E3 & ->).
    unfold hold, captured in *.
    destruct (Merchants a !! id) eqn:Hm; split_exact Hex; values; fields;
      rewrite_values; ring.
  - apply Capture_success in Hok
      as (m & d1 & r1 & d2 & r2 & d3 & r3 & Hm & _ & E1 & E2 & E3 & ->).
    split_exact Hex. values. fields. rewrite_values. ring.
  - apply Reverse_success in Hok
      as (m & d1 & r1 & d2 & r2 & d3 & r3 & Hm & _ & E1 & E2 & E3 & ->).
    split_exact Hex. values. fields. rewrite_values. ring.
  - apply Refund_success in Hok as (m & d1 & r1 & d2 & r2 & Hm & _ & E1 & E2 & ->).
    split_exact Hex. values. fields. rewrite_values. ring.
Qed.

(** C3, as amended.  Over any sequence of successful calls none of whose
    additions and subtractions is inexact at 16 digits, the total
    available + blocked changes by the sum of the Load and Refund amounts
    minus the sum of the Capture amounts; Authorize and Reverse
    contribute nothing.  For a one-call sequence this is the effect of
    each operation on the total; from a new account, whose total is zero,
    it is the total itself. *)
Theorem total_after_run (rs : list Request) : forall (a a' : Account),
  run a rs = Some a' -> exact_run a rs = true ->
  total a' = (total a + net_total rs)%Qc.
Proof.
  induction rs as [|r rs IH]; intros a a' Hrun Hex; cbn [run exact_run] in *.
  - injection Hrun as <-. unfold net_total. cbn [fold_right]. ring.
  - apply andb_true_iff in Hex as [Hex1 Hex2].
    destruct (perform a r) as [a1 [[e|]|]] eqn:Hp; try discriminate.
    change (net_total (r :: rs)) with (net_amount r + net_total rs)%Qc.
    rewrite (IH a1 a' Hrun Hex2), (total_step a r a1 Hp Hex1). ring.
Qed.

Lemma total_after_run_witness :
  run (NewAccount 0) statement_calls = Some (after_all (NewAccount 0) statement_calls) /\
  exact_run (NewAccount 0) statement_calls = true /\
  total (after_all (NewAccount 0) statement_calls) =
    (total (NewAccount 0) + net_total statement_calls)%Qc.
Proof.
  split; [vm_compute; reflexivity|]. split; [vm_compute; reflexivity|].
  apply (total_after_run statement_calls (NewAccount 0)
           (after_all (NewAccount 0) statement_calls)); vm_compute; reflexivity.
Defined.

(** Load of 10000000000000001 (seventeen digits) on a new account succeeds
    and leaves a total of 10000000000000000. *)
Lemma rounded_load_counterexample :
  Account_Load (NewAccount 0) (Some (New 10000000000000001 0)) =
    (after (NewAccount 0) (req Load 0 10000000000000001 0), Returns None) /\
  total (after (NewAccount 0) (req Load 0 10000000000000001 0)) <>
    (total (NewAccount 0) + dvalue (New 10000000000000001 0))%Qc.
Proof.
  split; [vm_compute; reflexivity|].
  intros H. apply (f_equal this) in H. vm_compute in H. discriminate H.
Qed.

(** ** Refund *)

(** C4, as amended.  For every account with a sub-ledger for the
    merchant, a successful Refund leaves the blocked balance and the
    merchant's hold as they were; when neither of its two results is
    inexact at 16 digits, the merchant's captured amount is down by the
    amount and available is up by the amount. *)
Theorem Refund_moves_captured_to_available (a : Account) (id : Z) (amount : Decimal)
    (m : Merchant) (a' : Account) :
  Merchants a !! id = Some m ->
  Account_Refund a id (Some amount) = (a', Returns None) ->
  exists m',
    Merchants a' !! id = Some m' /\
    Blocked a' = Blocked a /\
    Merchant_Available m' = Merchant_Available m /\
    (exact_call a {| Request_Op := Refund; Request_MerchantID := id;
                     Request_Amount := Some amount |} = true ->
     dvalue (Merchant_Captured m') = (dvalue (Merchant_Captured m) - dvalue amount)%Qc /\
     dvalue (Available a') = (dvalue (Available a) + dvalue amount)%Qc).
Proof.
  intros Hm Hok.
  apply Refund_success in Hok as (m0 & d1 & r1 & d2 & r2 & Hm0 & _ & E1 & E2 & ->).
  assert (m0 = m) as -> by congruence. clear Hm0.
  eexists. split; [apply lookup_insert_eq|]. fields.
  split; [reflexivity|]. split; [reflexivity|].
  intros Hex. split_exact Hex. values. auto.
Qed.

Lemma Refund_witness :
  Merchants (after_all (NewAccount 0) captured3) !! 1 =
    Some {| Merchant_Available := New 0 0; Merchant_Captured := New 3 0 |} /\
  Account_Refund (after_all (NewAccount 0) captured3) 1 (Some (New 25 (-1))) =
    (after (after_all (NewAccount 0) captured3) (req Refund 1 25 (-1)), Returns None) /\
  exists m',
    Merchants (after (after_all (NewAccount 0) captured3) (req Refund 1 25 (-1))) !! 1
      = Some m' /\
    Blocked (after (after_all (NewAccount 0) captured3) (req Refund 1 25 (-1)))
      = Blocked (after_all (NewAccount 0) captured3) /\
    Merchant_Available m' = New 0 0 /\
    dvalue (Merchant_Captured m') = (dvalue (New 3 0) - dvalue (New 25 (-1)))%Qc /\
    dvalue (Available (after (after_all (NewAccount 0) captured3) (req Refund 1 25 (-1))))
      = (dvalue (Available (after_all (NewAccount 0) captured3)) + dvalue (New 25 (-1)))%Qc.
Proof.
  split; [vm_compute; reflexivity|]. split; [vm_compute; reflexivity|].
  destruct (Refund_moves_captured_to_available
              (after_all (NewAccount 0) captured3) 1 (New 25 (-1))
              {| Merchant_Available := New 0 0; Merchant_Captured := New 3 0 |}
              (after (after_all (NewAccount 0) captured3) (req Refund 1 25 (-1))))
    as (m' & H1 & H2 & H3 & H4); [vm_compute; reflexivity | vm_compute; reflexivity |].
  exists m'. repeat split; try assumption; apply H4; vm_compute; reflexivity.
Defined.

(** Available is 9999999999999999 and merchant 1 has captured 1; a Refund
    of 0.6 succeeds, takes 0.6 off captured and puts 1 on available. *)
Lemma rounded_refund_counterexample :
  run (NewAccount 0) sixteen_nines = Some (after_all (NewAccount 0) sixteen_nines) /\
  Merchants (after_all (NewAccount 0) sixteen_nines) !! 1 =
    Some {| Merchant_Available := New 0 0; Merchant_Captured := New 1 0 |} /\
  (dvalue (New 6 (-1)) <= dvalue (New 1 0))%Qc /\
  Account_Refund (after_all (NewAccount 0) sixteen_nines) 1 (Some (New 6 (-1))) =
    (after (after_all (NewAccount 0) sixteen_nines) (req Refund 1 6 (-1)), Returns None) /\
  dvalue (Available (after (after_all (NewAccount 0) sixteen_nines) (req Refund 1 6 (-1))))
  <> (dvalue (Available (after_all (NewAccount 0) sixteen_nines)) + dvalue (New 6 (-1)))%Qc.
Proof.
  split; [vm_compute; reflexivity|]. split; [vm_compute; reflexivity|].
  split; [vm_compute; discriminate|]. split; [vm_compute; reflexivity|].
  intros H. apply (f_equal this) in H. vm_compute in H. discriminate H.
Qed.

(** ** ErrUnderflow, and amounts that use up a balance *)

Lemma sgnZ_zero s c : sgnZ s c = 0 -> c = 0%N.
Proof. unfold sgnZ. destruct s; lia. Qed.

(** Subtracting a decimal of the same value leaves a zero coefficient:
    nothing is rounded. *)
Lemma Sub_equal_zero d x y d' r :
  dvalue x = dvalue y -> Sub getContext d x y = (d', r, None) -> Coeff d' = 0%N.
Proof.
  intros Hv. unfold Sub, add.
  destruct (upscale x y) as [[[p q] s]|] eqn:Hup; [|discriminate].
  apply upscale_value in Hup as [Hx Hy].
  apply Q2Qc_eq_iff in Hv. rewrite <- Hx, <- Hy in Hv.
  apply Qmult_inj_r in Hv;
    [|intros E; pose proof (ten_pow_pos s) as Hp; rewrite E in Hp; discriminate].
  apply (proj1 (inject_Z_injective _ _)) in Hv.
  destruct (if Bool.eqb _ _ then _ else _) as [sg coeff] eqn:Hsum.
  apply add_signed_sum in Hsum. rewrite sgnZ_xorb_true, Hv in Hsum.
  assert (coeff = 0%N) as -> by (apply (sgnZ_zero sg); lia).
  change (round getContext {| Negative := sg; Exponent := s; Coeff := 0 |})
    with (setExponent {| Negative := sg; Exponent := s; Coeff := 0 |} [s; 0]).
  destruct (setExponent _ _) as [d1 r1] eqn:Hs. intros [= <- <- Herr].
  apply setExponent_cases in Hs as [[_ ->] | [-> _]]; reflexivity.
Qed.

Lemma zero_coeff_value d : Coeff d = 0%N -> dvalue d = 0%Qc.
Proof.
  intros H. unfold dvalue. change 0%Qc with (Q2Qc 0). apply Q2Qc_eq_iff.
  unfold qvalue, signed, sgnZ. rewrite H.
  destruct (Negative d); cbn [Z.of_N Z.opp]; change (inject_Z 0) with 0%Q;
    apply Qmult_0_l.
Qed.

Ltac arith_fail :=
  match goal with
  | |- context [Sub ?c ?d ?x ?y] =>
      let e := fresh "err" in let E := fresh "E" in
      destruct (Sub c d x y) as [[? ?] [e|]] eqn:E; fields;
      [apply add_error in E as [E _]; cbn [snd]; congruence|]
  | |- context [Add ?c ?d ?x ?y] =>
      let e := fresh "err" in let E := fresh "E" in
      destruct (Add c d x y) as [[? ?] [e|]] eqn:E; fields;
      [apply add_error in E as [E _]; cbn [snd]; congruence|]
  end.

Lemma Authorize_underflow a id amount :
  snd (Account_Authorize a id (Some amount)) = Returns (Some ErrUnderflow) <->
  (dvalue (Available a) < dvalue amount)%Qc.
Proof.
  rewrite <- Cmp_lt, <- Z.ltb_lt. unfold Account_Authorize.
  destruct (Cmp (Available a) amount <? 0); [tauto|].
  split; [|discriminate]. cbv zeta. do 2 arith_fail.
  destruct (Merchants a !! id); fields; arith_fail; discriminate.
Qed.

Lemma Capture_underflow a id amount :
  snd (Account_Capture a id (Some amount)) = Returns (Some ErrUnderflow) <->
  exists m, Merchants a !! id = Some m /\
            (dvalue (Merchant_Available m) < dvalue amount)%Qc.
Proof.
  unfold Account_Capture. destruct (Merchants a !! id) as [m|].
  2:{ split; [discriminate|]. intros (m & [=] & _). }
  transitivity ((Cmp (Merchant_Available m) amount <? 0) = true).
  2:{ rewrite Z.ltb_lt, Cmp_lt. split; [eauto|]. now intros (m' & [= <-] & H). }
  destruct (Cmp (Merchant_Available m) amount <? 0); [tauto|].
  split; [|discriminate]. cbv zeta. do 3 arith_fail. discriminate.
Qed.

Lemma Reverse_underflow a id amount :
  snd (Account_Reverse a id (Some amount)) = Returns (Some ErrUnderflow) <->
  exists m, Merchants a !! id = Some m /\
            (dvalue (Merchant_Available m) < dvalue amount)%Qc.
Proof.
  unfold Account_Reverse. destruct (Merchants a !! id) as [m|].
  2:{ split; [discriminate|]. intros (m & [=] & _). }
  transitivity ((Cmp (Merchant_Available m) amount <? 0) = true).
  2:{ rewrite Z.ltb_lt, Cmp_lt. split; [eauto|]. now intros (m' & [= <-] & H). }
  destruct (Cmp (Merchant_Available m) amount <? 0); [tauto|].
  split; [|discriminate]. cbv zeta. do 3 arith_fail. discriminate.
Qed.

Lemma Refund_underflow a id amount :
  snd (Account_Refund a id (Some amount)) = Returns (Some ErrUnderflow) <->
  exists m, Merchants a !! id = Some m /\
            (dvalue (Merchant_Captured m) < dvalue amount)%Qc.
Proof.
  unfold Account_Refund. destruct (Merchants a !! id) as [m|].
  2:{ split; [discriminate|]. intros (m & [=] & _). }
  transitivity ((Cmp (Merchant_Captured m) amount <? 0) = true).
  2:{ rewrite Z.ltb_lt, Cmp_lt. split; [eauto|]. now intros (m' & [= <-] & H). }
  destruct (Cmp (Merchant_Captured m) amount <? 0); [tauto|].
  split; [|discriminate]. cbv zeta. do 2 arith_fail. discriminate.
Qed.

Lemma refund_zero_drifts :
  perform held10 (req Refund 1 0 (-100000)) = (held10_drifted, Returns None).
Proof.
  unfold perform, req, held10. cbn [Request_Op Request_MerchantID Request_Amount].
  unfold Account_Refund. cbn [Merchants]. rewrite lookup_singleton_eq.
  cbn [Merchant_Available Merchant_Captured].
  change (New 0 0) with (zero_at 0). change (New 0 (-100000)) with (zero_at (-100000)).
  rewrite Cmp_zero_zero. cbv zeta. change (0 <? 0) with false. cbv iota.
  unfold Sub, Add.
  rewrite add_zero_zero by (unfold MinExponent, MaxExponent; lia).
  fields. rewrite add_zero_zero by (unfold MinExponent, MaxExponent; lia).
  unfold append_Transaction, set_Available, set_Merchant, held10_drifted. fields.
  rewrite insert_singleton_eq. reflexivity.
Qed.

(** The account [held10_drifted] is reached from a new account by three
    successful calls. *)
Lemma held10_drifted_reachable :
  run (NewAccount 0)
    [req Load 0 10 0; req Authorize 1 10 0; req Refund 1 0 (-100000)]
  = Some held10_drifted.
Proof.
  assert (H1 : run (NewAccount 0) [req Load 0 10 0; req Authorize 1 10 0] = Some held10)
    by (vm_compute; reflexivity).
  cbn [run] in *.
  destruct (perform (NewAccount 0) (req Load 0 10 0)) as [a1 [[e|]|]]; try discriminate.
  destruct (perform a1 (req Authorize 1 10 0)) as [a2 [[e|]|]]; try discriminate.
  injection H1 as ->. rewrite refund_zero_drifts. reflexivity.
Qed.

(** Merchant 1 holds 10; Capture of 10 (written 1E+1), exactly the hold,
    does not succeed: after the hold is taken to zero the addition to
    the captured amount fails and the call returns that error. *)
Lemma capture_of_whole_hold_fails :
  Merchants held10_drifted !! 1 =
    Some {| Merchant_Available := New 10 0; Merchant_Captured := New 0 (-100000) |} /\
  dvalue (New 10 0) = dvalue (New 1 1) /\
  snd (Account_Capture held10_drifted 1 (Some (New 1 1))) =
    Returns (Some (Wrapf ErrExponentOutOfRange "add")) /\
  snd (Account_Capture held10_drifted 1 (Some (New 1 1))) <> Returns None.
Proof.
  split; [vm_compute; reflexivity|]. split.
  - apply Qc_is_canon. vm_compute. reflexivity.
  - split; [vm_compute; reflexivity|]. vm_compute. discriminate.
Qed.

(** ** Unknown merchants *)

(** C6.  For every account and every merchant identifier with no
    sub-ledger in the account, Capture, Reverse and Refund fail with the
    MerchantNotFound error carrying that identifier, whatever the amount
    argument (a nil amount included), and leave the account unchanged. *)
Theorem unknown_merchant_not_found (a : Account) (id : Z) (amount : option Decimal) :
  Merchants a !! id = None ->
  Account_Capture a id amount = (a, Returns (Some (merchantNotFound id))) /\
  Account_Reverse a id amount = (a, Returns (Some (merchantNotFound id))) /\
  Account_Refund a id amount = (a, Returns (Some (merchantNotFound id))) /\
  Cause (merchantNotFound id) = ErrMerchantNotFound /\
  merchantNotFound id = Wrapf ErrMerchantNotFound ("ID: " ++ Itoa id).
Proof.
  intros H. unfold Account_Capture, Account_Reverse, Account_Refund.
  rewrite H. repeat split.
Qed.

Lemma unknown_merchant_witness :
  Merchants (NewAccount 0) !! 7 = None /\
  Account_Capture (NewAccount 0) 7 None =
    (NewAccount 0, Returns (Some (Wrapf ErrMerchantNotFound "ID: 7"))).
Proof.
  split; [reflexivity|].
  exact (proj1 (unknown_merchant_not_found (NewAccount 0) 7 None eq_refl)).
Defined.

(** ** Authorize, then Reverse *)

(** C7, as amended.  For every account and amount for which Authorize
    succeeds and an immediately following Reverse of the same amount for
    the same merchant succeeds, if none of the six additions and
    subtractions of the two calls is inexact at 16 digits, then
    available, blocked and the merchant's hold have the values they had
    before the Authorize. *)
Theorem Authorize_then_Reverse (a : Account) (id : Z) (amount : Decimal) (a1 a2 : Account) :
  Account_Authorize a id (Some amount) = (a1, Returns None) ->
  Account_Reverse a1 id (Some amount) = (a2, Returns None) ->
  exact_call a {| Request_Op := Authorize; Request_MerchantID := id;
                  Request_Amount := Some amount |} = true ->
  exact_call a1 {| Request_Op := Reverse; Request_MerchantID := id;
                   Request_Amount := Some amount |} = true ->
  dvalue (Available a2) = dvalue (Available a) /\
  dvalue (Blocked a2) = dvalue (Blocked a) /\
  dvalue (hold a2 id) = dvalue (hold a id).
Proof.
  intros H1 H2 Hex1 Hex2.
  apply Authorize_success in H1
    as (d1 & r1 & d2 & r2 & d3 & r3 & _ & E1 & E2 & E3 & ->).
  apply Reverse_success in H2
    as (m & e1 & s1 & e2 & s2 & e3 & s3 & Hm & _ & F1 & F2 & F3 & ->).
  fields. rewrite lookup_insert_eq in Hm. injection Hm as <-. fields.
  unfold exact_call in Hex1, Hex2.
  cbn [Request_Amount Request_Op Request_MerchantID] in Hex1, Hex2.
  cbv zeta in Hex1, Hex2. unfold hold at 1 2 in Hex2. fields.
  rewrite lookup_insert_eq in Hex2. fields.
  rewrite E1, E2, E3 in Hex1. rewrite F1, F2, F3 in Hex2.
  repeat (let H' := fresh "Hex" in
          apply andb_true_iff in Hex1 as [Hex1 H']; apply exact_true in H').
  repeat (let H' := fresh "Hex" in
          apply andb_true_iff in Hex2 as [Hex2 H']; apply exact_true in H').
  apply exact_true in Hex1, Hex2.
  values.
  unfold hold at 1. fields. rewrite lookup_insert_eq. fields.
  rewrite_values. repeat split; ring.
Qed.

Lemma Authorize_then_Reverse_witness :
  Account_Authorize (after (NewAccount 0) (req Load 0 11234 (-2))) 1 (Some (New 2533 (-2))) =
    (after (after (NewAccount 0) (req Load 0 11234 (-2))) (req Authorize 1 2533 (-2)),
     Returns None) /\
  Account_Reverse
    (after (after (NewAccount 0) (req Load 0 11234 (-2))) (req Authorize 1 2533 (-2)))
    1 (Some (New 2533 (-2))) =
    (after_all (NewAccount 0)
       [req Load 0 11234 (-2); req Authorize 1 2533 (-2); req Reverse 1 2533 (-2)],
     Returns None) /\
  dvalue (Available (after_all (NewAccount 0)
       [req Load 0 11234 (-2); req Authorize 1 2533 (-2); req Reverse 1 2533 (-2)]))
  = dvalue (Available (after (NewAccount 0) (req Load 0 11234 (-2)))).
Proof.
  split; [vm_compute; reflexivity|]. split; [vm_compute; reflexivity|].
  apply (Authorize_then_Reverse
           (after (NewAccount 0) (req Load 0 11234 (-2))) 1 (New 2533 (-2))
           (after (after (NewAccount 0) (req Load 0 11234 (-2))) (req Authorize 1 2533 (-2)))
           (after_all (NewAccount 0)
              [req Load 0 11234 (-2); req Authorize 1 2533 (-2); req Reverse 1 2533 (-2)]));
    vm_compute; reflexivity.
Defined.

(** Blocked is 9999999999999999 and 6 is available; Authorize 6 for a new
    merchant and Reverse 6 both succeed, and blocked ends at
    10000000000000000. *)
Lemma rounded_round_trip_counterexample :
  run (NewAccount 0) blocked_nines = Some (after_all (NewAccount 0) blocked_nines) /\
  Account_Authorize (after_all (NewAccount 0) blocked_nines) 1 (Some (New 6 0)) =
    (after (after_all (NewAccount 0) blocked_nines) (req Authorize 1 6 0), Returns None) /\
  Account_Reverse (after (after_all (NewAccount 0) blocked_nines) (req Authorize 1 6 0))
      1 (Some (New 6 0)) =
    (after (after (after_all (NewAccount 0) blocked_nines) (req Authorize 1 6 0))
       (req Reverse 1 6 0), Returns None) /\
  dvalue (Blocked (after (after (after_all (NewAccount 0) blocked_nines)
                            (req Authorize 1 6 0)) (req Reverse 1 6 0)))
  <> dvalue (Blocked (after_all (NewAccount 0) blocked_nines)).
Proof.
  split; [vm_compute; reflexivity|]. split; [vm_compute; reflexivity|].
  split; [vm_compute; reflexivity|].
  intros H. apply (f_equal this) in H. vm_compute in H. discriminate H.
Qed.

(** ** The statement *)

(** C8.  A new account loaded with 99999999999999.99 (sixteen digits, two
    of them fraction digits): the statement shows 99999999999999.98 for
    the available balance, the total and the amount of the Load, the
    nearest binary64 being 99999999999999.984375. *)
Theorem Statement_drops_a_cent :
  Available big_load = New 9999999999999999 (-2) /\
  Account_Statement big_load = Some
"Available:                99999999999999.98
Blocked:                               0.00
Total:                    99999999999999.98

-------------------------------------------
 ID     | Type      | Merchant | Amount
-------------------------------------------
 0      | LOAD      |          | 99999999999999.98
-------------------------------------------"%string.
Proof. split; vm_compute; reflexivity. Qed.

(** The same on a small amount with three fraction digits: 2.675 is
    printed 2.67, the nearest binary64 being just below 2.675. *)
Example format_2675 :
  option_map float.format_2f (float.Float64 (New 2675 (-3))) = Some "2.67"%string.
Proof. vm_compute. reflexivity. Qed.

(** The statement of the package's own test, for comparison. *)
Example Statement_of_the_test :
  Account_Statement (after_all (NewAccount 0) statement_calls) = Some
"Available:                           913.25
Blocked:                               0.00
Total:                               913.25

-------------------------------------------
 ID     | Type      | Merchant | Amount
-------------------------------------------
 0      | LOAD      |          |    915.75
 1      | AUTHORIZE | 1        |     15.00
 2      | CAPTURE   | 1        |      5.00
 3      | CAPTURE   | 1        |      5.00
 4      | REVERSE   | 1        |      2.50
 5      | REFUND    | 1        |     10.00
 6      | CAPTURE   | 1        |      2.50
-------------------------------------------"%string.
Proof. vm_compute. reflexivity. Qed.

(** ** What moves the total *)

(** C9, as amended.  For a successful call with a non-negative amount
    none of whose additions and subtractions is inexact at 16 digits:
    Authorize and Reverse leave total = available + blocked unchanged;
    Load and Refund raise it by the amount, so neither lowers it; Capture
    lowers it by the amount. *)
Theorem total_moves (a : Account) (r : Request) (a' : Account) :
  perform a r = (a', Returns None) ->
  exact_call a r = true ->
  nonneg_amount r = true ->
  match Request_Op r with
  | Load | Refund => total a' = (total a + amount_value r)%Qc /\ (total a <= total a')%Qc
  | Authorize | Reverse => total a' = total a
  | Capture => total a' = (total a - amount_value r)%Qc /\ (total a' <= total a)%Qc
  end.
Proof.
  intros Hok Hex Hnn. pose proof (total_step a r a' Hok Hex) as Ht.
  destruct r as [op id [amount|]]; [|now apply perform_nil_amount in Hok].
  unfold nonneg_amount in Hnn. cbn in Hnn. apply Z.leb_le, dvalue_nonneg in Hnn.
  unfold net_amount, amount_value in *. cbn [Request_Amount Request_Op] in *.
  assert (Hup : (total a <= total a + dvalue amount)%Qc).
  { rewrite <- (Qcplus_0_r (total a)) at 1. now apply Qcplus_le_mono_l. }
  destruct op; rewrite Ht.
  - split; [reflexivity|assumption].
  - ring.
  - split; [ring|]. rewrite <- (Qcplus_0_r (total a)) at 2.
    apply Qcplus_le_mono_l. apply Qcopp_le_compat in Hnn. exact Hnn.
  - ring.
  - split; [reflexivity|assumption].
Qed.

Lemma total_moves_witness :
  perform (after_all (NewAccount 0) capture_setup) (req Load 0 55 (-1)) =
    (after (after_all (NewAccount 0) capture_setup) (req Load 0 55 (-1)), Returns None) /\
  exact_call (after_all (NewAccount 0) capture_setup) (req Load 0 55 (-1)) = true /\
  nonneg_amount (req Load 0 55 (-1)) = true /\
  total (after (after_all (NewAccount 0) capture_setup) (req Load 0 55 (-1))) =
    (total (after_all (NewAccount 0) capture_setup) + dvalue (New 55 (-1)))%Qc /\
  (total (after_all (NewAccount 0) capture_setup) <=
   total (after (after_all (NewAccount 0) capture_setup) (req Load 0 55 (-1))))%Qc.
Proof.
  split; [vm_compute; reflexivity|]. split; [vm_compute; reflexivity|].
  split; [vm_compute; reflexivity|].
  apply (total_moves (after_all (NewAccount 0) capture_setup) (req Load 0 55 (-1))
           (after (after_all (NewAccount 0) capture_setup) (req Load 0 55 (-1))));
    vm_compute; reflexivity.
Defined.

(** Load 10, Authorize 2, Capture 1 (TestCapture): the Capture succeeds
    and takes the total from 10 to 9. *)
Lemma capture_decreases_total :
  run (NewAccount 0) capture_setup = Some (after_all (NewAccount 0) capture_setup) /\
  Account_Capture (after_all (NewAccount 0) capture_setup) 1 (Some (New 1 0)) =
    (after (after_all (NewAccount 0) capture_setup) (req Capture 1 1 0), Returns None) /\
  (total (after (after_all (NewAccount 0) capture_setup) (req Capture 1 1 0))
   < total (after_all (NewAccount 0) capture_setup))%Qc.
Proof.
  split; [vm_compute; reflexivity|]. split; [vm_compute; reflexivity|].
  vm_compute. reflexivity.
Qed.

(** ** Other merchants *)

Ltac arith_any :=
  match goal with
  | |- context [Sub ?c ?d ?x ?y] =>
      destruct (Sub c d x y) as [[? ?] [?|]]; fields
  | |- context [Add ?c ?d ?x ?y] =>
      destruct (Add c d x y) as [[? ?] [?|]]; fields
  end.

(** C10.  For every account, every two distinct merchant identifiers m
    and n with n in the merchant map, and every amount (nil included),
    Authorize, Capture, Reverse or Refund for merchant m leaves merchant
    n's available and captured values unchanged, whether the call
    succeeds, returns an error or panics. *)
Theorem other_merchants_untouched (a : Account) (m n : Z) (amount : option Decimal)
    (x : Merchant) :
  m <> n ->
  Merchants a !! n = Some x ->
  Merchants (fst (Account_Authorize a m amount)) !! n = Some x /\
  Merchants (fst (Account_Capture a m amount)) !! n = Some x /\
  Merchants (fst (Account_Reverse a m amount)) !! n = Some x /\
  Merchants (fst (Account_Refund a m amount)) !! n = Some x.
Proof.
  intros Hne Hn.
  unfold Account_Authorize, Account_Capture, Account_Reverse, Account_Refund.
  destruct amount as [amount|].
  2:{ destruct (Merchants a !! m); repeat split; assumption. }
  repeat split.
  - destruct (Cmp (Available a) amount <? 0); [assumption|]. cbv zeta.
    repeat (arith_any; try assumption).
    destruct (Merchants a !! m); fields; arith_any; cbn [fst]; fields;
      rewrite ?lookup_insert_ne by assumption; assumption.
  - destruct (Merchants a !! m) as [y|]; [|assumption].
    destruct (Cmp (Merchant_Available y) amount <? 0); [assumption|]. cbv zeta.
    repeat (arith_any; cbn [fst]; fields; rewrite ?lookup_insert_ne by assumption;
            try assumption).
  - destruct (Merchants a !! m) as [y|]; [|assumption].
    destruct (Cmp (Merchant_Available y) amount <? 0); [assumption|]. cbv zeta.
    repeat (arith_any; cbn [fst]; fields; rewrite ?lookup_insert_ne by assumption;
            try assumption).
  - destruct (Merchants a !! m) as [y|]; [|assumption].
    destruct (Cmp (Merchant_Captured y) amount <? 0); [assumption|]. cbv zeta.
    repeat (arith_any; cbn [fst]; fields; rewrite ?lookup_insert_ne by assumption;
            try assumption).
Qed.

Lemma other_merchants_witness :
  (1 <> 2) /\
  Merchants (after_all (NewAccount 0) blocked_nines) !! 2 =
    Some {| Merchant_Available := New 9999999999999999 0;
            Merchant_Captured := New 0 0 |} /\
  Merchants (fst (Account_Authorize (after_all (NewAccount 0) blocked_nines) 1
                    (Some (New 6 0)))) !! 2 =
    Some {| Merchant_Available := New 9999999999999999 0;
            Merchant_Captured := New 0 0 |}.
Proof.
  split; [lia|]. split; [vm_compute; reflexivity|].
  apply (other_merchants_untouched (after_all (NewAccount 0) blocked_nines) 1 2
           (Some (New 6 0))
           {| Merchant_Available := New 9999999999999999 0;
              Merchant_Captured := New 0 0 |});
    [lia | vm_compute; reflexivity].
Defined.

(** * Further properties of the ledger, the statement and the API *)

(** ** The log *)

Ltac ops :=
  unfold perform; cbn [Request_Op Request_MerchantID Request_Amount];
  unfold Account_Load, Account_Authorize, Account_Capture, Account_Reverse, Account_Refund.

Ltac paths :=
  repeat first
    [ match goal with
      | |- context [Cmp ?x ?y <? 0] => destruct (Cmp x y <? 0)
      end
    | progress cbv zeta
    | arith_any ];
  cbn [fst snd]; fields.

(** What a call does to the log, on every path. *)
Lemma perform_log (a : Account) (r : Request) :
  Transactions (fst (perform a r)) =
  match snd (perform a r), Request_Amount r with
  | Returns None, Some amount => Transactions a ++ [entry r amount]
  | _, _ => Transactions a
  end.
Proof.
  destruct r as [op id [amount|]]; destruct op; ops; unfold entry;
    cbn [Request_Op Request_MerchantID Request_Amount];
    try destruct (Merchants a !! id); paths; try reflexivity;
    destruct (Merchants a !! id); paths; reflexivity.
Qed.

(** X1.  For every account and every call of Load, Authorize, Capture,
    Reverse or Refund: a call that returns nil has appended exactly one
    entry to the transaction log, carrying the operation, the merchant
    identifier (none for Load) and the amount of the call; a call that
    returns an error or panics leaves the log as it was, also when the
    error comes after some balance has already been updated. *)
Theorem log_records_call (a : Account) (r : Request) :
  (snd (perform a r) = Returns None ->
   exists amount, Request_Amount r = Some amount /\
     Transactions (fst (perform a r)) = Transactions a ++ [entry r amount]) /\
  (snd (perform a r) <> Returns None ->
   Transactions (fst (perform a r)) = Transactions a).
Proof.
  pose proof (perform_log a r) as H. split; intros Ho.
  - rewrite Ho in H. destruct (Request_Amount r) as [amount|] eqn:E; [eauto|].
    exfalso. destruct r as [op id amt]. cbn in E. subst amt.
    apply (perform_nil_amount a op id (fst (perform a {| Request_Op := op;
             Request_MerchantID := id; Request_Amount := None |}))).
    rewrite <- Ho. now destruct (perform _ _).
  - rewrite H. destruct (snd (perform a r)) as [[e|]|]; try reflexivity. congruence.
Qed.

Lemma run_cons a r rs a' :
  run a (r :: rs) = Some a' ->
  exists a1, perform a r = (a1, Returns None) /\ run a1 rs = Some a'.
Proof.
  cbn [run]. destruct (perform a r) as [a1 [[e|]|]]; try discriminate. eauto.
Qed.

(** X2.  After a sequence of calls that all return nil, the log is the
    log before the sequence followed by one entry per call, in call order,
    so its length has grown by the number of calls. *)
Theorem log_after_run (rs : list Request) : forall (a a' : Account),
  run a rs = Some a' ->
  Transactions a' = Transactions a ++ entries rs /\
  length (Transactions a') = (length (Transactions a) + length rs)%nat.
Proof.
  induction rs as [|r rs IH]; intros a a' Hrun.
  - injection Hrun as <-. cbn. rewrite app_nil_r. auto.
  - apply run_cons in Hrun as (a1 & Hp & Hrun).
    destruct (IH a1 a' Hrun) as [Hl Hn].
    pose proof (perform_log a r) as H1. rewrite Hp in H1. cbn [fst snd] in H1.
    destruct r as [op id [amount|]]; [|now apply perform_nil_amount in Hp].
    cbn [Request_Amount] in H1. split.
    + rewrite Hl, H1. unfold entries. cbn [flat_map Request_Amount].
      now rewrite <- app_assoc.
    + rewrite Hn, H1, length_app. cbn. lia.
Qed.

Lemma log_after_run_witness :
  run (NewAccount 0) statement_calls = Some (after_all (NewAccount 0) statement_calls) /\
  Transactions (after_all (NewAccount 0) statement_calls) =
    [tx Load None 91575 (-2); tx Authorize (Some 1) 1500 (-2); tx Capture (Some 1) 5 0;
     tx Capture (Some 1) 5 0; tx Reverse (Some 1) 25 (-1); tx Refund (Some 1) 10 0;
     tx Capture (Some 1) 25 (-1)].
Proof.
  assert (H : run (NewAccount 0) statement_calls =
              Some (after_all (NewAccount 0) statement_calls)) by (vm_compute; reflexivity).
  split; [exact H|].
  rewrite (proj1 (log_after_run statement_calls (NewAccount 0)
                    (after_all (NewAccount 0) statement_calls) H)).
  vm_compute. reflexivity.
Defined.

(** ** Fields a call does not write *)

Ltac domain :=
  rewrite ?lookup_insert_is_Some';
  try match goal with
    | Hm : Merchants _ !! _ = Some _ |- _ => apply mk_is_Some in Hm
    end;
  intuition (subst; auto).

(** X3.  No call ever removes a merchant sub-ledger: a merchant present
    before a call is present after it, whatever the call returns; and a
    merchant present after a call that was not present before can only be
    the merchant of an Authorize call. *)
Theorem merchants_never_removed (a : Account) (r : Request) (id : Z) :
  (is_Some (Merchants a !! id) -> is_Some (Merchants (fst (perform a r)) !! id)) /\
  (is_Some (Merchants (fst (perform a r)) !! id) ->
   is_Some (Merchants a !! id) \/
   (Request_Op r = Authorize /\ id = Request_MerchantID r)).
Proof.
  destruct r as [op mid [amount|]]; destruct op; ops.
  - paths; domain.
  - paths; try solve [domain].
    all: destruct (Merchants a !! mid) as [m|] eqn:Hm; paths; domain.
  - destruct (Merchants a !! mid) as [m|] eqn:Hm; paths; domain.
  - destruct (Merchants a !! mid) as [m|] eqn:Hm; paths; domain.
  - destruct (Merchants a !! mid) as [m|] eqn:Hm; paths; domain.
  - cbn [fst]; domain.
  - cbn [fst]; domain.
  - destruct (Merchants a !! mid) as [m|] eqn:Hm; cbn [fst]; domain.
  - destruct (Merchants a !! mid) as [m|] eqn:Hm; cbn [fst]; domain.
  - destruct (Merchants a !! mid) as [m|] eqn:Hm; cbn [fst]; domain.
Qed.

Lemma lookup_insert_same_captured (M : gmap Z Merchant) k m d id :
  M !! k = Some m ->
  match <[k := {| Merchant_Available := d; Merchant_Captured := Merchant_Captured m |}]> M !! id with
  | Some m' => Merchant_Captured m'
  | None => New 0 0
  end =
  match M !! id with
  | Some m' => Merchant_Captured m'
  | None => New 0 0
  end.
Proof.
  intros H. destruct (decide (k = id)) as [<-|Hne].
  - now rewrite lookup_insert_eq, H.
  - now rewrite lookup_insert_ne.
Qed.

Lemma lookup_insert_same_hold (M : gmap Z Merchant) k m d id :
  M !! k = Some m ->
  match <[k := {| Merchant_Available := Merchant_Available m; Merchant_Captured := d |}]> M !! id with
  | Some m' => Merchant_Available m'
  | None => New 0 0
  end =
  match M !! id with
  | Some m' => Merchant_Available m'
  | None => New 0 0
  end.
Proof.
  intros H. destruct (decide (k = id)) as [<-|Hne].
  - now rewrite lookup_insert_eq, H.
  - now rewrite lookup_insert_ne.
Qed.

Lemma lookup_insert_new_captured (M : gmap Z Merchant) k d id :
  M !! k = None ->
  match <[k := {| Merchant_Available := d; Merchant_Captured := New 0 0 |}]> M !! id with
  | Some m' => Merchant_Captured m'
  | None => New 0 0
  end =
  match M !! id with
  | Some m' => Merchant_Captured m'
  | None => New 0 0
  end.
Proof.
  intros H. destruct (decide (k = id)) as [<-|Hne].
  - now rewrite lookup_insert_eq, H.
  - now rewrite lookup_insert_ne.
Qed.

(** X4.  Whatever a call returns (nil, an error, also one that comes after
    a partial update, or a panic): it never changes the account's ID;
    Load changes neither the blocked balance nor any merchant sub-ledger;
    Authorize and Reverse change no merchant's captured amount; Capture
    does not change the available balance; Refund changes neither the
    blocked balance nor any merchant's hold. *)
Theorem fields_a_call_never_writes (a : Account) (r : Request) :
  ID (fst (perform a r)) = ID a /\
  match Request_Op r with
  | Load =>
      Blocked (fst (perform a r)) = Blocked a /\
      Merchants (fst (perform a r)) = Merchants a
  | Authorize | Reverse =>
      forall id, captured (fst (perform a r)) id = captured a id
  | Capture => Available (fst (perform a r)) = Available a
  | Refund =>
      Blocked (fst (perform a r)) = Blocked a /\
      forall id, hold (fst (perform a r)) id = hold a id
  end.
Proof.
  destruct r as [op mid [amount|]]; destruct op; ops; unfold hold, captured;
    try (destruct (Merchants a !! mid) as [m|] eqn:Hm); paths; auto.
  all: rewrite ?Hm; paths.
  all: split; [reflexivity|]; try split; try reflexivity; intros id;
    rewrite ?insert_insert_eq;
    first [ reflexivity
          | apply (lookup_insert_same_captured _ _ _ _ _ Hm)
          | apply (lookup_insert_same_hold _ _ _ _ _ Hm)
          | apply (lookup_insert_new_captured _ _ _ _ Hm) ].
Qed.

(** ** Panics and the ledger's own errors *)

Lemma perform_some_returns (a : Account) (op : Operation) (id : Z) (amount : Decimal) :
  snd (perform a {| Request_Op := op; Request_MerchantID := id;
                    Request_Amount := Some amount |}) <> Panics.
Proof.
  destruct op; ops.
  - paths; discriminate.
  - paths; try discriminate. all: destruct (Merchants a !! id); paths; discriminate.
  - destruct (Merchants a !! id); paths; discriminate.
  - destruct (Merchants a !! id); paths; discriminate.
  - destruct (Merchants a !! id); paths; discriminate.
Qed.

Lemma perform_panics (a : Account) (r : Request) :
  (snd (perform a r) = Panics <->
   Request_Amount r = None /\
   (Request_Op r = Load \/ Request_Op r = Authorize \/
    is_Some (Merchants a !! Request_MerchantID r))) /\
  (snd (perform a r) = Panics -> fst (perform a r) = a).
Proof.
  destruct r as [op id [amount|]].
  - pose proof (perform_some_returns a op id amount) as H.
    cbn [Request_Amount Request_Op Request_MerchantID].
    split; [split|]; [tauto | intros [[=] _] | tauto].
  - cbn [Request_Amount Request_Op Request_MerchantID].
    destruct op; ops; try (split; [split; auto|reflexivity]);
      destruct (Merchants a !! id) as [m|] eqn:Hm; cbn [fst snd];
      (split; [split|reflexivity]); eauto; try discriminate.
    all: intros (_ & [[=]|[[=]|[x [=]]]]).
Qed.

(** X5.  On an account built by the package itself, that is, obtained
    from NewAccount by any sequence of ledger calls, failing and
    panicking ones included (every balance and every sub-ledger cell of
    such an account is allocated): a further call panics exactly when its
    amount is nil and the call gets as far as using it, which is always
    for Load and Authorize, and for Capture, Reverse and Refund when the
    merchant exists (for an unknown merchant the lookup fails first).  A
    call that panics has changed nothing, and a call with a non-nil
    amount does not panic.  Accounts decoded from a database file whose
    balances are absent are not covered: their cells are nil pointers,
    which the ledger dereferences. *)
Theorem panics_exactly_on_nil_amount (id : Z) (rs : list Request) (r : Request) :
  (snd (perform (after_all (NewAccount id) rs) r) = Panics <->
   Request_Amount r = None /\
   (Request_Op r = Load \/ Request_Op r = Authorize \/
    is_Some (Merchants (after_all (NewAccount id) rs) !! Request_MerchantID r))) /\
  (snd (perform (after_all (NewAccount id) rs) r) = Panics ->
   fst (perform (after_all (NewAccount id) rs) r) = after_all (NewAccount id) rs).
Proof. apply perform_panics. Qed.

Ltac arith_own :=
  match goal with
  | |- context [Sub ?c ?d ?x ?y] =>
      let e := fresh "err" in let E := fresh "E" in
      destruct (Sub c d x y) as [[? ?] [e|]] eqn:E; fields;
      [apply add_error in E as [? ?]; intros [= <- <-]; intuition congruence|]
  | |- context [Add ?c ?d ?x ?y] =>
      let e := fresh "err" in let E := fresh "E" in
      destruct (Add c d x y) as [[? ?] [e|]] eqn:E; fields;
      [apply add_error in E as [? ?]; intros [= <- <-]; intuition congruence|]
  end.

(** X6.  Where the ledger's own errors come from.  A call that returns
    ErrUnderflow is not a Load and its amount exceeds the quantity the
    operation draws on (available for Authorize, the merchant's hold for
    Capture and Reverse, the merchant's captured amount for Refund); a
    call whose error has cause ErrMerchantNotFound is a Capture, Reverse
    or Refund for a merchant that has no sub-ledger, and the error is the
    wrapped error carrying that merchant's identifier.  So Load returns
    neither error and Authorize never returns MerchantNotFound. *)
Theorem own_errors_only_from_checks (a : Account) (r : Request) (a' : Account) (e : error) :
  perform a r = (a', Returns (Some e)) ->
  (e = ErrUnderflow ->
     exists amount, Request_Amount r = Some amount /\
       match Request_Op r with
       | Load => False
       | Authorize => (dvalue (Available a) < dvalue amount)%Qc
       | Capture | Reverse => (dvalue (hold a (Request_MerchantID r)) < dvalue amount)%Qc /\
                              is_Some (Merchants a !! Request_MerchantID r)
       | Refund => (dvalue (captured a (Request_MerchantID r)) < dvalue amount)%Qc /\
                   is_Some (Merchants a !! Request_MerchantID r)
       end) /\
  (Cause e = ErrMerchantNotFound ->
     e = merchantNotFound (Request_MerchantID r) /\
     Merchants a !! Request_MerchantID r = None /\
     (Request_Op r = Capture \/ Request_Op r = Reverse \/ Request_Op r = Refund)).
Proof.
  destruct r as [op id [amount|]]; destruct op; ops; unfold hold, captured.
  - arith_own. discriminate.
  - destruct (Cmp (Available a) amount <? 0) eqn:Hc.
    { intros [= <- <-]. split; [|discriminate]. intros _. exists amount.
      split; [reflexivity|]. now apply Cmp_lt, Z.ltb_lt. }
    cbv zeta. do 2 arith_own.
    destruct (Merchants a !! id); fields; arith_own; discriminate.
  - destruct (Merchants a !! id) as [m|] eqn:Hm.
    2:{ intros [= <- <-]. split; [discriminate|]. auto. }
    destruct (Cmp (Merchant_Available m) amount <? 0) eqn:Hc.
    { intros [= <- <-]. split; [|discriminate]. intros _. exists amount.
      split; [reflexivity|]. split; [now apply Cmp_lt, Z.ltb_lt|eauto]. }
    cbv zeta. do 3 arith_own. discriminate.
  - destruct (Merchants a !! id) as [m|] eqn:Hm.
    2:{ intros [= <- <-]. split; [discriminate|]. auto. }
    destruct (Cmp (Merchant_Available m) amount <? 0) eqn:Hc.
    { intros [= <- <-]. split; [|discriminate]. intros _. exists amount.
      split; [reflexivity|]. split; [now apply Cmp_lt, Z.ltb_lt|eauto]. }
    cbv zeta. do 3 arith_own. discriminate.
  - destruct (Merchants a !! id) as [m|] eqn:Hm.
    2:{ intros [= <- <-]. split; [discriminate|]. auto. }
    destruct (Cmp (Merchant_Captured m) amount <? 0) eqn:Hc.
    { intros [= <- <-]. split; [|discriminate]. intros _. exists amount.
      split; [reflexivity|]. split; [now apply Cmp_lt, Z.ltb_lt|eauto]. }
    cbv zeta. do 2 arith_own. discriminate.
  - discriminate.
  - discriminate.
  - destruct (Merchants a !! id) as [m|] eqn:Hm; [discriminate|].
    intros [= <- <-]. split; [discriminate|]. auto.
  - destruct (Merchants a !! id) as [m|] eqn:Hm; [discriminate|].
    intros [= <- <-]. split; [discriminate|]. auto.
  - destruct (Merchants a !! id) as [m|] eqn:Hm; [discriminate|].
    intros [= <- <-]. split; [discriminate|]. auto.
Qed.

Lemma own_errors_witness :
  perform (NewAccount 0) (req Authorize 1 5 0) = (NewAccount 0, Returns (Some ErrUnderflow)) /\
  (dvalue (Available (NewAccount 0)) < dvalue (New 5 0))%Qc.
Proof.
  assert (H : perform (NewAccount 0) (req Authorize 1 5 0) =
              (NewAccount 0, Returns (Some ErrUnderflow))) by (vm_compute; reflexivity).
  split; [exact H|].
  destruct (own_errors_only_from_checks (NewAccount 0) (req Authorize 1 5 0)
              (NewAccount 0) ErrUnderflow H) as [Hu _].
  destruct (Hu eq_refl) as (amount & Ha & Hlt). injection Ha as <-. exact Hlt.
Defined.

(** ** Conservation of money *)

Lemma captured_of_insert_fresh (M : gmap Z Merchant) id m :
  M !! id = None ->
  captured_of (<[id := m]> M) = (dvalue (Merchant_Captured m) + captured_of M)%Qc.
Proof.
  intros H. unfold captured_of.
  rewrite (map_fold_insert_L (fun _ m acc => (dvalue (Merchant_Captured m) + acc)%Qc));
    [reflexivity| |assumption].
  intros. ring.
Qed.

Lemma captured_of_insert (M : gmap Z Merchant) id m0 m :
  M !! id = Some m0 ->
  captured_of (<[id := m]> M) =
  (captured_of M - dvalue (Merchant_Captured m0) + dvalue (Merchant_Captured m))%Qc.
Proof.
  intros H.
  rewrite <- (insert_delete_eq M id m).
  rewrite <- (insert_id M id m0 H) at 2.
  rewrite <- (insert_delete_eq M id m0).
  rewrite !captured_of_insert_fresh by apply lookup_delete_eq. ring.
Qed.

Lemma funds_step a r a' :
  perform a r = (a', Returns None) -> exact_call a r = true ->
  funds a' = (funds a + loaded r)%Qc.
Proof.
  intros Hok Hex.
  destruct r as [op id [amount|]]; [|now apply perform_nil_amount in Hok].
  unfold perform in Hok. cbn [Request_Amount Request_Op Request_MerchantID] in Hok.
  unfold funds, loaded. cbn [Request_Amount Request_Op].
  destruct op.
  - apply Load_success in Hok as (d & r & E & ->).
    split_exact Hex. values. fields. rewrite_values. ring.
  - apply Authorize_success in Hok
      as (d1 & r1 & d2 & r2 & d3 & r3 & _ & E1 & E2 & E3 & ->).
    unfold hold, captured in *.
    destruct (Merchants a !! id) eqn:Hm; split_exact Hex; values; fields.
    + rewrite (captured_of_insert _ _ _ _ Hm). fields. rewrite_values. ring.
    + rewrite (captured_of_insert_fresh _ _ _ Hm). fields. rewrite_values.
      rewrite dvalue_zero. ring.
  - apply Capture_success in Hok
      as (m & d1 & r1 & d2 & r2 & d3 & r3 & Hm & _ & E1 & E2 & E3 & ->).
    split_exact Hex. values. fields.
    rewrite (captured_of_insert _ _ _ _ Hm). fields. rewrite_values. ring.
  - apply Reverse_success in Hok
      as (m & d1 & r1 & d2 & r2 & d3 & r3 & Hm & _ & E1 & E2 & E3 & ->).
    split_exact Hex. values. fields.
    rewrite (captured_of_insert _ _ _ _ Hm). fields. rewrite_values. ring.
  - apply Refund_success in Hok as (m & d1 & r1 & d2 & r2 & Hm & _ & E1 & E2 & ->).
    split_exact Hex. values. fields.
    rewrite (captured_of_insert _ _ _ _ Hm). fields. rewrite_values. ring.
Qed.

(** X7.  Money enters an account only through Load.  Over any sequence
    of successful calls none of whose additions and subtractions is
    inexact at 16 digits, the sum available + blocked + all captured
    amounts grows by exactly the sum of the Load amounts: Authorize,
    Capture, Reverse and Refund only move money between available,
    blocked and captured. *)
Theorem funds_conserved (rs : list Request) : forall (a a' : Account),
  run a rs = Some a' -> exact_run a rs = true ->
  funds a' = (funds a + loaded_total rs)%Qc.
Proof.
  induction rs as [|r rs IH]; intros a a' Hrun Hex; cbn [run exact_run] in *.
  - injection Hrun as <-. unfold loaded_total. cbn [fold_right]. ring.
  - apply andb_true_iff in Hex as [Hex1 Hex2].
    destruct (perform a r) as [a1 [[e|]|]] eqn:Hp; try discriminate.
    change (loaded_total (r :: rs)) with (loaded r + loaded_total rs)%Qc.
    rewrite (IH a1 a' Hrun Hex2), (funds_step a r a1 Hp Hex1). ring.
Qed.

Lemma funds_conserved_witness :
  run (NewAccount 0) statement_calls = Some (after_all (NewAccount 0) statement_calls) /\
  exact_run (NewAccount 0) statement_calls = true /\
  funds (after_all (NewAccount 0) statement_calls) =
    (funds (NewAccount 0) + loaded_total statement_calls)%Qc.
Proof.
  split; [vm_compute; reflexivity|]. split; [vm_compute; reflexivity|].
  apply (funds_conserved statement_calls (NewAccount 0)
           (after_all (NewAccount 0) statement_calls)); vm_compute; reflexivity.
Defined.

(** ** Authorize then Capture, Capture then Refund *)

(** X8.  Authorize followed by Capture of the same amount for the same
    merchant, both successful and exact at 16 digits: the blocked balance
    and the merchant's hold are back at their values before the
    Authorize, the available balance is down by the amount and the
    merchant's captured amount is up by it. *)
Theorem Authorize_then_Capture (a : Account) (id : Z) (amount : Decimal) (a1 a2 : Account) :
  Account_Authorize a id (Some amount) = (a1, Returns None) ->
  Account_Capture a1 id (Some amount) = (a2, Returns None) ->
  exact_call a {| Request_Op := Authorize; Request_MerchantID := id;
                  Request_Amount := Some amount |} = true ->
  exact_call a1 {| Request_Op := Capture; Request_MerchantID := id;
                   Request_Amount := Some amount |} = true ->
  dvalue (Available a2) = (dvalue (Available a) - dvalue amount)%Qc /\
  dvalue (Blocked a2) = dvalue (Blocked a) /\
  dvalue (hold a2 id) = dvalue (hold a id) /\
  dvalue (captured a2 id) = (dvalue (captured a id) + dvalue amount)%Qc.
Proof.
  intros H1 H2 Hex1 Hex2.
  apply Authorize_success in H1
    as (d1 & r1 & d2 & r2 & d3 & r3 & _ & E1 & E2 & E3 & ->).
  apply Capture_success in H2
    as (m & e1 & s1 & e2 & s2 & e3 & s3 & Hm & _ & F1 & F2 & F3 & ->).
  set (c0 := captured a id) in *. set (h0 := hold a id) in *.
  fields. rewrite lookup_insert_eq in Hm. injection Hm as <-. fields.
  unfold exact_call in Hex1, Hex2.
  cbn [Request_Amount Request_Op Request_MerchantID] in Hex1, Hex2.
  cbv zeta in Hex1, Hex2. fold c0 h0 in Hex1. unfold hold, captured in Hex2. fields.
  rewrite lookup_insert_eq in Hex2. fields.
  rewrite E1, E2, E3 in Hex1. rewrite F1, F2, F3 in Hex2.
  repeat (let H' := fresh "Hex" in
          apply andb_true_iff in Hex1 as [Hex1 H']; apply exact_true in H').
  repeat (let H' := fresh "Hex" in
          apply andb_true_iff in Hex2 as [Hex2 H']; apply exact_true in H').
  apply exact_true in Hex1, Hex2.
  values.
  unfold hold, captured. fields. rewrite lookup_insert_eq. fields.
  rewrite_values. repeat split; ring.
Qed.

Lemma Authorize_then_Capture_witness :
  Account_Authorize (after (NewAccount 0) (req Load 0 10 0)) 1 (Some (New 2 0)) =
    (after_all (NewAccount 0) capture_setup, Returns None) /\
  Account_Capture (after_all (NewAccount 0) capture_setup) 1 (Some (New 2 0)) =
    (after (after_all (NewAccount 0) capture_setup) (req Capture 1 2 0), Returns None) /\
  dvalue (Blocked (after (after_all (NewAccount 0) capture_setup) (req Capture 1 2 0))) =
  dvalue (Blocked (after (NewAccount 0) (req Load 0 10 0))).
Proof.
  split; [vm_compute; reflexivity|]. split; [vm_compute; reflexivity|].
  apply (Authorize_then_Capture (after (NewAccount 0) (req Load 0 10 0)) 1 (New 2 0)
           (after_all (NewAccount 0) capture_setup)
           (after (after_all (NewAccount 0) capture_setup) (req Capture 1 2 0)));
    vm_compute; reflexivity.
Defined.

(** X9.  Capture followed by Refund of the same amount for the same
    merchant, both successful and exact at 16 digits, has the effect of a
    Reverse on the balances: the merchant's captured amount is back at
    its value before the Capture, the hold and the blocked balance are
    down by the amount and the available balance is up by it. *)
Theorem Capture_then_Refund (a : Account) (id : Z) (amount : Decimal) (a1 a2 : Account) :
  Account_Capture a id (Some amount) = (a1, Returns None) ->
  Account_Refund a1 id (Some amount) = (a2, Returns None) ->
  exact_call a {| Request_Op := Capture; Request_MerchantID := id;
                  Request_Amount := Some amount |} = true ->
  exact_call a1 {| Request_Op := Refund; Request_MerchantID := id;
                   Request_Amount := Some amount |} = true ->
  dvalue (Available a2) = (dvalue (Available a) + dvalue amount)%Qc /\
  dvalue (Blocked a2) = (dvalue (Blocked a) - dvalue amount)%Qc /\
  dvalue (hold a2 id) = (dvalue (hold a id) - dvalue amount)%Qc /\
  dvalue (captured a2 id) = dvalue (captured a id).
Proof.
  intros H1 H2 Hex1 Hex2.
  apply Capture_success in H1
    as (m & d1 & r1 & d2 & r2 & d3 & r3 & Hm & _ & E1 & E2 & E3 & ->).
  apply Refund_success in H2
    as (m1 & e1 & s1 & e2 & s2 & Hm1 & _ & F1 & F2 & ->).
  fields. rewrite lookup_insert_eq in Hm1. injection Hm1 as <-. fields.
  unfold exact_call in Hex1, Hex2.
  cbn [Request_Amount Request_Op Request_MerchantID] in Hex1, Hex2.
  cbv zeta in Hex1, Hex2. unfold hold, captured in Hex1, Hex2. fields.
  rewrite lookup_insert_eq in Hex2. rewrite Hm in Hex1. fields.
  rewrite E1, E2, E3 in Hex1. rewrite F1, F2 in Hex2.
  repeat (let H' := fresh "Hex" in
          apply andb_true_iff in Hex1 as [Hex1 H']; apply exact_true in H').
  repeat (let H' := fresh "Hex" in
          apply andb_true_iff in Hex2 as [Hex2 H']; apply exact_true in H').
  apply exact_true in Hex1, Hex2.
  values.
  unfold hold, captured. fields. rewrite lookup_insert_eq, Hm. fields.
  rewrite_values. repeat split; ring.
Qed.

Lemma Capture_then_Refund_witness :
  Account_Capture (after_all (NewAccount 0) capture_setup) 1 (Some (New 1 0)) =
    (after (after_all (NewAccount 0) capture_setup) (req Capture 1 1 0), Returns None) /\
  Account_Refund (after (after_all (NewAccount 0) capture_setup) (req Capture 1 1 0))
      1 (Some (New 1 0)) =
    (after (after (after_all (NewAccount 0) capture_setup) (req Capture 1 1 0))
       (req Refund 1 1 0), Returns None) /\
  dvalue (captured (after (after (after_all (NewAccount 0) capture_setup)
                             (req Capture 1 1 0)) (req Refund 1 1 0)) 1) =
  dvalue (captured (after_all (NewAccount 0) capture_setup) 1).
Proof.
  split; [vm_compute; reflexivity|]. split; [vm_compute; reflexivity|].
  apply (Capture_then_Refund (after_all (NewAccount 0) capture_setup) 1 (New 1 0)
           (after (after_all (NewAccount 0) capture_setup) (req Capture 1 1 0))
           (after (after (after_all (NewAccount 0) capture_setup) (req Capture 1 1 0))
              (req Refund 1 1 0)));
    vm_compute; reflexivity.
Defined.

(** ** Ordinary amounts: the arithmetic neither rounds nor fails *)

Lemma ordinary_bounds k d : ordinary k d = true <-> - k <= Exponent d <= 0.
Proof. unfold ordinary. rewrite andb_true_iff, !Z.leb_le. tauto. Qed.

Lemma upscale_min (x y : Decimal) :
  Z.abs (Exponent x - Exponent y) <= MaxExponent ->
  exists a b,
    upscale x y = Some (a, b, Z.min (Exponent x) (Exponent y)) /\
    Z.of_N a = Z.of_N (Coeff x) * 10 ^ (Exponent x - Z.min (Exponent x) (Exponent y)) /\
    Z.of_N b = Z.of_N (Coeff y) * 10 ^ (Exponent y - Z.min (Exponent x) (Exponent y)).
Proof.
  intros H. unfold upscale.
  destruct (Z.eqb_spec (Exponent x) (Exponent y)) as [He|He].
  - exists (Coeff x), (Coeff y). rewrite <- He, Z.min_id, Z.sub_diag. cbn. split; [reflexivity|lia].
  - destruct (Z.ltb_spec (Exponent x) (Exponent y)) as [Hlt|Hge]; cbv zeta.
    + rewrite gtb_false by lia. rewrite Z.min_l by lia.
      eexists _, _. split; [reflexivity|]. rewrite Z.sub_diag.
      rewrite N2Z.inj_mul, N2Z.inj_pow, Z2N.id by lia. cbn. split; lia.
    + rewrite gtb_false by lia. rewrite Z.min_r by lia.
      eexists _, _. split; [reflexivity|]. rewrite Z.sub_diag.
      rewrite N2Z.inj_mul, N2Z.inj_pow, Z2N.id by lia. cbn. split; lia.
Qed.

Lemma sgnZ_scale s (a c : N) (p : Z) :
  Z.of_N a = Z.of_N c * p -> sgnZ s a = sgnZ s c * p.
Proof. unfold sgnZ. destruct s; lia. Qed.

Lemma add_ordinary (k : Z) (d x y : Decimal) (subtract : bool) :
  0 <= k <= MaxExponent ->
  ordinary k x = true -> ordinary k y = true ->
  Z.abs (if subtract then units k x - units k y else units k x + units k y) < 10 ^ 16 ->
  exists d',
    add getContext d x y subtract = (d', 0%N, None) /\
    ordinary k d' = true /\
    units k d' = (if subtract then units k x - units k y else units k x + units k y).
Proof.
  intros Hk Hx Hy Hfit. apply ordinary_bounds in Hx, Hy.
  set (s := Z.min (Exponent x) (Exponent y)).
  destruct (upscale_min x y) as (a & b & Hup & Ha & Hb); [unfold MaxExponent in *; lia|].
  fold s in Hup, Ha, Hb.
  unfold add. rewrite Hup.
  destruct (if Bool.eqb _ _ then _ else _) as [sg coeff] eqn:Hsum.
  apply add_signed_sum in Hsum.
  rewrite (sgnZ_scale _ _ _ _ Ha), (sgnZ_scale _ _ _ _ Hb) in Hsum.
  fold (signed x) in Hsum.
  assert (Hy' : sgnZ (xorb (Negative y) subtract) (Coeff y)
                = if subtract then - signed y else signed y).
  { destruct subtract; [apply sgnZ_xorb_true | now rewrite xorb_false_r]. }
  rewrite Hy' in Hsum. clear Hy'.
  assert (Hs : - k <= s <= 0) by (unfold s; lia).
  assert (Hunits : sgnZ sg coeff * 10 ^ (s + k) =
                   if subtract then units k x - units k y else units k x + units k y).
  { unfold units. rewrite Hsum.
    replace (Exponent x + k) with ((Exponent x - s) + (s + k)) by lia.
    replace (Exponent y + k) with ((Exponent y - s) + (s + k)) by lia.
    rewrite (Z.pow_add_r 10 (Exponent x - s) (s + k)),
            (Z.pow_add_r 10 (Exponent y - s) (s + k)) by (unfold s; lia).
    destruct subtract; ring. }
  assert (Hc : Z.of_N coeff < 10 ^ 16).
  { rewrite <- Hunits in Hfit.
    assert (1 <= 10 ^ (s + k)) by (apply (Z.pow_le_mono_r 10 0); lia).
    assert (Z.abs (sgnZ sg coeff) = Z.of_N coeff) by (unfold sgnZ; destruct sg; lia).
    rewrite Z.abs_mul in Hfit. rewrite (Z.abs_eq (10 ^ (s + k))) in Hfit by lia. nia. }
  pose proof (NumDigits_fits coeff Hc) as Hnd.
  pose proof (digits_from_pos (N.size_nat coeff) coeff) as Hnd1. fold (NumDigits coeff) in Hnd1.
  unfold round. change (Precision getContext) with 16. change (16 =? 0) with false. cbv iota.
  cbn [Coeff Exponent Negative].
  rewrite (ltb_false (s + NumDigits coeff - 1) MinExponent)
    by (unfold MinExponent, MaxExponent in *; lia).
  rewrite andb_false_r.
  rewrite (ltb_false 0 (NumDigits coeff - 16)) by lia.
  unfold setExponent. cbn [existsb fold_right Coeff Negative Exponent].
  rewrite (gtb_false s), (gtb_false 0), (ltb_false s), (ltb_false 0)
    by (unfold MinExponent, MaxExponent in *; lia).
  cbn [orb].
  rewrite (gtb_false (s + (0 + 0) + NumDigits coeff - 1)),
          (ltb_false (s + (0 + 0) + NumDigits coeff - 1))
    by (unfold MinExponent, MaxExponent in *; lia).
  eexists. split; [reflexivity|]. split.
  - apply ordinary_bounds. cbn [Exponent]. lia.
  - unfold units, signed. cbn [Exponent Negative Coeff].
    replace (s + (0 + 0) + k) with (s + k) by lia. exact Hunits.
Qed.

Lemma Cmp_units (k : Z) (x y : Decimal) :
  ordinary k x = true -> ordinary k y = true ->
  (Cmp x y <? 0) = (units k x <? units k y).
Proof.
  intros Hx Hy. apply ordinary_bounds in Hx, Hy.
  set (s := Z.min (Exponent x) (Exponent y)).
  assert (Hp : 0 < 10 ^ (s + k)) by (apply Z.pow_pos_nonneg; unfold s; lia).
  assert (Ex : units k x = signed x * 10 ^ (Exponent x - s) * 10 ^ (s + k)).
  { unfold units. rewrite <- Z.mul_assoc, <- Z.pow_add_r by (unfold s; lia).
    do 2 f_equal. lia. }
  assert (Ey : units k y = signed y * 10 ^ (Exponent y - s) * 10 ^ (s + k)).
  { unfold units. rewrite <- Z.mul_assoc, <- Z.pow_add_r by (unfold s; lia).
    do 2 f_equal. lia. }
  rewrite Ex, Ey. unfold Cmp. fold s.
  destruct (Z.compare_spec (signed x * 10 ^ (Exponent x - s))
                           (signed y * 10 ^ (Exponent y - s))) as [E|E|E].
  - rewrite E. symmetry. apply Z.ltb_irrefl.
  - symmetry. apply Z.ltb_lt. now apply Z.mul_lt_mono_pos_r.
  - symmetry. apply Z.ltb_ge. apply Z.lt_le_incl. now apply Z.mul_lt_mono_pos_r.
Qed.

Lemma sum_insert_fresh f (M : gmap Z Merchant) id m :
  M !! id = None -> sum_over f (<[id := m]> M) = f m + sum_over f M.
Proof.
  intros H. unfold sum_over.
  rewrite (map_fold_insert_L (fun _ m acc => f m + acc)); [reflexivity| |assumption].
  intros. lia.
Qed.

Lemma sum_insert f (M : gmap Z Merchant) id m0 m :
  M !! id = Some m0 -> sum_over f (<[id := m]> M) = sum_over f M - f m0 + f m.
Proof.
  intros H.
  rewrite <- (insert_delete_eq M id m).
  rewrite <- (insert_id M id m0 H) at 2.
  rewrite <- (insert_delete_eq M id m0).
  rewrite !sum_insert_fresh by apply lookup_delete_eq. lia.
Qed.

Lemma sum_nonneg f (M : gmap Z Merchant) :
  (forall id m, M !! id = Some m -> 0 <= f m) -> 0 <= sum_over f M.
Proof.
  induction M as [|id m M Hid IH] using map_ind; intros H.
  - unfold sum_over. rewrite map_fold_empty. lia.
  - rewrite sum_insert_fresh by assumption.
    assert (0 <= f m) by (apply (H id); apply lookup_insert_eq).
    assert (0 <= sum_over f M).
    { apply IH. intros j mj Hj. apply (H j). rewrite lookup_insert_ne; [assumption|].
      intros ->. congruence. }
    lia.
Qed.

Lemma sum_lookup f (M : gmap Z Merchant) id m :
  (forall id m, M !! id = Some m -> 0 <= f m) -> M !! id = Some m -> f m <= sum_over f M.
Proof.
  intros H Hm.
  rewrite <- (insert_id M id m Hm), <- (insert_delete_eq M id m).
  rewrite sum_insert_fresh by apply lookup_delete_eq.
  assert (0 <= sum_over f (delete id M)).
  { apply sum_nonneg. intros j mj Hj. apply (H j).
    apply lookup_delete_Some in Hj. tauto. }
  lia.
Qed.

Lemma units_nonneg k d : 0 <= Exponent d + k -> (0 <= units k d <-> 0 <= signed d).
Proof.
  intros H. unfold units.
  assert (0 < 10 ^ (Exponent d + k)) by (apply Z.pow_pos_nonneg; lia). nia.
Qed.

Lemma units_zero k : 0 <= k -> ordinary k (New 0 0) = true /\ units k (New 0 0) = 0.
Proof.
  intros H. split.
  - apply ordinary_bounds. cbn. lia.
  - unfold units. cbn. lia.
Qed.

Lemma ordinary_account_bounds k a :
  ordinary_account k a ->
  0 <= units k (Blocked a) /\ 0 <= captured_units k (Merchants a) /\
  (forall id m, Merchants a !! id = Some m ->
     units k (Merchant_Available m) <= units k (Blocked a) /\
     units k (Merchant_Captured m) <= captured_units k (Merchants a)).
Proof.
  intros (_ & _ & _ & Hb & HM & _).
  assert (HA : forall id m, Merchants a !! id = Some m -> 0 <= units k (Merchant_Available m))
    by (intros id m Hm; apply (HM id m Hm)).
  assert (HC : forall id m, Merchants a !! id = Some m -> 0 <= units k (Merchant_Captured m))
    by (intros id m Hm; apply (HM id m Hm)).
  rewrite Hb. split; [now apply sum_nonneg|]. split; [now apply sum_nonneg|].
  intros id m Hm. split.
  - exact (sum_lookup (fun m => units k (Merchant_Available m)) _ id m HA Hm).
  - exact (sum_lookup (fun m => units k (Merchant_Captured m)) _ id m HC Hm).
Qed.

Lemma ordinary_merchants_insert k (M : gmap Z Merchant) id m :
  (forall j mj, M !! j = Some mj -> ordinary_merchant k mj) ->
  ordinary_merchant k m ->
  forall j mj, <[id := m]> M !! j = Some mj -> ordinary_merchant k mj.
Proof.
  intros HM Hm j mj. destruct (decide (id = j)) as [->|Hne].
  - rewrite lookup_insert_eq. now intros [= <-].
  - rewrite lookup_insert_ne by assumption. apply HM.
Qed.

Ltac use_add k d x y sub Hk d' E O U :=
  let Hfit := fresh "Hfit" in
  assert (Hfit : Z.abs (if sub then units k x - units k y else units k x + units k y) < 10 ^ 16);
  [ cbv iota; lia
  | destruct (add_ordinary k d x y sub Hk ltac:(assumption) ltac:(assumption) Hfit)
      as (d' & E & O & U); cbv iota in U; clear Hfit ].

Lemma account_intro k a :
  ordinary k (Available a) = true -> ordinary k (Blocked a) = true ->
  0 <= units k (Available a) ->
  units k (Blocked a) = held_units k (Merchants a) ->
  (forall id m, Merchants a !! id = Some m -> ordinary_merchant k m) ->
  money k a < 10 ^ 16 ->
  ordinary_account k a.
Proof. unfold ordinary_account. tauto. Qed.

Lemma ordinary_step (k : Z) (a : Account) (r : Request) :
  0 <= k <= MaxExponent ->
  ordinary_account k a -> ordinary_request k r = true -> sufficient k a r = true ->
  exists a',
    perform a r = (a', Returns None) /\
    ordinary_account k a' /\
    exact_call a r = true /\
    money k a' = money k a + loaded_units k r /\
    (forall amount, Request_Amount r = Some amount -> 0 <= units k amount < 10 ^ 16).
Proof.
  intros Hk HA Hr Hs.
  destruct r as [op id [amount|]]; [|discriminate].
  unfold ordinary_request in Hr. cbn [Request_Amount] in Hr.
  apply andb_true_iff in Hr as [Ho Hnn]. apply Z.leb_le in Hnn.
  pose proof (proj1 (ordinary_bounds k amount) Ho) as Hoe.
  apply (units_nonneg k) in Hnn; [|lia].
  pose proof (ordinary_account_bounds k a HA) as (Hbn & Hcn & Hlook).
  destruct HA as (Ha & Hb & Han & Hbl & HM & Hmon). unfold money in Hmon.
  unfold sufficient in Hs. cbn [Request_Amount Request_Op Request_MerchantID] in Hs.
  unfold loaded_units, exact_call. cbn [Request_Amount Request_Op Request_MerchantID].
  destruct op.
  - (* Load *)
    apply Z.ltb_lt in Hs. unfold money in Hs.
    use_add k (Available a) (Available a) amount false Hk d1 E1 O1 U1.
    eexists. split; [ops; unfold Add; rewrite E1; reflexivity|].
    split; [|split; [|split]]; [| | |intros ? [= <-]; lia].
    + apply account_intro; unfold money; fields; try assumption; lia.
    + cbv zeta. unfold Add. rewrite E1. reflexivity.
    + unfold money. fields. lia.
  - (* Authorize *)
    apply Z.leb_le in Hs.
    use_add k (Available a) (Available a) amount true Hk d1 E1 O1 U1.
    use_add k (Blocked a) (Blocked a) amount false Hk d2 E2 O2 U2.
    destruct (Merchants a !! id) as [m|] eqn:Hm.
    + destruct (HM id m Hm) as (Oa & Oc & Na & Nc).
      destruct (Hlook id m Hm) as [Lh Lc].
      use_add k (Merchant_Available m) (Merchant_Available m) amount false Hk d3 E3 O3 U3.
      eexists. split.
      { ops. rewrite (Cmp_units k) by assumption. rewrite (ltb_false _ _ Hs).
        cbv zeta. unfold Sub, Add. rewrite E1. fields. rewrite E2. fields.
        rewrite Hm. rewrite E3. reflexivity. }
      split; [|split; [|split]]; [| | |intros ? [= <-]; lia].
      * apply account_intro; unfold money, held_units, captured_units; fields.
        all: rewrite ?insert_insert_eq, ?(sum_insert _ _ _ _ _ Hm), ?(sum_insert_fresh _ _ _ _ Hm);
          fields; unfold held_units, captured_units in *; try assumption; try lia.
        apply ordinary_merchants_insert; [assumption|].
        unfold ordinary_merchant; fields. repeat split; try assumption; lia.
      * cbv zeta. unfold hold. rewrite Hm. unfold Sub, Add. rewrite E1, E2, E3. reflexivity.
      * unfold money, captured_units. fields. rewrite !(sum_insert _ _ _ _ _ Hm). fields. lia.
    + destruct (units_zero k (proj1 Hk)) as [Oz Uz].
      use_add k (New 0 0) (New 0 0) amount false Hk d3 E3 O3 U3.
      eexists. split.
      { ops. rewrite (Cmp_units k) by assumption. rewrite (ltb_false _ _ Hs).
        cbv zeta. unfold Sub, Add. rewrite E1. fields. rewrite E2. fields.
        rewrite Hm. fields. rewrite E3. reflexivity. }
      split; [|split; [|split]]; [| | |intros ? [= <-]; lia].
      * apply account_intro; unfold money, held_units, captured_units; fields.
        all: rewrite ?insert_insert_eq, ?(sum_insert _ _ _ _ _ Hm), ?(sum_insert_fresh _ _ _ _ Hm);
          fields; unfold held_units, captured_units in *; try assumption; try lia.
        apply ordinary_merchants_insert; [assumption|].
        unfold ordinary_merchant; fields. repeat split; try assumption; lia.
      * cbv zeta. unfold hold. rewrite Hm. unfold Sub, Add. rewrite E1, E2, E3. reflexivity.
      * unfold money, captured_units. fields. rewrite insert_insert_eq.
        rewrite !(sum_insert_fresh _ _ _ _ Hm). fields. lia.
  - (* Capture *)
    destruct (Merchants a !! id) as [m|] eqn:Hm; [|discriminate].
    apply Z.leb_le in Hs.
    destruct (HM id m Hm) as (Oa & Oc & Na & Nc).
    destruct (Hlook id m Hm) as [Lh Lc].
    use_add k (Merchant_Available m) (Merchant_Available m) amount true Hk d1 E1 O1 U1.
    use_add k (Merchant_Captured m) (Merchant_Captured m) amount false Hk d2 E2 O2 U2.
    use_add k (Blocked a) (Blocked a) amount true Hk d3 E3 O3 U3.
    eexists. split.
    { ops. rewrite Hm. rewrite (Cmp_units k) by assumption. rewrite (ltb_false _ _ Hs).
      cbv zeta. unfold Sub, Add. rewrite E1. fields. rewrite E2. fields.
      rewrite E3. reflexivity. }
    split; [|split; [|split]]; [| | |intros ? [= <-]; lia].
    + apply account_intro; unfold money, held_units, captured_units; fields.
      all: rewrite ?insert_insert_eq, ?(sum_insert _ _ _ _ _ Hm), ?(sum_insert_fresh _ _ _ _ Hm);
        fields; unfold held_units, captured_units in *; try assumption; try lia.
      apply ordinary_merchants_insert; [assumption|].
      unfold ordinary_merchant; fields. repeat split; try assumption; lia.
    + cbv zeta. unfold hold, captured. rewrite Hm. unfold Sub, Add.
      rewrite E1, E2, E3. reflexivity.
    + unfold money, captured_units. fields. rewrite !insert_insert_eq.
      rewrite !(sum_insert _ _ _ _ _ Hm). fields. lia.
  - (* Reverse *)
    destruct (Merchants a !! id) as [m|] eqn:Hm; [|discriminate].
    apply Z.leb_le in Hs.
    destruct (HM id m Hm) as (Oa & Oc & Na & Nc).
    destruct (Hlook id m Hm) as [Lh Lc].
    use_add k (Merchant_Available m) (Merchant_Available m) amount true Hk d1 E1 O1 U1.
    use_add k (Blocked a) (Blocked a) amount true Hk d2 E2 O2 U2.
    use_add k (Available a) (Available a) amount false Hk d3 E3 O3 U3.
    eexists. split.
    { ops. rewrite Hm. rewrite (Cmp_units k) by assumption. rewrite (ltb_false _ _ Hs).
      cbv zeta. unfold Sub, Add. rewrite E1. fields. rewrite E2. fields.
      rewrite E3. reflexivity. }
    split; [|split; [|split]]; [| | |intros ? [= <-]; lia].
    + apply account_intro; unfold money, held_units, captured_units; fields.
      all: rewrite ?insert_insert_eq, ?(sum_insert _ _ _ _ _ Hm), ?(sum_insert_fresh _ _ _ _ Hm);
        fields; unfold held_units, captured_units in *; try assumption; try lia.
      apply ordinary_merchants_insert; [assumption|].
      unfold ordinary_merchant; fields. repeat split; try assumption; lia.
    + cbv zeta. unfold hold, captured. rewrite Hm. unfold Sub, Add.
      rewrite E1, E2, E3. reflexivity.
    + unfold money, captured_units. fields.
      rewrite !(sum_insert _ _ _ _ _ Hm). fields. lia.
  - (* Refund *)
    destruct (Merchants a !! id) as [m|] eqn:Hm; [|discriminate].
    apply Z.leb_le in Hs.
    destruct (HM id m Hm) as (Oa & Oc & Na & Nc).
    destruct (Hlook id m Hm) as [Lh Lc].
    use_add k (Merchant_Captured m) (Merchant_Captured m) amount true Hk d1 E1 O1 U1.
    use_add k (Available a) (Available a) amount false Hk d2 E2 O2 U2.
    eexists. split.
    { ops. rewrite Hm. rewrite (Cmp_units k) by assumption. rewrite (ltb_false _ _ Hs).
      cbv zeta. unfold Sub, Add. rewrite E1. fields. rewrite E2. reflexivity. }
    split; [|split; [|split]]; [| | |intros ? [= <-]; lia].
    + apply account_intro; unfold money, held_units, captured_units; fields.
      all: rewrite ?insert_insert_eq, ?(sum_insert _ _ _ _ _ Hm), ?(sum_insert_fresh _ _ _ _ Hm);
        fields; unfold held_units, captured_units in *; try assumption; try lia.
      apply ordinary_merchants_insert; [assumption|].
      unfold ordinary_merchant; fields. repeat split; try assumption; lia.
    + cbv zeta. unfold hold, captured. rewrite Hm. unfold Sub, Add.
      rewrite E1, E2. reflexivity.
    + unfold money, captured_units. fields.
      rewrite !(sum_insert _ _ _ _ _ Hm). fields. lia.
Qed.

Lemma insufficient_step (k : Z) (a : Account) (r : Request) :
  0 <= k <= MaxExponent ->
  ordinary_account k a -> ordinary_request k r = true -> sufficient k a r = false ->
  Request_Op r <> Load ->
  perform a r =
    (a, Returns (Some (match Request_Op r, Merchants a !! Request_MerchantID r with
                       | Authorize, _ => ErrUnderflow
                       | _, Some _ => ErrUnderflow
                       | _, None => merchantNotFound (Request_MerchantID r)
                       end))).
Proof.
  intros Hk HA Hr Hs Hop.
  destruct r as [op id [amount|]]; [|discriminate].
  unfold ordinary_request in Hr. cbn [Request_Amount] in Hr.
  apply andb_true_iff in Hr as [Ho _].
  destruct HA as (Ha & Hb & Han & Hbl & HM & Hmon).
  unfold sufficient in Hs. cbn [Request_Amount Request_Op Request_MerchantID] in *.
  destruct op; [congruence| | | |]; ops.
  - rewrite (Cmp_units k) by assumption.
    apply Z.leb_gt in Hs. apply Z.ltb_lt in Hs. rewrite Hs. reflexivity.
  - destruct (Merchants a !! id) as [m|] eqn:Hm; [|reflexivity].
    destruct (HM id m Hm) as (Oa & Oc & _).
    rewrite (Cmp_units k) by assumption.
    apply Z.leb_gt in Hs. apply Z.ltb_lt in Hs. rewrite Hs. reflexivity.
  - destruct (Merchants a !! id) as [m|] eqn:Hm; [|reflexivity].
    destruct (HM id m Hm) as (Oa & Oc & _).
    rewrite (Cmp_units k) by assumption.
    apply Z.leb_gt in Hs. apply Z.ltb_lt in Hs. rewrite Hs. reflexivity.
  - destruct (Merchants a !! id) as [m|] eqn:Hm; [|reflexivity].
    destruct (HM id m Hm) as (Oa & Oc & _).
    rewrite (Cmp_units k) by assumption.
    apply Z.leb_gt in Hs. apply Z.ltb_lt in Hs. rewrite Hs. reflexivity.
Qed.

Lemma ordinary_new k id : 0 <= k -> ordinary_account k (NewAccount id).
Proof.
  intros Hk. destruct (units_zero k Hk) as [Oz Uz].
  apply account_intro; unfold money, held_units, captured_units, sum_over; cbn [NewAccount Available Blocked Merchants];
    rewrite ?map_fold_empty, ?Uz; try assumption; try lia.
  intros j m Hj. rewrite lookup_empty in Hj. discriminate.
Qed.

(** X10.  On an account in ordinary state (balances with at most k
    fraction digits, none negative, blocked equal to the sum of the
    holds, less than 10^16 units in all) a call with an ordinary,
    non-negative amount is all or nothing.  If its precondition holds
    (room below 10^16 for Load, amount <= available for Authorize, an
    existing merchant with amount <= hold for Capture and Reverse, with
    amount <= captured for Refund) the call returns nil, none of its
    additions and subtractions is inexact, the account is again in
    ordinary state and its money has grown by the amount loaded.
    Otherwise a call other than Load returns ErrUnderflow or
    MerchantNotFound and leaves the account exactly as it was: no
    arithmetic error and no half-done update arises. *)
Theorem ordinary_call_all_or_nothing (k : Z) (a : Account) (r : Request) :
  0 <= k <= MaxExponent ->
  ordinary_account k a -> ordinary_request k r = true ->
  if sufficient k a r
  then exists a',
         perform a r = (a', Returns None) /\ ordinary_account k a' /\
         exact_call a r = true /\ money k a' = money k a + loaded_units k r
  else Request_Op r <> Load ->
       exists e, perform a r = (a, Returns (Some e)) /\
                 (e = ErrUnderflow \/ e = merchantNotFound (Request_MerchantID r)).
Proof.
  intros Hk HA Hr. destruct (sufficient k a r) eqn:Hs.
  - destruct (ordinary_step k a r Hk HA Hr Hs) as (a' & H1 & H2 & H3 & H4 & _). eauto.
  - intros Hop. rewrite (insufficient_step k a r Hk HA Hr Hs Hop).
    eexists. split; [reflexivity|].
    destruct (Request_Op r), (Merchants a !! Request_MerchantID r); auto; congruence.
Qed.


Lemma loaded_units_nonneg k r :
  0 <= k -> ordinary_request k r = true -> 0 <= loaded_units k r.
Proof.
  intros Hk. unfold ordinary_request, loaded_units.
  destruct (Request_Amount r) as [amount|]; [|discriminate].
  intros H. apply andb_true_iff in H as [Ho Hnn].
  apply ordinary_bounds in Ho. apply Z.leb_le in Hnn.
  destruct (Request_Op r); try lia. apply units_nonneg; lia.
Qed.

Lemma loaded_units_total_nonneg k rs :
  0 <= k -> forallb (ordinary_request k) rs = true -> 0 <= loaded_units_total k rs.
Proof.
  intros Hk. induction rs as [|r rs IH]; cbn [forallb loaded_units_total fold_right]; [lia|].
  intros H. apply andb_true_iff in H as [H1 H2].
  pose proof (loaded_units_nonneg k r Hk H1). specialize (IH H2).
  fold (loaded_units_total k rs). lia.
Qed.

Lemma ordinary_balance (k : Z) (a : Account) :
  0 <= k <= MaxExponent ->
  ordinary_account k a ->
  exists t,
    Add getContext (New 0 0) (Available a) (Blocked a) = (t, 0%N, None) /\
    ordinary k t = true /\
    units k t = units k (Available a) + units k (Blocked a).
Proof.
  intros Hk HA.
  pose proof (ordinary_account_bounds k a HA) as (Hbn & Hcn & _).
  destruct HA as (Ha & Hb & Han & _ & _ & Hmon). unfold money in Hmon.
  use_add k (New 0 0) (Available a) (Blocked a) false Hk t E Ot Ut.
  exists t. split; [exact E|split; assumption].
Qed.

Lemma ordinary_after_all (k : Z) (rs : list Request) : forall a : Account,
  0 <= k <= MaxExponent ->
  ordinary_account k a -> ordinary_log k a = true ->
  forallb (ordinary_request k) rs = true ->
  money k a + loaded_units_total k rs < 10 ^ 16 ->
  ordinary_account k (after_all a rs) /\
  ordinary_log k (after_all a rs) = true /\
  money k (after_all a rs) <= money k a + loaded_units_total k rs.
Proof.
  induction rs as [|r rs IH]; intros a Hk HA HL Hrs Hroom.
  - cbn. split; [assumption|]. split; [assumption|]. lia.
  - cbn [forallb] in Hrs. apply andb_true_iff in Hrs as [Hr Hrs].
    change (loaded_units_total k (r :: rs))
      with (loaded_units k r + loaded_units_total k rs) in *.
    change (after_all a (r :: rs)) with (after_all (after a r) rs).
    pose proof (loaded_units_nonneg k r (proj1 Hk) Hr) as Hl.
    pose proof (loaded_units_total_nonneg k rs (proj1 Hk) Hrs) as Hls.
    destruct (sufficient k a r) eqn:Hs.
    + destruct (ordinary_step k a r Hk HA Hr Hs) as (a' & Hp & HA' & _ & Hm & Hamt).
      unfold after. pose proof (perform_log a r) as Hlog. rewrite Hp in *. cbn [fst snd] in *.
      assert (HL' : ordinary_log k a' = true).
      { unfold ordinary_log. unfold ordinary_request in Hr.
        destruct (Request_Amount r) as [amount|]; [|discriminate].
        rewrite Hlog, forallb_app. fold (ordinary_log k a). rewrite HL.
        cbn [forallb andb]. rewrite andb_true_r.
        unfold ordinary_entry, entry. cbn [Amount].
        apply andb_true_iff in Hr as [-> _].
        destruct (Hamt amount eq_refl) as [H1 H2].
        apply Z.leb_le in H1. apply Z.ltb_lt in H2. now rewrite H1, H2. }
      destruct (IH a' Hk HA' HL' Hrs ltac:(lia)) as (H1 & H2 & H3).
      split; [assumption|]. split; [assumption|]. lia.
    + assert (Hdec : Request_Op r = Load \/ Request_Op r <> Load)
        by (destruct (Request_Op r); auto; right; discriminate).
      destruct Hdec as [Hop|Hop].
      * exfalso. unfold sufficient, loaded_units, ordinary_request in *.
        destruct (Request_Amount r) as [amount|]; [|discriminate].
        rewrite Hop in *. apply Z.ltb_ge in Hs. lia.
      * unfold after. rewrite (insufficient_step k a r Hk HA Hr Hs Hop). cbn [fst].
        destruct (IH a Hk HA HL Hrs ltac:(lia)) as (H1 & H2 & H3).
        split; [assumption|]. split; [assumption|]. lia.
Qed.

Lemma ordinary_call_witness :
  exists a',
    perform (after_all (NewAccount 0) capture_setup) (req Capture 1 15 (-1)) =
      (a', Returns None) /\
    ordinary_account 2 a' /\
    exact_call (after_all (NewAccount 0) capture_setup) (req Capture 1 15 (-1)) = true /\
    money 2 a' = money 2 (after_all (NewAccount 0) capture_setup)
                 + loaded_units 2 (req Capture 1 15 (-1)).
Proof.
  assert (Hk : 0 <= 2 <= MaxExponent) by (unfold MaxExponent; lia).
  assert (HA : ordinary_account 2 (after_all (NewAccount 0) capture_setup)).
  { apply (ordinary_after_all 2 capture_setup (NewAccount 0) Hk
             (ordinary_new 2 0 (proj1 Hk))); vm_compute; reflexivity. }
  assert (Hs : sufficient 2 (after_all (NewAccount 0) capture_setup)
                 (req Capture 1 15 (-1)) = true) by (vm_compute; reflexivity).
  pose proof (ordinary_call_all_or_nothing 2 (after_all (NewAccount 0) capture_setup)
                (req Capture 1 15 (-1)) Hk HA eq_refl) as H.
  rewrite Hs in H. exact H.
Defined.

(** ** Requests for exactly the quantity they draw on *)

Lemma units_of_equal_values (k : Z) (x y : Decimal) :
  ordinary k x = true -> ordinary k y = true ->
  dvalue x = dvalue y -> units k x = units k y.
Proof.
  intros Hx Hy Hv.
  pose proof (proj2 (Cmp_eq x y) Hv) as H1.
  pose proof (proj2 (Cmp_eq y x) (eq_sym Hv)) as H2.
  pose proof (Cmp_units k x y Hx Hy) as U1.
  pose proof (Cmp_units k y x Hy Hx) as U2.
  rewrite H1 in U1. rewrite H2 in U2.
  change (0 <? 0) with false in U1, U2.
  symmetry in U1, U2. apply Z.ltb_ge in U1, U2. lia.
Qed.

(** A request for exactly the quantity it draws on, on an account in
    ordinary state: the request is ordinary and its precondition holds. *)
Lemma boundary_request (k : Z) (a : Account) (op : Operation) (id : Z)
    (amount quantity : Decimal) :
  0 <= k <= MaxExponent ->
  ordinary_account k a -> ordinary k amount = true ->
  ordinary k quantity = true -> 0 <= units k quantity ->
  dvalue quantity = dvalue amount ->
  match op with
  | Load => False
  | Authorize => quantity = Available a
  | Capture | Reverse =>
      exists m, Merchants a !! id = Some m /\ quantity = Merchant_Available m
  | Refund => exists m, Merchants a !! id = Some m /\ quantity = Merchant_Captured m
  end ->
  exists a',
    perform a {| Request_Op := op; Request_MerchantID := id;
                 Request_Amount := Some amount |} = (a', Returns None).
Proof.
  intros Hk HA Ho Hq Hq0 Hv Hop.
  pose proof (units_of_equal_values k quantity amount Hq Ho Hv) as Hu.
  pose proof (proj1 (ordinary_bounds k amount) Ho) as Hoe.
  assert (Hr : ordinary_request k {| Request_Op := op; Request_MerchantID := id;
                                     Request_Amount := Some amount |} = true).
  { unfold ordinary_request. cbn [Request_Amount]. rewrite Ho. cbn [andb].
    apply Z.leb_le. apply (units_nonneg k); lia. }
  assert (Hs : sufficient k a {| Request_Op := op; Request_MerchantID := id;
                                 Request_Amount := Some amount |} = true).
  { unfold sufficient. cbn [Request_Amount Request_Op Request_MerchantID].
    destruct op; [contradiction| | | |].
    - subst quantity. apply Z.leb_le. lia.
    - destruct Hop as (m & -> & ->). apply Z.leb_le. lia.
    - destruct Hop as (m & -> & ->). apply Z.leb_le. lia.
    - destruct Hop as (m & -> & ->). apply Z.leb_le. lia. }
  destruct (ordinary_step k a _ Hk HA Hr Hs) as (a' & Hp & _). eauto.
Qed.

(** C5, as amended.  Authorize returns ErrUnderflow exactly when
    available < amount; Capture and Reverse return ErrUnderflow exactly
    when the merchant exists and merchant.available < amount; Refund
    returns ErrUnderflow exactly when the merchant exists and
    merchant.captured < amount.  On an account in ordinary state (balances
    with at most k fraction digits, none negative, blocked equal to the
    sum of the holds, less than 10^16 units in all) a request with an
    ordinary amount exactly equal to the relevant quantity succeeds and
    leaves that quantity at exactly zero.  On any account such a request
    does not return ErrUnderflow, and whenever it succeeds it leaves the
    quantity at exactly zero; outside the ordinary state it can fail with
    an error of the decimal context. *)
Theorem underflow_exactly_when_insufficient (a : Account) (id : Z) (amount : Decimal) :
  (snd (Account_Authorize a id (Some amount)) = Returns (Some ErrUnderflow) <->
   (dvalue (Available a) < dvalue amount)%Qc) /\
  (snd (Account_Capture a id (Some amount)) = Returns (Some ErrUnderflow) <->
   exists m, Merchants a !! id = Some m /\
             (dvalue (Merchant_Available m) < dvalue amount)%Qc) /\
  (snd (Account_Reverse a id (Some amount)) = Returns (Some ErrUnderflow) <->
   exists m, Merchants a !! id = Some m /\
             (dvalue (Merchant_Available m) < dvalue amount)%Qc) /\
  (snd (Account_Refund a id (Some amount)) = Returns (Some ErrUnderflow) <->
   exists m, Merchants a !! id = Some m /\
             (dvalue (Merchant_Captured m) < dvalue amount)%Qc) /\
  (forall k, 0 <= k <= MaxExponent ->
     ordinary_account k a -> ordinary k amount = true ->
     (dvalue (Available a) = dvalue amount ->
        exists a', Account_Authorize a id (Some amount) = (a', Returns None) /\
                   dvalue (Available a') = 0%Qc) /\
     (forall m, Merchants a !! id = Some m ->
        dvalue (Merchant_Available m) = dvalue amount ->
        (exists a', Account_Capture a id (Some amount) = (a', Returns None) /\
                    dvalue (hold a' id) = 0%Qc) /\
        (exists a', Account_Reverse a id (Some amount) = (a', Returns None) /\
                    dvalue (hold a' id) = 0%Qc)) /\
     (forall m, Merchants a !! id = Some m ->
        dvalue (Merchant_Captured m) = dvalue amount ->
        exists a', Account_Refund a id (Some amount) = (a', Returns None) /\
                   dvalue (captured a' id) = 0%Qc)) /\
  (forall a', dvalue (Available a) = dvalue amount ->
     Account_Authorize a id (Some amount) = (a', Returns None) ->
     dvalue (Available a') = 0%Qc) /\
  (forall m a', Merchants a !! id = Some m ->
     dvalue (Merchant_Available m) = dvalue amount ->
     Account_Capture a id (Some amount) = (a', Returns None) ->
     dvalue (hold a' id) = 0%Qc) /\
  (forall m a', Merchants a !! id = Some m ->
     dvalue (Merchant_Available m) = dvalue amount ->
     Account_Reverse a id (Some amount) = (a', Returns None) ->
     dvalue (hold a' id) = 0%Qc) /\
  (forall m a', Merchants a !! id = Some m ->
     dvalue (Merchant_Captured m) = dvalue amount ->
     Account_Refund a id (Some amount) = (a', Returns None) ->
     dvalue (captured a' id) = 0%Qc).
Proof.
  assert (Z1 : forall a', dvalue (Available a) = dvalue amount ->
     Account_Authorize a id (Some amount) = (a', Returns None) ->
     dvalue (Available a') = 0%Qc).
  { intros a' Hv Hok.
    apply Authorize_success in Hok
      as (d1 & r1 & d2 & r2 & d3 & r3 & _ & E1 & _ & _ & ->).
    fields. apply zero_coeff_value. exact (Sub_equal_zero _ _ _ _ _ Hv E1). }
  assert (Z2 : forall m a', Merchants a !! id = Some m ->
     dvalue (Merchant_Available m) = dvalue amount ->
     Account_Capture a id (Some amount) = (a', Returns None) ->
     dvalue (hold a' id) = 0%Qc).
  { intros m a' Hm Hv Hok.
    apply Capture_success in Hok
      as (m0 & d1 & r1 & d2 & r2 & d3 & r3 & Hm0 & _ & E1 & _ & _ & ->).
    assert (m0 = m) as -> by congruence.
    unfold hold. fields. rewrite lookup_insert_eq. fields.
    apply zero_coeff_value. exact (Sub_equal_zero _ _ _ _ _ Hv E1). }
  assert (Z3 : forall m a', Merchants a !! id = Some m ->
     dvalue (Merchant_Available m) = dvalue amount ->
     Account_Reverse a id (Some amount) = (a', Returns None) ->
     dvalue (hold a' id) = 0%Qc).
  { intros m a' Hm Hv Hok.
    apply Reverse_success in Hok
      as (m0 & d1 & r1 & d2 & r2 & d3 & r3 & Hm0 & _ & E1 & _ & _ & ->).
    assert (m0 = m) as -> by congruence.
    unfold hold. fields. rewrite lookup_insert_eq. fields.
    apply zero_coeff_value. exact (Sub_equal_zero _ _ _ _ _ Hv E1). }
  assert (Z4 : forall m a', Merchants a !! id = Some m ->
     dvalue (Merchant_Captured m) = dvalue amount ->
     Account_Refund a id (Some amount) = (a', Returns None) ->
     dvalue (captured a' id) = 0%Qc).
  { intros m a' Hm Hv Hok.
    apply Refund_success in Hok as (m0 & d1 & r1 & d2 & r2 & Hm0 & _ & E1 & _ & ->).
    assert (m0 = m) as -> by congruence.
    unfold captured. fields. rewrite lookup_insert_eq. fields.
    apply zero_coeff_value. exact (Sub_equal_zero _ _ _ _ _ Hv E1). }
  split; [apply Authorize_underflow|]. split; [apply Capture_underflow|].
  split; [apply Reverse_underflow|]. split; [apply Refund_underflow|].
  split; [|split; [exact Z1|split; [exact Z2|split; [exact Z3|exact Z4]]]].
  intros k Hk HA Ho. pose proof HA as (Ha & _ & Han & _ & HM & _).
  split; [|split].
  - intros Hv.
    destruct (boundary_request k a Authorize id amount (Available a) Hk HA Ho Ha Han Hv
                eq_refl) as [a' Hp].
    exists a'. split; [exact Hp|]. exact (Z1 a' Hv Hp).
  - intros m Hm Hv. destruct (HM id m Hm) as (Oa & _ & Na & _). split.
    + destruct (boundary_request k a Capture id amount (Merchant_Available m) Hk HA Ho Oa Na
                  Hv (ex_intro _ m (conj Hm eq_refl))) as [a' Hp].
      exists a'. split; [exact Hp|]. exact (Z2 m a' Hm Hv Hp).
    + destruct (boundary_request k a Reverse id amount (Merchant_Available m) Hk HA Ho Oa Na
                  Hv (ex_intro _ m (conj Hm eq_refl))) as [a' Hp].
      exists a'. split; [exact Hp|]. exact (Z3 m a' Hm Hv Hp).
  - intros m Hm Hv. destruct (HM id m Hm) as (_ & Oc & _ & Nc).
    destruct (boundary_request k a Refund id amount (Merchant_Captured m) Hk HA Ho Oc Nc
                Hv (ex_intro _ m (conj Hm eq_refl))) as [a' Hp].
    exists a'. split; [exact Hp|]. exact (Z4 m a' Hm Hv Hp).
Qed.

Lemma boundary_request_succeeds :
  dvalue (Available (after (NewAccount 0) (req Load 0 1000 (-2)))) = dvalue (New 10 0) /\
  (exists a',
     Account_Authorize (after (NewAccount 0) (req Load 0 1000 (-2))) 1 (Some (New 10 0)) =
       (a', Returns None) /\
     dvalue (Available a') = 0%Qc) /\
  (exists a',
     Account_Capture
       (after_all (NewAccount 0) [req Load 0 1000 (-2); req Authorize 1 1000 (-2)])
       1 (Some (New 10 0)) = (a', Returns None) /\
     dvalue (hold a' 1) = 0%Qc).
Proof.
  assert (Hk : 0 <= 2 <= MaxExponent) by (unfold MaxExponent; lia).
  assert (Hv : dvalue (New 1000 (-2)) = dvalue (New 10 0))
    by (apply Qc_is_canon; vm_compute; reflexivity).
  split; [exact Hv|]. split.
  - destruct (underflow_exactly_when_insufficient
                (after (NewAccount 0) (req Load 0 1000 (-2))) 1 (New 10 0))
      as (_ & _ & _ & _ & H & _).
    destruct (H 2 Hk) as (HA & _).
    + apply (ordinary_after_all 2 [req Load 0 1000 (-2)] (NewAccount 0) Hk
               (ordinary_new 2 0 (proj1 Hk)));
        vm_compute; reflexivity.
    + vm_compute. reflexivity.
    + exact (HA Hv).
  - destruct (underflow_exactly_when_insufficient
                (after_all (NewAccount 0) [req Load 0 1000 (-2); req Authorize 1 1000 (-2)])
                1 (New 10 0))
      as (_ & _ & _ & _ & H & _).
    destruct (H 2 Hk) as (_ & HC & _).
    + apply (ordinary_after_all 2 [req Load 0 1000 (-2); req Authorize 1 1000 (-2)]
               (NewAccount 0) Hk (ordinary_new 2 0 (proj1 Hk)));
        vm_compute; reflexivity.
    + vm_compute. reflexivity.
    + destruct (HC {| Merchant_Available := New 1000 (-2); Merchant_Captured := New 0 0 |})
        as [H1 _]; [vm_compute; reflexivity | exact Hv | exact H1].
Defined.

(** X11.  From a new account, any sequence of calls with ordinary,
    non-negative amounts whose Loads add up to less than 10^16 units,
    failing calls included, leaves the account in ordinary state: every
    balance is ordinary and not negative, blocked equals the sum of the
    merchants' holds, and the money held is at most what was loaded. *)
Theorem ordinary_ledger (k id : Z) (rs : list Request) :
  0 <= k <= MaxExponent ->
  forallb (ordinary_request k) rs = true ->
  loaded_units_total k rs < 10 ^ 16 ->
  ordinary_account k (after_all (NewAccount id) rs) /\
  money k (after_all (NewAccount id) rs) <= loaded_units_total k rs.
Proof.
  intros Hk Hrs Hroom.
  assert (Hm : money k (NewAccount id) = 0).
  { destruct (units_zero k (proj1 Hk)) as [_ Uz].
    unfold money, captured_units, sum_over. cbn [NewAccount Available Blocked Merchants].
    rewrite map_fold_empty, Uz. reflexivity. }
  destruct (ordinary_after_all k rs (NewAccount id) Hk (ordinary_new k id (proj1 Hk))
              eq_refl Hrs ltac:(lia)) as (H1 & _ & H3).
  split; [assumption|lia].
Qed.

Lemma ordinary_ledger_witness :
  ordinary_account 2 (after_all (NewAccount 0) statement_calls) /\
  money 2 (after_all (NewAccount 0) statement_calls) <= loaded_units_total 2 statement_calls.
Proof.
  apply (ordinary_ledger 2 0 statement_calls);
    [unfold MaxExponent; lia | vm_compute; reflexivity | vm_compute; reflexivity].
Defined.

(** X12.  Balance never fails on an account in ordinary state: it returns
    the available and the blocked balance as they are, and a total that
    is exactly their sum. *)
Theorem Balance_of_ordinary_account (k : Z) (a : Account) :
  0 <= k <= MaxExponent ->
  ordinary_account k a ->
  exists b,
    Account_Balance a = inl b /\
    Balance_Available b = Available a /\ Balance_Blocked b = Blocked a /\
    dvalue (Total b) = total a /\
    units k (Total b) = units k (Available a) + units k (Blocked a).
Proof.
  intros Hk HA. destruct (ordinary_balance k a Hk HA) as (t & E & Ot & Ut).
  exists {| Total := t; Balance_Available := Available a; Balance_Blocked := Blocked a |}.
  unfold Account_Balance. rewrite E. cbn [Total Balance_Available Balance_Blocked].
  repeat split; try assumption.
  exact (Add_value _ _ _ _ _ _ E eq_refl).
Qed.

Lemma Balance_witness :
  exists b,
    Account_Balance (after_all (NewAccount 0) statement_calls) = inl b /\
    Balance_Available b = Available (after_all (NewAccount 0) statement_calls) /\
    Balance_Blocked b = Blocked (after_all (NewAccount 0) statement_calls) /\
    dvalue (Total b) = total (after_all (NewAccount 0) statement_calls) /\
    units 2 (Total b) =
      units 2 (Available (after_all (NewAccount 0) statement_calls)) +
      units 2 (Blocked (after_all (NewAccount 0) statement_calls)).
Proof.
  assert (Hk : 0 <= 2 <= MaxExponent) by (unfold MaxExponent; lia).
  apply (Balance_of_ordinary_account 2 (after_all (NewAccount 0) statement_calls) Hk).
  apply (ordinary_after_all 2 statement_calls (NewAccount 0) Hk
           (ordinary_new 2 0 (proj1 Hk))); vm_compute; reflexivity.
Defined.

(** ** The statement on ordinary amounts *)

Lemma N_div_mod_Z (num den : N) :
  (0 < den)%N ->
  Z.of_N num = Z.of_N den * Z.of_N (num / den) + Z.of_N (num mod den) /\
  0 <= Z.of_N (num mod den) < Z.of_N den.
Proof.
  intros H. rewrite N2Z.inj_div, N2Z.inj_mod.
  split.
  - apply Z.div_mod. lia.
  - apply Z.mod_pos_bound. lia.
Qed.

Lemma round_half_even_error (num den : N) :
  (0 < den)%N ->
  2 * Z.abs (Z.of_N num - Z.of_N (float.round_half_even num den) * Z.of_N den) <= Z.of_N den.
Proof.
  intros H. destruct (N_div_mod_Z num den H) as [Hdm Hr].
  unfold float.round_half_even.
  destruct (N.compare_spec (2 * (num mod den)) den) as [E|E|E].
  - destruct (N.even (num / den)); lia.
  - nia.
  - nia.
Qed.

Lemma nearest_multiple (den q r n : Z) :
  0 <= r < den -> 2 * Z.abs (den * q + r - n * den) < den ->
  (2 * r < den -> q = n) /\ (den < 2 * r -> q + 1 = n) /\ 2 * r <> den.
Proof.
  intros Hr Hn.
  replace (den * q + r - n * den) with (den * (q - n) + r) in Hn by ring.
  destruct (Z.lt_trichotomy q n) as [Hlt|[Heq|Hgt]].
  - assert (den * (q - n) <= - den) by nia.
    assert (q - n = -1 \/ q - n <= -2) as [E|E] by lia.
    + rewrite E in *. repeat split; lia.
    + assert (den * (q - n) <= -2 * den) by nia. lia.
  - subst. rewrite Z.sub_diag, Z.mul_0_r in Hn. repeat split; lia.
  - assert (den <= den * (q - n)) by nia. lia.
Qed.

Lemma round_half_even_unique (num den n : N) :
  (0 < den)%N ->
  2 * Z.abs (Z.of_N num - Z.of_N n * Z.of_N den) < Z.of_N den ->
  float.round_half_even num den = n.
Proof.
  intros H Hn. destruct (N_div_mod_Z num den H) as [Hdm Hr].
  rewrite Hdm in Hn.
  destruct (nearest_multiple _ _ _ _ Hr Hn) as (H1 & H2 & H3).
  unfold float.round_half_even.
  destruct (N.compare_spec (2 * (num mod den)) den) as [E|E|E].
  - exfalso. lia.
  - apply N2Z.inj. lia.
  - apply N2Z.inj. lia.
Qed.

Lemma log2_bounds (a : N) :
  (0 < a)%N -> 2 ^ Z.of_N (N.log2 a) <= Z.of_N a < 2 ^ (Z.of_N (N.log2 a) + 1).
Proof.
  intros H. destruct (N.log2_spec a H) as [H1 H2].
  apply N2Z.inj_le in H1. apply N2Z.inj_lt in H2.
  rewrite N2Z.inj_pow in H1, H2. rewrite N2Z.inj_succ in H2.
  change (Z.of_N 2) with 2 in *. unfold Z.succ in H2. lia.
Qed.

Lemma pow2_lt_inv (a b : Z) : 0 <= a -> 0 <= b -> 2 ^ a < 2 ^ b -> a < b.
Proof.
  intros Ha Hb H. destruct (Z_lt_ge_dec a b) as [|Hge]; [assumption|].
  assert (2 ^ b <= 2 ^ a) by (apply Z.pow_le_mono_r; lia). lia.
Qed.

Lemma log2_upper (a : N) (k : Z) : 0 <= k -> Z.of_N a < 2 ^ k -> Z.of_N (N.log2 a) < Z.max k 1.
Proof.
  intros Hk H. destruct (N.eq_dec a 0%N) as [->|Ha]; [cbn; lia|].
  destruct (log2_bounds a ltac:(lia)) as [H1 _].
  assert (Z.of_N (N.log2 a) < k) by (apply pow2_lt_inv; lia). lia.
Qed.

(** The cents that [%.2f] prints for the binary64 nearest to n/100, when
    n/100 is below 2^46: they are n. *)
Lemma nearest_cents (s : bool) (p q n : N) :
  (0 < q <= 100)%N -> (100 * p = n * q)%N -> Z.of_N n < 100 * 2 ^ 46 ->
  exists f, float.nearest s p q = Some f /\
            float.neg f = s /\
            (if 0 <=? float.exp f
             then (float.mant f * 2 ^ Z.to_N (float.exp f) * 100)%N
             else float.round_half_even (float.mant f * 100) (2 ^ Z.to_N (- float.exp f))) = n.
Proof.
  intros Hq Hn Hb. unfold float.nearest.
  destruct (N.eqb_spec p 0) as [->|Hp].
  { eexists. split; [reflexivity|]. split; [reflexivity|]. cbn. nia. }
  assert (Hpq : Z.of_N p < Z.of_N q * 2 ^ 46) by nia.
  destruct (log2_bounds p ltac:(lia)) as [Hp1 Hp2].
  destruct (log2_bounds q ltac:(lia)) as [Hq1 Hq2].
  set (lp := Z.of_N (N.log2 p)) in *. set (lq := Z.of_N (N.log2 q)) in *.
  assert (Hlp : 0 <= lp) by (unfold lp; lia).
  assert (Hlq : 0 <= lq <= 6).
  { split; [unfold lq; lia|].
    assert (lq < 7); [|lia]. apply pow2_lt_inv; try (unfold lq; lia).
    change (2 ^ 7) with 128. lia. }
  assert (He0 : lp - lq <= 46).
  { assert (lp < lq + 1 + 46); [|lia]. apply pow2_lt_inv; try lia.
    rewrite (Z.pow_add_r 2 (lq + 1) 46) by lia. nia. }
  set (e0 := lp - lq) in *.
  set (above := if 0 <=? e0 then (q * 2 ^ Z.to_N e0 <=? p)%N
                else (q <=? p * 2 ^ Z.to_N (- e0))%N).
  set (e := if above then e0 else e0 - 1).
  assert (He : -7 <= e <= 45).
  { unfold e. destruct above eqn:Hab; [|lia].
    split; [lia|]. destruct (Z.eq_dec e0 46) as [E46|]; [|lia].
    exfalso. unfold above in Hab. rewrite E46 in Hab. cbn [Z.leb Z.compare] in Hab.
    apply N.leb_le in Hab. apply N2Z.inj_le in Hab.
    rewrite N2Z.inj_mul, N2Z.inj_pow in Hab. change (Z.of_N (Z.to_N 46)) with 46 in Hab.
    change (Z.of_N 2) with 2 in Hab. lia. }
  cbv zeta. fold lp lq e0 above e.
  rewrite Z.max_l by lia.
  rewrite (proj2 (Z.leb_gt 0 (e - 52))) by lia.
  set (t := e - 52) in *.
  set (D := (2 ^ Z.to_N (- t))%N).
  assert (HD : Z.of_N D = 2 ^ (- t)).
  { unfold D. rewrite N2Z.inj_pow, Z2N.id by lia. reflexivity. }
  assert (HD1 : 128 <= Z.of_N D <= 2 ^ 59).
  { rewrite HD. split.
    - change 128 with (2 ^ 7). apply Z.pow_le_mono_r; lia.
    - apply Z.pow_le_mono_r; lia. }
  set (m := float.round_half_even (p * D) q).
  pose proof (round_half_even_error (p * D) q ltac:(lia)) as Herr. fold m in Herr.
  rewrite N2Z.inj_mul in Herr.
  assert (Hm : Z.of_N m < 2 ^ 113).
  { assert (Z.of_N m * Z.of_N q <= Z.of_N p * Z.of_N D + Z.of_N q) by lia.
    assert (Z.of_N m <= Z.of_N p * Z.of_N D + 1) by nia.
    assert (Z.of_N p * Z.of_N D <= (100 * 2 ^ 46) * 2 ^ 59) by nia.
    change (2 ^ 113) with 10384593717069655257060992658440192.
    change (100 * 2 ^ 46 * 2 ^ 59) with 4056481920730334084789450257203200 in *. lia. }
  pose proof (log2_upper m 113 ltac:(lia) Hm) as Hlm.
  rewrite (proj2 (Z.leb_gt 1024 (t + Z.of_N (N.log2 m)))) by lia.
  eexists. split; [reflexivity|]. split; [reflexivity|].
  cbn [float.exp float.mant].
  rewrite (proj2 (Z.leb_gt 0 t)) by lia. fold D.
  apply round_half_even_unique; [lia|].
  rewrite N2Z.inj_mul. change (Z.of_N 100) with 100.
  assert (Hn' : 100 * Z.of_N p = Z.of_N n * Z.of_N q) by lia.
  assert (2 * Z.abs (Z.of_N m * 100 - Z.of_N n * Z.of_N D) <= 100); [|lia].
  assert (Hx : 100 * (Z.of_N p * Z.of_N D - Z.of_N m * Z.of_N q)
               = - (Z.of_N m * 100 - Z.of_N n * Z.of_N D) * Z.of_N q) by nia.
  nia.
Qed.

(** X13.  Statement prints an amount with at most two fraction digits
    exactly when it is below 2^46 = 70368744177664: the conversion to
    binary64 succeeds and the figure printed by [%.2f] is the sign, the
    whole part and the two digits of the cents of the decimal itself, so
    the binary rounding does not show. *)
Theorem cents_are_printed_exactly (d : Decimal) :
  - 2 <= Exponent d <= 0 ->
  Z.of_N (Coeff d) * 10 ^ (Exponent d + 2) < 100 * 2 ^ 46 ->
  exists f,
    float.Float64 d = Some f /\
    float.format_2f f =
      ((if Negative d then "-" else "") ++
       pretty ((Coeff d * 10 ^ Z.to_N (Exponent d + 2)) / 100)%N ++ "." ++
       (if ((Coeff d * 10 ^ Z.to_N (Exponent d + 2)) mod 100 <? 10)%N then "0" else "") ++
       pretty ((Coeff d * 10 ^ Z.to_N (Exponent d + 2)) mod 100)%N)%string.
Proof.
  intros He Hb.
  assert (Hf : exists f, float.Float64 d = Some f /\ float.neg f = Negative d /\
             (if 0 <=? float.exp f
              then (float.mant f * 2 ^ Z.to_N (float.exp f) * 100)%N
              else float.round_half_even (float.mant f * 100)
                     (2 ^ Z.to_N (- float.exp f))) =
             (Coeff d * 10 ^ Z.to_N (Exponent d + 2))%N).
  { unfold float.Float64.
    assert (Hcases : Exponent d = 0 \/ Exponent d = -1 \/ Exponent d = -2) by lia.
    destruct Hcases as [E|[E|E]]; rewrite E in *.
    - change (0 <=? 0) with true. cbv iota.
      change (Z.to_N 0) with 0%N. change (Z.to_N (0 + 2)) with 2%N.
      change (10 ^ 0)%N with 1%N. change (10 ^ 2)%N with 100%N.
      change (10 ^ (0 + 2)) with 100 in Hb.
      apply nearest_cents; lia.
    - change (0 <=? -1) with false. cbv iota.
      change (Z.to_N (- -1)) with 1%N. change (Z.to_N (-1 + 2)) with 1%N.
      change (10 ^ 1)%N with 10%N.
      change (10 ^ (-1 + 2)) with 10 in Hb.
      apply nearest_cents; lia.
    - change (0 <=? -2) with false. cbv iota.
      change (Z.to_N (- -2)) with 2%N. change (Z.to_N (-2 + 2)) with 0%N.
      change (10 ^ 0)%N with 1%N. change (10 ^ 2)%N with 100%N.
      change (10 ^ (-2 + 2)) with 1 in Hb.
      apply nearest_cents; lia. }
  destruct Hf as (f & Hf & Hs & Hc). exists f. split; [assumption|].
  unfold float.format_2f. cbv zeta. rewrite Hc, Hs. reflexivity.
Qed.

Lemma cents_are_printed_exactly_witness :
  exists f,
    float.Float64 (New 91575 (-2)) = Some f /\ float.format_2f f = "915.75"%string.
Proof.
  destruct (cents_are_printed_exactly (New 91575 (-2))) as (f & Hf & Hs);
    [cbn; lia | vm_compute; reflexivity |].
  exists f. split; [exact Hf|]. rewrite Hs. vm_compute. reflexivity.
Defined.

Lemma round_half_even_le (num den : N) :
  (0 < den)%N -> Z.of_N (float.round_half_even num den) <= Z.of_N num + 1.
Proof.
  intros H. pose proof (round_half_even_error num den H) as Herr. nia.
Qed.

Lemma nearest_total (s : bool) (p q : N) :
  (0 < q)%N -> Z.of_N p < 2 ^ 500 -> exists f, float.nearest s p q = Some f.
Proof.
  intros Hq Hb. unfold float.nearest.
  destruct (N.eqb_spec p 0) as [->|Hp]; [eauto|].
  destruct (log2_bounds p ltac:(lia)) as [Hp1 _].
  set (lp := Z.of_N (N.log2 p)) in *. set (lq := Z.of_N (N.log2 q)).
  assert (Hlp : 0 <= lp < 500).
  { split; [unfold lp; lia|]. apply pow2_lt_inv; try lia; unfold lp; lia. }
  assert (Hlq : 0 <= lq) by (unfold lq; lia).
  set (e0 := lp - lq).
  set (above := if 0 <=? e0 then (q * 2 ^ Z.to_N e0 <=? p)%N
                else (q <=? p * 2 ^ Z.to_N (- e0))%N).
  set (e := if above then e0 else e0 - 1).
  assert (He : e <= 499) by (unfold e, e0; destruct above; lia).
  cbv zeta. fold lp lq e0 above e.
  set (t := Z.max e (-1022) - 52).
  assert (Ht : t <= 447) by (unfold t; lia).
  destruct (Z.leb_spec 0 t) as [Ht0|Ht0].
  - set (m := float.round_half_even p (q * 2 ^ Z.to_N t)).
    assert (Hden : (0 < q * 2 ^ Z.to_N t)%N).
    { apply N.mul_pos_pos; [assumption|]. apply N.neq_0_lt_0, N.pow_nonzero. discriminate. }
    pose proof (round_half_even_le p _ Hden) as Hm. fold m in Hm.
    assert (Hm' : Z.of_N m < 2 ^ 501).
    { change (2 ^ 501) with (2 * 2 ^ 500). lia. }
    pose proof (log2_upper m 501 ltac:(lia) Hm') as Hlm.
    rewrite (proj2 (Z.leb_gt 1024 (t + Z.of_N (N.log2 m)))) by lia. eauto.
  - set (m := float.round_half_even (p * 2 ^ Z.to_N (- t)) q).
    pose proof (round_half_even_le (p * 2 ^ Z.to_N (- t)) q Hq) as Hm. fold m in Hm.
    rewrite N2Z.inj_mul, N2Z.inj_pow, Z2N.id in Hm by lia. change (Z.of_N 2) with 2 in Hm.
    assert (Hpow : 0 < 2 ^ (- t)) by (apply Z.pow_pos_nonneg; lia).
    assert (Hm' : Z.of_N m < 2 ^ (501 - t)).
    { replace (501 - t) with (1 + 500 + - t) by lia.
      rewrite !Z.pow_add_r by lia. change (2 ^ 1) with 2. nia. }
    pose proof (log2_upper m (501 - t) ltac:(lia) Hm') as Hlm.
    rewrite (proj2 (Z.leb_gt 1024 (t + Z.of_N (N.log2 m)))) by lia. eauto.
Qed.

Lemma Float64_total (d : Decimal) :
  Exponent d <= 0 -> Z.of_N (Coeff d) < 2 ^ 500 -> exists f, float.Float64 d = Some f.
Proof.
  intros He Hc. unfold float.Float64.
  destruct (Z.leb_spec 0 (Exponent d)) as [H0|H0].
  - assert (Exponent d = 0) as -> by lia. apply nearest_total; [lia|].
    change (10 ^ Z.to_N 0)%N with 1%N. lia.
  - apply nearest_total; [|assumption].
    apply N.neq_0_lt_0, N.pow_nonzero. discriminate.
Qed.

Lemma rows_total (ts : list Transaction) :
  Forall (fun v => exists f, float.Float64 (Amount v) = Some f) ts ->
  forall i, exists s, rows i ts = Some s.
Proof.
  induction 1 as [|v ts [f Hf] _ IH]; intros i; cbn [rows]; [eauto|].
  rewrite Hf. destruct (IH (i + 1)) as [s ->]. eauto.
Qed.

Lemma ordinary_coeff k d :
  0 <= k -> ordinary k d = true -> Z.abs (units k d) < 10 ^ 16 ->
  Exponent d <= 0 /\ Z.of_N (Coeff d) < 2 ^ 500.
Proof.
  intros Hk Ho Hu. apply ordinary_bounds in Ho. split; [lia|].
  unfold units in Hu. rewrite Z.abs_mul in Hu.
  assert (1 <= 10 ^ (Exponent d + k)) by (apply (Z.pow_le_mono_r 10 0); lia).
  rewrite (Z.abs_eq (10 ^ (Exponent d + k))) in Hu by lia.
  assert (Z.abs (signed d) = Z.of_N (Coeff d)) by (unfold signed, sgnZ; destruct (Negative d); lia).
  assert (Z.of_N (Coeff d) < 10 ^ 16) by nia.
  assert (10 ^ 16 < 2 ^ 500) by (vm_compute; reflexivity). lia.
Qed.

Lemma ordinary_statement (k : Z) (a : Account) :
  0 <= k <= MaxExponent ->
  ordinary_account k a -> ordinary_log k a = true ->
  exists s, Account_Statement a = Some s.
Proof.
  intros Hk HA HL.
  destruct (ordinary_balance k a Hk HA) as (t & Hb & Ot & Ut).
  assert (Hbal : Account_Balance a =
            inl {| Total := t; Balance_Available := Available a;
                   Balance_Blocked := Blocked a |})
    by (unfold Account_Balance; rewrite Hb; reflexivity).
  pose proof (ordinary_account_bounds k a HA) as (Hbn & Hcn & _).
  destruct HA as (Ha & Hbo & Han & _ & _ & Hmon). unfold money in Hmon.
  destruct (ordinary_coeff k (Available a) (proj1 Hk) Ha ltac:(lia)) as [E1 C1].
  destruct (ordinary_coeff k (Blocked a) (proj1 Hk) Hbo ltac:(lia)) as [E2 C2].
  destruct (ordinary_coeff k t (proj1 Hk) Ot ltac:(lia)) as [E3 C3].
  destruct (Float64_total _ E1 C1) as [f1 F1].
  destruct (Float64_total _ E2 C2) as [f2 F2].
  destruct (Float64_total _ E3 C3) as [f3 F3].
  unfold Account_Statement. rewrite Hbal. cbn [Balance_Available Balance_Blocked Total].
  rewrite F1, F2, F3.
  assert (Hrows : exists s, rows 0 (Transactions a) = Some s).
  { apply rows_total. unfold ordinary_log in HL. rewrite forallb_forall in HL.
    apply List.Forall_forall. intros v Hv. specialize (HL v Hv).
    unfold ordinary_entry in HL. rewrite !andb_true_iff, Z.leb_le, Z.ltb_lt in HL.
    destruct HL as [[Ho H0] H16].
    destruct (ordinary_coeff k (Amount v) (proj1 Hk) Ho ltac:(lia)) as [E C].
    exact (Float64_total _ E C). }
  destruct Hrows as [body Hbody].
  destruct (Transactions a) as [|v ts]; [eauto|]. rewrite Hbody. eauto.
Qed.

(** X14.  From a new account, after any sequence of calls with ordinary,
    non-negative amounts whose Loads add up to less than 10^16 units,
    failing calls included, Balance and Statement both succeed: neither
    the total nor any conversion to binary64 fails. *)
Theorem statement_never_fails (k id : Z) (rs : list Request) :
  0 <= k <= MaxExponent ->
  forallb (ordinary_request k) rs = true ->
  loaded_units_total k rs < 10 ^ 16 ->
  exists (b : Balance) (s : string),
    Account_Balance (after_all (NewAccount id) rs) = inl b /\
    Account_Statement (after_all (NewAccount id) rs) = Some s.
Proof.
  intros Hk Hrs Hroom.
  assert (Hm : money k (NewAccount id) = 0).
  { destruct (units_zero k (proj1 Hk)) as [_ Uz].
    unfold money, captured_units, sum_over. cbn [NewAccount Available Blocked Merchants].
    rewrite map_fold_empty, Uz. reflexivity. }
  destruct (ordinary_after_all k rs (NewAccount id) Hk (ordinary_new k id (proj1 Hk))
              eq_refl Hrs ltac:(lia)) as (H1 & H2 & _).
  destruct (ordinary_balance k _ Hk H1) as (t & Hb & _).
  destruct (ordinary_statement k _ Hk H1 H2) as [s Hs].
  eexists _, s. split; [|exact Hs].
  unfold Account_Balance. rewrite Hb. reflexivity.
Qed.

Lemma statement_never_fails_witness :
  exists (b : Balance) (s : string),
    Account_Balance (after_all (NewAccount 0) statement_calls) = inl b /\
    Account_Statement (after_all (NewAccount 0) statement_calls) = Some s.
Proof.
  apply (statement_never_fails 2 0 statement_calls);
    [unfold MaxExponent; lia | vm_compute; reflexivity | vm_compute; reflexivity].
Defined.

(** ** The rows of the statement *)

Lemma string_app_assoc (s1 s2 s3 : string) :
  ((s1 ++ s2) ++ s3 = s1 ++ (s2 ++ s3))%string.
Proof.
  induction s1 as [|c s1 IH]; [reflexivity|].
  change (String c ((s1 ++ s2) ++ s3) = String c (s1 ++ (s2 ++ s3)))%string.
  f_equal. exact IH.
Qed.

(** X15.  The rows of a log extended by further transactions are the
    rows of the log as it was, unchanged, followed by the rows of the new
    transactions numbered on from the old length: a row's number is the
    position of its transaction in the log, and the rows fail to render
    only if one of the two parts does. *)
Theorem rows_app (ts1 ts2 : list Transaction) : forall i : Z,
  rows i (ts1 ++ ts2) =
  match rows i ts1, rows (i + Z.of_nat (length ts1)) ts2 with
  | Some old, Some new => Some (old ++ new)%string
  | _, _ => None
  end.
Proof.
  induction ts1 as [|v ts1 IH]; intros i.
  - cbn [app rows length Z.of_nat]. rewrite Z.add_0_r.
    destruct (rows i ts2); reflexivity.
  - cbn [app rows length]. destruct (float.Float64 (Amount v)) as [f|]; [|reflexivity].
    rewrite IH. replace (i + 1 + Z.of_nat (length ts1)) with (i + Z.of_nat (S (length ts1))) by lia.
    destruct (rows (i + 1) ts1) as [s1|]; [|reflexivity].
    destruct (rows _ ts2) as [s2|]; [|reflexivity].
    f_equal. rewrite !string_app_assoc. reflexivity.
Qed.

Lemma string_app_length (s1 s2 : string) :
  String.length (s1 ++ s2) = (String.length s1 + String.length s2)%nat.
Proof.
  induction s1 as [|c s1 IH]; [reflexivity|].
  change (S (String.length (s1 ++ s2)) = S (String.length s1 + String.length s2)).
  now rewrite IH.
Qed.

Lemma spaces_length n : String.length (float.spaces n) = n.
Proof. induction n as [|n IH]; cbn; [reflexivity|]. now rewrite IH. Qed.

Lemma pad_left_length w s :
  String.length (float.pad_left w s) = Nat.max w (String.length s).
Proof. unfold float.pad_left. rewrite string_app_length, spaces_length. lia. Qed.

Lemma pad_right_length w s :
  String.length (float.pad_right w s) = Nat.max w (String.length s).
Proof. unfold float.pad_right. rewrite string_app_length, spaces_length. lia. Qed.

Lemma Operation_String_length op : (String.length (Operation_String op) <= 9)%nat.
Proof. destruct op; cbn; lia. Qed.

(** X16.  A row of the statement is 42 characters wide, so the columns of
    all rows line up, whenever its fields fit their columns: a row number
    of at most 6 characters, a merchant identifier of at most 8 and an
    amount of at most 9 (every operation name fits its 9). *)
Theorem row_width (i : Z) (v : Transaction) (f : float.float64) :
  float.Float64 (Amount v) = Some f ->
  (String.length (Itoa i) <= 6)%nat ->
  (forall id, MerchantID v = Some id -> (String.length (Itoa id) <= 8)%nat) ->
  (String.length (float.format_2f f) <= 9)%nat ->
  exists row,
    rows i [v] = Some (row ++ newline)%string /\ String.length row = 42%nat.
Proof.
  intros Hf Hi Hm Ha. cbn [rows]. rewrite Hf.
  eexists. split.
  - f_equal.
    change (?x ++ newline ++ "")%string with (x ++ newline)%string.
    rewrite <- !string_app_assoc. reflexivity.
  - rewrite !string_app_length, !pad_right_length, pad_left_length.
    pose proof (Operation_String_length (Type_ v)).
    assert (String.length match MerchantID v with
                          | Some id => Itoa id
                          | None => ""%string
                          end <= 8)%nat.
    { destruct (MerchantID v) as [id|]; [now apply Hm|cbn; lia]. }
    cbn [String.length]. lia.
Qed.

Lemma row_width_witness :
  exists row,
    rows 0 [tx Authorize (Some 1) 1500 (-2)] = Some (row ++ newline)%string /\
    String.length row = 42%nat.
Proof.
  destruct (float.Float64 (Amount (tx Authorize (Some 1) 1500 (-2)))) as [f|] eqn:Hf;
    [|vm_compute in Hf; discriminate Hf].
  apply (row_width 0 (tx Authorize (Some 1) 1500 (-2)) f Hf).
  - vm_compute. lia.
  - intros id [= <-]. vm_compute. lia.
  - vm_compute in Hf. injection Hf as <-. vm_compute. lia.
Defined.

(** ** The API service *)

Lemma perform_ID (a : Account) (r : Request) : ID (fst (perform a r)) = ID a.
Proof.
  destruct r as [op mid [amount|]]; destruct op; ops;
    try (destruct (Merchants a !! mid) as [m|] eqn:Hm); paths; auto.
  all: rewrite ?Hm; paths; reflexivity.
Qed.

Import api.

Lemma call_consistent s p method written :
  consistent s ->
  (forall a, ID (fst (method a)) = ID a) ->
  consistent (fst (call s p method written)).
Proof.
  intros Hc Hid. pose proof Hc as (I1 & I2 & I3). unfold call.
  destruct (cells s !! p) as [a|] eqn:Hp; [|exact Hc].
  specialize (Hid a). destruct (method a) as [a' out]. cbn [fst] in Hid.
  assert (Hs : consistent {| cells := <[p := a']> (cells s); accounts := accounts s;
                             accountsMap := accountsMap s |}).
  { split; [|split; assumption]. cbn [cells accountsMap]. intros id q Hq.
    destruct (I1 id q Hq) as (b & Hb & Hbid).
    destruct (decide (p = q)) as [<-|Hne].
    - exists a'. rewrite list_lookup_insert_eq by (eapply lookup_lt_Some; eassumption).
      split; [reflexivity|]. congruence.
    - exists b. rewrite list_lookup_insert_ne by assumption. auto. }
  destruct out as [[e|]|]; exact Hs.
Qed.

Lemma call_no_panic s p method written :
  is_Some (cells s !! p) ->
  (forall a, snd (method a) <> Panics) ->
  snd (call s p method written) <> Panicked.
Proof.
  intros [a Ha] Hm. unfold call. rewrite Ha. specialize (Hm a).
  destruct (method a) as [a' [[e|]|]]; cbn [snd] in *; congruence.
Qed.

Lemma createAccount_consistent s body written :
  consistent s -> consistent (fst (createAccount s body written)).
Proof.
  intros Hc. pose proof Hc as (I1 & I2 & I3). unfold createAccount.
  destruct body as [id|]; [|exact Hc].
  destruct (accountsMap s !! id) as [q|] eqn:Hid; [exact Hc|].
  cbn [fst ID NewAccount].
  assert (Hfresh : length (cells s) ∉ accounts s).
  { intros Hin. apply I2 in Hin as [id0 H0]. destruct (I1 id0 _ H0) as (b & Hb & _).
    apply lookup_lt_Some in Hb. lia. }
  split; [|split]; cbn [cells accounts accountsMap].
  - intros id' p Hp. destruct (decide (id = id')) as [<-|Hne].
    + rewrite lookup_insert_eq in Hp. injection Hp as <-.
      exists (NewAccount id). split; [|reflexivity].
      now apply list_lookup_middle.
    + rewrite lookup_insert_ne in Hp by assumption.
      destruct (I1 id' p Hp) as (b & Hb & Hbid). exists b. split; [|assumption].
      now apply lookup_app_l_Some.
  - intros p. rewrite elem_of_app, list_elem_of_singleton, I2. split.
    + intros [[id0 H0]|Heq]; [|subst p].
      * exists id0. rewrite lookup_insert_ne; [assumption|]. congruence.
      * exists id. apply lookup_insert_eq.
    + intros [id' Hp]. destruct (decide (id = id')) as [<-|Hne].
      * rewrite lookup_insert_eq in Hp. injection Hp as <-. now right.
      * rewrite lookup_insert_ne in Hp by assumption. left. eauto.
  - apply NoDup_app. split; [assumption|]. split; [|apply NoDup_singleton].
    intros p Hp Hp'. apply list_elem_of_singleton in Hp'. subst. contradiction.
Qed.

Ltac handler :=
  unfold serve, authorize, capture, reverse, refund, load, transaction, getAccountValue.

Lemma serve_consistent s c : consistent s -> consistent (fst (serve s c)).
Proof.
  intros Hs. destruct c as [body w|idp body w|idp body w|idp body w|idp body w|idp body w];
    handler; try (apply createAccount_consistent; assumption).
  all: destruct idp as [id|]; [|assumption];
    destruct (accountsMap s !! id) as [p|]; [|assumption].
  - destruct body as [[d|]|]; try assumption.
    apply call_consistent; [assumption|]. intros a.
    exact (perform_ID a {| Request_Op := Load; Request_MerchantID := 0;
                           Request_Amount := Some d |}).
  - destruct body as [[mid [d|]]|]; try assumption.
    apply call_consistent; [assumption|]. intros a.
    exact (perform_ID a {| Request_Op := Authorize; Request_MerchantID := mid;
                           Request_Amount := Some d |}).
  - destruct body as [[mid [d|]]|]; try assumption.
    apply call_consistent; [assumption|]. intros a.
    exact (perform_ID a {| Request_Op := Capture; Request_MerchantID := mid;
                           Request_Amount := Some d |}).
  - destruct body as [[mid [d|]]|]; try assumption.
    apply call_consistent; [assumption|]. intros a.
    exact (perform_ID a {| Request_Op := Reverse; Request_MerchantID := mid;
                           Request_Amount := Some d |}).
  - destruct body as [[mid [d|]]|]; try assumption.
    apply call_consistent; [assumption|]. intros a.
    exact (perform_ID a {| Request_Op := Refund; Request_MerchantID := mid;
                           Request_Amount := Some d |}).
Qed.

Lemma serve_no_panic s c : consistent s -> snd (serve s c) <> Panicked.
Proof.
  intros (I1 & _). destruct c as [body w|idp body w|idp body w|idp body w|idp body w|idp body w];
    handler.
  { unfold createAccount. destruct body as [id|]; [|discriminate].
    destruct (accountsMap s !! id); discriminate. }
  all: destruct idp as [id|]; [|discriminate];
    destruct (accountsMap s !! id) as [p|] eqn:Hp; [|discriminate];
    destruct (I1 id p Hp) as (a0 & Ha0 & _).
  - destruct body as [[d|]|]; try discriminate.
    apply call_no_panic; [eauto|]. intros a.
    exact (perform_some_returns a Load 0 d).
  - destruct body as [[mid [d|]]|]; try discriminate.
    apply call_no_panic; [eauto|]. intros a.
    exact (perform_some_returns a Authorize mid d).
  - destruct body as [[mid [d|]]|]; try discriminate.
    apply call_no_panic; [eauto|]. intros a.
    exact (perform_some_returns a Capture mid d).
  - destruct body as [[mid [d|]]|]; try discriminate.
    apply call_no_panic; [eauto|]. intros a.
    exact (perform_some_returns a Reverse mid d).
  - destruct body as [[mid [d|]]|]; try discriminate.
    apply call_no_panic; [eauto|]. intros a.
    exact (perform_some_returns a Refund mid d).
Qed.

Lemma index_from_spec (l : list Account) : forall (p : nat) (m : gmap Z nat) (id : Z) (q : nat),
  index_from p l m !! id = Some q <->
  (exists i a, l !! i = Some a /\ ID a = id /\ q = (p + i)%nat /\
               forall j b, (i < j)%nat -> l !! j = Some b -> ID b <> id) \/
  (m !! id = Some q /\ forall a, a ∈ l -> ID a <> id).
Proof.
  induction l as [|v l IH]; intros p m id q; cbn [index_from].
  - split.
    + intros H. right. split; [assumption|]. intros a Ha. inversion Ha.
    + intros [(i & a & Hi & _)|[H _]]; [discriminate|assumption].
  - rewrite IH. split.
    + intros [(i & a & Hi & Hid & -> & Hlast)|[Hm Hnone]].
      * left. exists (S i), a. repeat split; try assumption; try lia.
        intros [|j] b Hj Hb; [lia|]. apply (Hlast j b); [lia|assumption].
      * destruct (decide (ID v = id)) as [Hv|Hv].
        -- rewrite Hv, lookup_insert_eq in Hm. injection Hm as <-.
           left. exists 0%nat, v. repeat split; try assumption; try lia.
           intros [|j] b Hj Hb; [lia|]. apply Hnone. eapply list_elem_of_lookup_2. exact Hb.
        -- rewrite lookup_insert_ne in Hm by assumption. right. split; [assumption|].
           intros a Ha. apply elem_of_cons in Ha as [->|Ha]; auto.
    + intros [(i & a & Hi & Hid & -> & Hlast)|[Hm Hnone]].
      * destruct i as [|i].
        -- injection Hi as ->. right. split.
           ++ rewrite Hid, lookup_insert_eq. f_equal. lia.
           ++ intros b Hb. apply list_elem_of_lookup_1 in Hb as [j Hj].
              apply (Hlast (S j) b); [lia|assumption].
        -- left. exists i, a. repeat split; try assumption; try lia.
           intros j b Hj Hb. apply (Hlast (S j) b); [lia|assumption].
      * right. split.
        -- rewrite lookup_insert_ne; [assumption|]. apply Hnone. left.
        -- intros a Ha. apply Hnone. now right.
Qed.

Lemma NoDup_ID_last (l : list Account) (i j : nat) (a b : Account) :
  NoDup (map ID l) -> l !! i = Some a -> l !! j = Some b -> ID a = ID b -> i = j.
Proof.
  intros Hnd Hi Hj Hid.
  apply (NoDup_lookup (map ID l) i j (ID a)); [assumption| |].
  - rewrite list_lookup_fmap, Hi. reflexivity.
  - rewrite list_lookup_fmap, Hj. cbn. now rewrite Hid.
Qed.

Lemma loadDB_consistent (file : option (list Account)) :
  (forall l, file = Some l -> NoDup (map ID l)) -> consistent (loadDB file).
Proof.
  intros Hnd. destruct file as [l|]; cbn [loadDB].
  2:{ split; [|split]; cbn.
      - intros id p H. rewrite lookup_empty in H. discriminate.
      - intros p. split; [intros H; inversion H|].
        intros [id H]. rewrite lookup_empty in H. discriminate.
      - constructor. }
  specialize (Hnd l eq_refl).
  split; [|split]; cbn [cells accounts accountsMap].
  - intros id p H. apply index_from_spec in H as [(i & a & Hi & Hid & -> & _)|[H _]].
    + exists a. auto.
    + rewrite lookup_empty in H. discriminate.
  - intros p. rewrite elem_of_seq. split.
    + intros Hp. destruct (lookup_lt_is_Some_2 l p ltac:(lia)) as [a Ha].
      exists (ID a). apply index_from_spec. left. exists p, a.
      repeat split; try assumption.
      intros j b Hj Hb Hid. pose proof (NoDup_ID_last l p j a b Hnd Ha Hb (eq_sym Hid)). lia.
    + intros [id H]. apply index_from_spec in H as [(i & a & Hi & Hid & -> & _)|[H _]].
      * apply lookup_lt_Some in Hi. lia.
      * rewrite lookup_empty in H. discriminate.
  - apply NoDup_seq.
Qed.

Lemma serve_all_consistent (cs : list Call) : forall s,
  consistent s -> consistent (serve_all s cs).
Proof.
  induction cs as [|c cs IH]; intros s Hs; [assumption|].
  apply IH. now apply serve_consistent.
Qed.

Lemma serve_keeps_pointer s c id p :
  accountsMap s !! id = Some p -> accountsMap (fst (serve s c)) !! id = Some p.
Proof.
  intros Hp. destruct c as [body w|idp body w|idp body w|idp body w|idp body w|idp body w];
    handler.
  { unfold createAccount. destruct body as [id0|]; [|assumption].
    destruct (accountsMap s !! id0) as [q|] eqn:Hq; [assumption|].
    cbn [fst accountsMap ID NewAccount]. rewrite lookup_insert_ne; [assumption|]. congruence. }
  all: destruct idp as [id0|]; [|assumption];
    destruct (accountsMap s !! id0) as [p0|]; [|assumption].
  - destruct body as [[d|]|]; try assumption.
    unfold call. destruct (cells s !! p0); [|assumption].
    destruct (Account_Load _ _) as [a' [[e|]|]]; assumption.
  - destruct body as [[mid [d|]]|]; try assumption.
    unfold call. destruct (cells s !! p0); [|assumption].
    destruct (Account_Authorize _ _ _) as [a' [[e|]|]]; assumption.
  - destruct body as [[mid [d|]]|]; try assumption.
    unfold call. destruct (cells s !! p0); [|assumption].
    destruct (Account_Capture _ _ _) as [a' [[e|]|]]; assumption.
  - destruct body as [[mid [d|]]|]; try assumption.
    unfold call. destruct (cells s !! p0); [|assumption].
    destruct (Account_Reverse _ _ _) as [a' [[e|]|]]; assumption.
  - destruct body as [[mid [d|]]|]; try assumption.
    unfold call. destruct (cells s !! p0); [|assumption].
    destruct (Account_Refund _ _ _) as [a' [[e|]|]]; assumption.
Qed.

Lemma serve_all_keeps_pointer (cs : list Call) : forall s id p,
  accountsMap s !! id = Some p -> accountsMap (serve_all s cs) !! id = Some p.
Proof.
  induction cs as [|c cs IH]; intros s id p Hp; [assumption|].
  apply IH. now apply serve_keeps_pointer.
Qed.

(** X17.  The account directory of the service stays consistent.  Start
    from the database as loaded (a missing or empty file, or a file whose
    accounts have distinct IDs) and serve any sequence of requests to the
    writing routes, whatever their parameters and bodies and whether or
    not the database writes succeed: afterwards every ID in the index
    leads to an account with that ID, the account list and the index hold
    the same accounts, and no account is listed twice. *)
Theorem api_directory_stays_consistent (file : option (list Account)) (cs : list Call) :
  (forall l, file = Some l -> NoDup (map ID l)) ->
  consistent (serve_all (loadDB file) cs).
Proof.
  intros Hnd. apply serve_all_consistent, loadDB_consistent, Hnd.
Qed.

Lemma api_directory_witness :
  consistent
    (serve_all
       (loadDB (Some [after_all (NewAccount 7) capture_setup; NewAccount 3]))
       [POST_accounts (Some 1) true; POST_accounts (Some 3) true;
        POST_capture (Some 7) (Some (1, Some (New 1 0))) false]).
Proof.
  apply (api_directory_stays_consistent
           (Some [after_all (NewAccount 7) capture_setup; NewAccount 3])
           [POST_accounts (Some 1) true; POST_accounts (Some 3) true;
            POST_capture (Some 7) (Some (1, Some (New 1 0))) false]).
  intros l Hl. injection Hl as <-.
  change (NoDup [7; 3]). apply NoDup_cons. split; [|apply NoDup_singleton].
  intros H. apply list_elem_of_singleton in H. discriminate H.
Defined.

(** X18.  An account is created once and never goes away: once an ID is
    in the index, then after any further sequence of requests a
    createAccount with that ID is answered 409 Conflict and changes
    nothing, and the ID still leads to the same account. *)
Theorem account_created_once (s : Server) (id : Z) (p : nat) (cs : list Call)
    (written : bool) :
  accountsMap s !! id = Some p ->
  createAccount (serve_all s cs) (Some id) written =
    (serve_all s cs, Replied StatusConflict) /\
  getAccountValue (serve_all s cs) (Some id) = inl p.
Proof.
  intros Hp. apply (serve_all_keeps_pointer cs) in Hp.
  unfold createAccount, getAccountValue. rewrite Hp. auto.
Qed.

Lemma account_created_once_witness :
  accountsMap (serve_all (loadDB None) [POST_accounts (Some 1) true]) !! 1 = Some 0%nat /\
  createAccount two_accounts (Some 1) true = (two_accounts, Replied StatusConflict).
Proof.
  assert (H : accountsMap (serve_all (loadDB None) [POST_accounts (Some 1) true]) !! 1
              = Some 0%nat) by (vm_compute; reflexivity).
  split; [exact H|].
  exact (proj1 (account_created_once
                  (serve_all (loadDB None) [POST_accounts (Some 1) true]) 1 0%nat
                  [POST_accounts (Some 2) true;
                   POST_load (Some 1) (Some (Some (New 10 0))) true] true H)).
Defined.

Lemma call_other s p method written q :
  p <> q -> cells (fst (call s p method written)) !! q = cells s !! q.
Proof.
  intros Hne. unfold call. destruct (cells s !! p) as [a|]; [|reflexivity].
  destruct (method a) as [a' [[e|]|]]; cbn [fst cells];
    now rewrite list_lookup_insert_ne.
Qed.

Lemma call_map s p method written :
  accountsMap (fst (call s p method written)) = accountsMap s.
Proof.
  unfold call. destruct (cells s !! p) as [a|]; [|reflexivity].
  destruct (method a) as [a' [[e|]|]]; reflexivity.
Qed.

Lemma call_account_of s id0 p0 method written id :
  consistent s -> accountsMap s !! id0 = Some p0 -> id0 <> id ->
  account_of (fst (call s p0 method written)) id = account_of s id.
Proof.
  intros (I1 & _) H0 Hne. unfold account_of. rewrite call_map.
  destruct (accountsMap s !! id) as [p|] eqn:Hp; [|reflexivity].
  apply call_other. intros ->.
  destruct (I1 id0 p H0) as (a & Ha & Hida). destruct (I1 id p Hp) as (b & Hb & Hidb).
  congruence.
Qed.

Lemma serve_other (s : Server) (c : Call) (id : Z) :
  consistent s -> addressed c <> Some id ->
  account_of (fst (serve s c)) id = account_of s id.
Proof.
  intros Hs Hne. pose proof Hs as (I1 & _).
  destruct c as [body w|idp body w|idp body w|idp body w|idp body w|idp body w];
    cbn [addressed] in Hne; handler.
  { unfold createAccount. destruct body as [id0|]; [|reflexivity].
    destruct (accountsMap s !! id0) as [q|] eqn:Hq; [reflexivity|].
    unfold account_of. cbn [fst accountsMap cells ID NewAccount].
    rewrite lookup_insert_ne by congruence.
    destruct (accountsMap s !! id) as [p|] eqn:Hp; [|reflexivity].
    destruct (I1 id p Hp) as (a & Ha & _). rewrite Ha. now apply lookup_app_l_Some. }
  all: destruct idp as [id0|]; [|reflexivity];
    destruct (accountsMap s !! id0) as [p0|] eqn:H0; [|reflexivity];
    assert (id0 <> id) by congruence.
  - destruct body as [[d|]|]; try reflexivity. now apply (call_account_of s id0).
  - destruct body as [[mid [d|]]|]; try reflexivity. now apply (call_account_of s id0).
  - destruct body as [[mid [d|]]|]; try reflexivity. now apply (call_account_of s id0).
  - destruct body as [[mid [d|]]|]; try reflexivity. now apply (call_account_of s id0).
  - destruct body as [[mid [d|]]|]; try reflexivity. now apply (call_account_of s id0).
Qed.

(** X19.  Requests change at most the accounts they name: when the
    directory is consistent, serving any sequence of requests none of
    which names a given ID leaves the account with that ID exactly as it
    was, whatever the requests do to their own accounts. *)
Theorem other_accounts_untouched_by_calls (cs : list Call) : forall (s : Server) (id : Z),
  consistent s ->
  forallb (fun c => negb (bool_decide (addressed c = Some id))) cs = true ->
  account_of (serve_all s cs) id = account_of s id.
Proof.
  induction cs as [|c cs IH]; intros s id Hs Hcs; [reflexivity|].
  cbn [forallb] in Hcs. apply andb_true_iff in Hcs as [Hc Hcs].
  apply negb_true_iff, bool_decide_eq_false in Hc.
  cbn [serve_all fold_left].
  change (account_of (serve_all (fst (serve s c)) cs) id = account_of s id).
  rewrite IH by (try apply serve_consistent; assumption).
  now apply serve_other.
Qed.

Lemma other_accounts_witness :
  account_of
    (serve_all two_accounts
       [POST_authorize (Some 1) (Some (7, Some (New 3 0))) true;
        POST_accounts (Some 3) true]) 2
  = Some (NewAccount 2).
Proof.
  rewrite (other_accounts_untouched_by_calls
             [POST_authorize (Some 1) (Some (7, Some (New 3 0))) true;
              POST_accounts (Some 3) true] two_accounts 2).
  - vm_compute. reflexivity.
  - apply serve_all_consistent, loadDB_consistent. intros l Hl. discriminate Hl.
  - vm_compute. reflexivity.
Defined.

(** X20.  The index [loadDB] builds leads from an ID to the last account
    of the file with that ID: an ID is indexed at position p exactly when
    the account at p has that ID and no later account of the file has it
    (an earlier account with the same ID is listed but cannot be reached
    by its ID). *)
Theorem loadDB_finds_last (decoded : list Account) (id : Z) (p : nat) :
  accountsMap (loadDB (Some decoded)) !! id = Some p <->
  exists a, decoded !! p = Some a /\ ID a = id /\
            forall q b, (p < q)%nat -> decoded !! q = Some b -> ID b <> id.
Proof.
  cbn [loadDB accountsMap]. rewrite index_from_spec. split.
  - intros [(i & a & Hi & Hid & -> & Hlast)|[H _]].
    + exists a. auto.
    + rewrite lookup_empty in H. discriminate.
  - intros (a & Ha & Hid & Hlast). left. exists p, a. auto.
Qed.

(** X21.  A transaction request for an existing account with a
    well-formed body runs the ledger call on that account and keeps what
    the call left behind, whatever it returned: afterwards the ID leads
    to the account as Authorize, Capture, Reverse or Refund left it, and
    the status is 200 only if the call returned nil and the database was
    written; every error of the ledger, insufficient funds and an unknown
    merchant included, is answered 500. *)
Theorem transaction_runs_the_ledger_call (s : Server) (id : Z) (a : Account)
    (op : Operation) (merchantID : Z) (d : Decimal) (written : bool) :
  consistent s -> account_of s id = Some a -> op <> Load ->
  account_of (fst (transaction s (Some id) (Some (merchantID, Some d)) op written)) id =
    Some (fst (perform a {| Request_Op := op; Request_MerchantID := merchantID;
                            Request_Amount := Some d |})) /\
  snd (transaction s (Some id) (Some (merchantID, Some d)) op written) =
    Replied (match snd (perform a {| Request_Op := op; Request_MerchantID := merchantID;
                                     Request_Amount := Some d |}) with
             | Returns None => updateDB written
             | _ => StatusInternalServerError
             end).
Proof.
  intros (I1 & _) Ha Hop. unfold account_of in Ha.
  destruct (accountsMap s !! id) as [p|] eqn:Hp; [|discriminate].
  pose proof (perform_some_returns a op merchantID d) as Hnp.
  unfold transaction, getAccountValue. rewrite Hp.
  destruct op; [congruence| | | |]; unfold perform in *;
    cbn [Request_Op Request_MerchantID Request_Amount] in *;
    unfold call; rewrite Ha;
    match goal with
    | |- context [let '(_, _) := ?m in _] => destruct m as [a' [[e|]|]]
    end; cbn [fst snd] in *; try congruence;
    unfold account_of; cbn [accountsMap cells]; rewrite Hp;
    (split; [apply list_lookup_insert_eq; eapply lookup_lt_Some; eassumption|reflexivity]).
Qed.

Lemma transaction_witness :
  account_of
    (fst (transaction two_accounts (Some 1) (Some (7, Some (New 3 0))) Authorize true)) 1 =
    Some (fst (perform (after (NewAccount 1) (req Load 0 10 0)) (req Authorize 7 3 0))) /\
  snd (transaction two_accounts (Some 1) (Some (7, Some (New 3 0))) Authorize true) =
    Replied StatusOK.
Proof.
  destruct (transaction_runs_the_ledger_call two_accounts 1
              (after (NewAccount 1) (req Load 0 10 0)) Authorize 7 (New 3 0) true)
    as [H1 H2].
  - apply serve_all_consistent, loadDB_consistent. intros l Hl. discriminate Hl.
  - vm_compute. reflexivity.
  - discriminate.
  - split; [exact H1|]. rewrite H2. vm_compute. reflexivity.
Defined.

Lemma serve_addressed s c id a :
  consistent s -> account_of s id = Some a -> addressed c = Some id ->
  account_of (fst (serve s c)) id =
    Some match request_of c with
         | Some r => after a r
         | None => a
         end.
Proof.
  intros Hs Ha Hc. pose proof Hs as (I1 & _).
  pose proof Ha as Ha'. unfold account_of in Ha'.
  destruct (accountsMap s !! id) as [p|] eqn:Hp; [|discriminate].
  assert (Hlt : (p < length (cells s))%nat) by (eapply lookup_lt_Some; eassumption).
  destruct c as [body w|idp body w|idp body w|idp body w|idp body w|idp body w];
    cbn [addressed] in Hc; subst; cbn [request_of]; handler.
  { unfold createAccount. rewrite Hp. exact Ha. }
  all: rewrite Hp.
  - destruct body as [[d|]|]; try exact Ha.
    unfold call, after, perform. cbn [Request_Op Request_Amount]. rewrite Ha'.
    destruct (Account_Load a (Some d)) as [a' [[e|]|]]; cbn [fst];
      unfold account_of; cbn [accountsMap cells]; rewrite Hp;
      now apply list_lookup_insert_eq.
  - destruct body as [[mid [d|]]|]; try exact Ha.
    unfold call, after, perform. cbn [Request_Op Request_Amount Request_MerchantID].
    rewrite Ha'.
    destruct (Account_Authorize a mid (Some d)) as [a' [[e|]|]]; cbn [fst];
      unfold account_of; cbn [accountsMap cells]; rewrite Hp;
      now apply list_lookup_insert_eq.
  - destruct body as [[mid [d|]]|]; try exact Ha.
    unfold call, after, perform. cbn [Request_Op Request_Amount Request_MerchantID].
    rewrite Ha'.
    destruct (Account_Capture a mid (Some d)) as [a' [[e|]|]]; cbn [fst];
      unfold account_of; cbn [accountsMap cells]; rewrite Hp;
      now apply list_lookup_insert_eq.
  - destruct body as [[mid [d|]]|]; try exact Ha.
    unfold call, after, perform. cbn [Request_Op Request_Amount Request_MerchantID].
    rewrite Ha'.
    destruct (Account_Reverse a mid (Some d)) as [a' [[e|]|]]; cbn [fst];
      unfold account_of; cbn [accountsMap cells]; rewrite Hp;
      now apply list_lookup_insert_eq.
  - destruct body as [[mid [d|]]|]; try exact Ha.
    unfold call, after, perform. cbn [Request_Op Request_Amount Request_MerchantID].
    rewrite Ha'.
    destruct (Account_Refund a mid (Some d)) as [a' [[e|]|]]; cbn [fst];
      unfold account_of; cbn [accountsMap cells]; rewrite Hp;
      now apply list_lookup_insert_eq.
Qed.

Lemma serve_unknown s c id :
  accountsMap s !! id = None ->
  (forall w, c <> POST_accounts (Some id) w) ->
  accountsMap (fst (serve s c)) !! id = None.
Proof.
  intros Hid Hc.
  destruct c as [body w|idp body w|idp body w|idp body w|idp body w|idp body w]; handler.
  { unfold createAccount. destruct body as [id0|]; [|assumption].
    destruct (accountsMap s !! id0); [assumption|].
    cbn [fst accountsMap ID NewAccount]. rewrite lookup_insert_ne; [assumption|].
    intros ->. now apply (Hc w). }
  all: destruct idp as [id0|]; [|assumption];
    destruct (accountsMap s !! id0) as [p0|]; [|assumption].
  - destruct body as [[d|]|]; try assumption. now rewrite call_map.
  - destruct body as [[mid [d|]]|]; try assumption. now rewrite call_map.
  - destruct body as [[mid [d|]]|]; try assumption. now rewrite call_map.
  - destruct body as [[mid [d|]]|]; try assumption. now rewrite call_map.
  - destruct body as [[mid [d|]]|]; try assumption. now rewrite call_map.
Qed.

Lemma serve_creates s id w :
  accountsMap s !! id = None ->
  account_of (fst (serve s (POST_accounts (Some id) w))) id = Some (NewAccount id).
Proof.
  intros Hid. cbn [serve]. unfold createAccount. rewrite Hid.
  unfold account_of. cbn [fst accountsMap cells ID NewAccount].
  rewrite lookup_insert_eq. now apply list_lookup_middle.
Qed.

Lemma after_all_snoc a rs r : after_all a (rs ++ [r]) = after (after_all a rs) r.
Proof. unfold after_all. now rewrite fold_left_app. Qed.

Lemma tracked_step s id h c :
  consistent s -> tracked s id h -> tracked (fst (serve s c)) id (history_step id h c).
Proof.
  intros Hs Ht. destruct h as [rs|]; cbn [tracked history_step] in *.
  - destruct (decide (addressed c = Some id)) as [Hc|Hc].
    + pose proof (serve_addressed s c id _ Hs Ht Hc) as H.
      destruct (request_of c) as [r|]; unfold tracked; rewrite H; [|reflexivity].
      now rewrite after_all_snoc.
    + unfold tracked. now rewrite serve_other.
  - destruct c as [[id'|] w|idp body w|idp body w|idp body w|idp body w|idp body w];
      try (apply serve_unknown; [assumption|discriminate]).
    destruct (decide (id' = id)) as [->|Hne]; cbn [tracked].
    + now apply serve_creates.
    + apply serve_unknown; [assumption|]. congruence.
Qed.

Lemma tracked_all (cs : list Call) : forall s id h,
  consistent s -> tracked s id h ->
  tracked (serve_all s cs) id (fold_left (history_step id) cs h).
Proof.
  induction cs as [|c cs IH]; intros s id h Hs Ht; [assumption|].
  cbn [serve_all fold_left]. apply IH.
  - now apply serve_consistent.
  - now apply tracked_step.
Qed.

(** X22.  The account the service keeps under an ID is the account the
    ledger calls produce.  Start from an empty database and serve any
    sequence of requests: an ID no request has created leads to no
    account; otherwise it leads to the account obtained from
    NewAccount(ID) by performing, in order, the ledger call of every
    later request with a well-formed body that names the ID (failing
    calls included), and nothing else has touched it. *)
Theorem api_account_is_its_history (cs : list Call) (id : Z) :
  account_of (serve_all (loadDB None) cs) id =
  option_map (after_all (NewAccount id)) (history id cs).
Proof.
  assert (Hs : consistent (loadDB None))
    by (apply loadDB_consistent; intros l Hl; discriminate Hl).
  pose proof (tracked_all cs (loadDB None) id None Hs (lookup_empty id)) as Ht.
  unfold history. destruct (fold_left (history_step id) cs None) as [rs|];
    cbn [tracked option_map] in *; [assumption|].
  unfold account_of. now rewrite Ht.
Qed.

(** X23.  The statement route answers 200 with a statement for every
    account whose requests had ordinary, non-negative amounts with Loads
    adding up to less than 10^16 units: after any sequence of requests
    served from an empty database, Statement does not fail on such an
    account. *)
Theorem statement_route_answers (k : Z) (cs : list Call) (id : Z) (rs : list Request) :
  0 <= k <= MaxExponent ->
  history id cs = Some rs ->
  forallb (ordinary_request k) rs = true ->
  loaded_units_total k rs < 10 ^ 16 ->
  exists text,
    statement (serve_all (loadDB None) cs) (Some id) = (Replied StatusOK, Some text) /\
    Account_Statement (after_all (NewAccount id) rs) = Some text.
Proof.
  intros Hk Hh Hrs Hroom.
  assert (Hs : consistent (loadDB None))
    by (apply loadDB_consistent; intros l Hl; discriminate Hl).
  pose proof (tracked_all cs (loadDB None) id None Hs (lookup_empty id)) as Ht.
  unfold history in Hh. rewrite Hh in Ht. cbn [tracked] in Ht.
  assert (Hm : money k (NewAccount id) = 0).
  { destruct (units_zero k (proj1 Hk)) as [_ Uz].
    unfold money, captured_units, sum_over. cbn [NewAccount Available Blocked Merchants].
    rewrite map_fold_empty, Uz. reflexivity. }
  destruct (ordinary_after_all k rs (NewAccount id) Hk (ordinary_new k id (proj1 Hk))
              eq_refl Hrs ltac:(lia)) as (H1 & H2 & _).
  destruct (ordinary_statement k _ Hk H1 H2) as [text Htext].
  exists text. split; [|exact Htext].
  unfold statement, getAccountValue. unfold account_of in Ht.
  destruct (accountsMap (serve_all (loadDB None) cs) !! id) as [p|]; [|discriminate].
  rewrite Ht, Htext. reflexivity.
Qed.

Lemma statement_route_witness :
  exists text,
    statement two_accounts (Some 1) = (Replied StatusOK, Some text) /\
    Account_Statement (after_all (NewAccount 1) [req Load 0 10 0]) = Some text.
Proof.
  apply (statement_route_answers 2
           [POST_accounts (Some 1) true; POST_accounts (Some 2) true;
            POST_load (Some 1) (Some (Some (New 10 0))) true] 1 [req Load 0 10 0]);
    [unfold MaxExponent; lia | vm_compute; reflexivity | vm_compute; reflexivity
    | vm_compute; reflexivity].
Defined.

(** X24.  Served from an empty database, no request to a writing route
    makes a handler panic, whatever the requests before it were: every
    account then comes from NewAccount, so its cells are allocated, the
    index only holds pointers to existing accounts, and a handler calls
    the ledger only with an amount that [apd.NewFromString] has parsed,
    never with nil. *)
Theorem api_serves_without_panic (cs : list Call) (c : Call) :
  exists status, snd (serve (serve_all (loadDB None) cs) c) = Replied status.
Proof.
  assert (Hs : consistent (serve_all (loadDB None) cs)).
  { apply serve_all_consistent, loadDB_consistent. intros l Hl. discriminate Hl. }
  pose proof (serve_no_panic _ c Hs) as Hp.
  destruct (snd (serve (serve_all (loadDB None) cs) c)) as [status|]; [eauto|congruence].
Qed.
